(** * The customizable-layout state engine

    A shallow embedding of [customizable-layout.component.ts]: the layout
    configuration model, the reconciliation of a stored configuration with
    the default one, the drag/drop and column mutators, the breakpoint
    selector and the local-storage gateway, followed by the properties of
    the engine that are checked against its description. *)

From Stdlib Require Import ZArith Ascii String List Bool Lia Permutation DecimalString.
From stdpp Require Import base option list strings gmap.

Set Warnings "-register-all".

(** ** Run-time errors

    The component has no [try]/[catch]: an exception raised by the platform
    ([JSON.parse]) or by a property access on [undefined] leaves the method
    that was running. *)

Inductive exn := SyntaxError | TypeError.

Definition result (A : Type) : Type := exn + A.

(** ** JSON values, [JSON.parse] and [JSON.stringify]

    Strings are byte strings (the UTF-8 form of the JavaScript string);
    numbers are exact decimals [m * 10 ^ e], which the parser keeps in
    one form per number. *)

Module JSON.

Inductive json :=
| JNull
| JBool (b : bool)
| JNum (m e : Z)
| JStr (s : string)
| JArr (l : list json)
| JObj (l : list (string * json)).

Definition dquote : ascii := "034"%char.
Definition backslash : ascii := "\"%char.

(** *** Own-property order of a JavaScript object

    Keys that are array indices (canonical decimal numerals below
    [2^32 - 1]) are enumerated first, in ascending numeric order; the other
    keys follow in the order in which they were created. *)

Definition digit_of (c : ascii) : option Z :=
  let n := Z.of_nat (nat_of_ascii c) in
  if ((48 <=? n) && (n <=? 57))%Z then Some (n - 48)%Z else None.

Fixpoint numeral_value (acc : Z) (s : string) : option Z :=
  match s with
  | EmptyString => Some acc
  | String c r =>
      match digit_of c with
      | Some d => numeral_value (10 * acc + d)%Z r
      | None => None
      end
  end.

Definition array_index (k : string) : option Z :=
  match k with
  | EmptyString => None
  | String c r =>
      if (Ascii.eqb c "0" && negb (String.eqb r ""))%bool then None
      else if (10 <? String.length k)%nat then None
      else match numeral_value 0 k with
           | Some n => if (n <? 4294967295)%Z then Some n else None
           | None => None
           end
  end.

Fixpoint insert_index {A} (n : Z) (k : string) (v : A) (l : list (Z * (string * A)))
  : list (Z * (string * A)) :=
  match l with
  | [] => [(n, (k, v))]
  | (n', kv) :: l' =>
      if (n <? n')%Z then (n, (k, v)) :: l else (n', kv) :: insert_index n k v l'
  end.

Fixpoint index_entries {A} (l : list (string * A)) : list (Z * (string * A)) :=
  match l with
  | [] => []
  | (k, v) :: l' =>
      match array_index k with
      | Some n => insert_index n k v (index_entries l')
      | None => index_entries l'
      end
  end.

Definition own_property_order {A} (l : list (string * A)) : list (string * A) :=
  map snd (index_entries l)
    ++ List.filter (fun kv => bool_decide (array_index (fst kv) = None)) l.

(** [o[k] = v] on an object kept in creation order. *)
Fixpoint obj_set {A} (k : string) (v : A) (l : list (string * A)) : list (string * A) :=
  match l with
  | [] => [(k, v)]
  | (k', v') :: l' =>
      if String.eqb k' k then (k', v) :: l' else (k', v') :: obj_set k v l'
  end.

Fixpoint obj_get {A} (k : string) (l : list (string * A)) : option A :=
  match l with
  | [] => None
  | (k', v) :: l' => if String.eqb k' k then Some v else obj_get k l'
  end.

(** *** The parser *)

Definition is_ws (c : ascii) : bool :=
  let n := nat_of_ascii c in
  (Nat.eqb n 32 || Nat.eqb n 9 || Nat.eqb n 10 || Nat.eqb n 13)%bool.

Fixpoint skip_ws (s : string) : string :=
  match s with
  | String c r => if is_ws c then skip_ws r else s
  | EmptyString => s
  end.

Fixpoint take_digits (s : string) : list Z * string :=
  match s with
  | String c r =>
      match digit_of c with
      | Some d => let '(ds, rest) := take_digits r in (d :: ds, rest)
      | None => ([], s)
      end
  | EmptyString => ([], s)
  end.

Definition digits_value (ds : list Z) : Z :=
  fold_left (fun acc d => (10 * acc + d)%Z) ds 0%Z.

Definition parse_fraction (s : string) : option (list Z * string) :=
  match s with
  | String "." r =>
      match take_digits r with
      | ([], _) => None
      | (ds, rest) => Some (ds, rest)
      end
  | _ => Some ([], s)
  end.

Definition parse_exponent (s : string) : option (Z * string) :=
  let signed (r : string) :=
    let '(neg, r1) :=
      match r with
      | String "-" r' => (true, r')
      | String "+" r' => (false, r')
      | _ => (false, r)
      end in
    match take_digits r1 with
    | ([], _) => None
    | (ds, rest) => Some (if neg : bool then (- digits_value ds)%Z else digits_value ds, rest)
    end in
  match s with
  | String "e" r => signed r
  | String "E" r => signed r
  | _ => Some (0%Z, s)
  end.

Fixpoint strip_zeros (fuel : nat) (m e : Z) : Z * Z :=
  match fuel with
  | O => (m, e)
  | S fuel =>
      if ((e <? 0) && (m mod 10 =? 0))%Z then strip_zeros fuel (m / 10)%Z (e + 1)%Z
      else (m, e)
  end.

(** The number [m * 10 ^ e] in the one form that stands for it: an
    integer has the exponent 0, a fraction has no trailing zero. *)
Definition number (m e : Z) : json :=
  if (0 <=? e)%Z then JNum (m * 10 ^ e) 0
  else let '(m', e') := strip_zeros (Z.to_nat (- e)) m e in JNum m' e'.

Definition parse_number (s : string) : option (json * string) :=
  let '(neg, s1) :=
    match s with
    | String "-" r => (true, r)
    | _ => (false, s)
    end in
  match take_digits s1 with
  | ([], _) => None
  | (d :: ds, s2) =>
      if ((d =? 0)%Z && negb (Nat.eqb (length ds) 0))%bool then None
      else
        match parse_fraction s2 with
        | None => None
        | Some (fs, s3) =>
            match parse_exponent s3 with
            | None => None
            | Some (ex, s4) =>
                let m := digits_value (d :: ds ++ fs) in
                Some (number (if neg : bool then (- m)%Z else m)
                             (ex - Z.of_nat (length fs))%Z, s4)
            end
        end
  end.

Definition hex_of (c : ascii) : option Z :=
  let n := Z.of_nat (nat_of_ascii c) in
  if ((48 <=? n) && (n <=? 57))%Z then Some (n - 48)%Z
  else if ((65 <=? n) && (n <=? 70))%Z then Some (n - 55)%Z
  else if ((97 <=? n) && (n <=? 102))%Z then Some (n - 87)%Z
  else None.

Definition hex4 (a b c d : ascii) : option Z :=
  match hex_of a, hex_of b, hex_of c, hex_of d with
  | Some x, Some y, Some z, Some w => Some (4096 * x + 256 * y + 16 * z + w)%Z
  | _, _, _, _ => None
  end.

Definition byte (n : Z) : ascii := ascii_of_nat (Z.to_nat n).

(** UTF-8 form of a code point. *)
Definition utf8 (n : Z) (k : string) : string :=
  if (n <? 128)%Z then String (byte n) k
  else if (n <? 2048)%Z then
    String (byte (192 + n / 64)) (String (byte (128 + n mod 64)) k)
  else if (n <? 65536)%Z then
    String (byte (224 + n / 4096))
      (String (byte (128 + (n / 64) mod 64)) (String (byte (128 + n mod 64)) k))
  else
    String (byte (240 + n / 262144))
      (String (byte (128 + (n / 4096) mod 64))
         (String (byte (128 + (n / 64) mod 64)) (String (byte (128 + n mod 64)) k))).

Definition is_high (n : Z) : bool := ((55296 <=? n) && (n <=? 56319))%Z.
Definition is_low (n : Z) : bool := ((56320 <=? n) && (n <=? 57343))%Z.

(** The characters of a string literal, after its opening quote. *)
Fixpoint parse_chars (s : string) : option (string * string) :=
  match s with
  | EmptyString => None
  | String c r =>
      if Ascii.eqb c dquote then Some (EmptyString, r)
      else if Ascii.eqb c backslash then
        match r with
        | String "u" (String h1 (String h2 (String h3 (String h4 r')))) =>
            match hex4 h1 h2 h3 h4 with
            | None => None
            | Some hi =>
                let single :=
                  match parse_chars r' with
                  | Some (t, rest) => Some (utf8 hi t, rest)
                  | None => None
                  end in
                match r' with
                | String b (String "u" (String l1 (String l2 (String l3 (String l4 r''))))) =>
                    match hex4 l1 l2 l3 l4 with
                    | Some lo =>
                        if (Ascii.eqb b backslash && is_high hi && is_low lo)%bool then
                          match parse_chars r'' with
                          | Some (t, rest) =>
                              Some (utf8 (65536 + 1024 * (hi - 55296) + (lo - 56320))%Z t, rest)
                          | None => None
                          end
                        else single
                    | None => single
                    end
                | _ => single
                end
            end
        | String e r' =>
            let esc (x : ascii) :=
              match parse_chars r' with
              | Some (t, rest) => Some (String x t, rest)
              | None => None
              end in
            if Ascii.eqb e dquote then esc dquote
            else if Ascii.eqb e backslash then esc backslash
            else if Ascii.eqb e "/" then esc "/"%char
            else if Ascii.eqb e "b" then esc "008"%char
            else if Ascii.eqb e "f" then esc "012"%char
            else if Ascii.eqb e "n" then esc "010"%char
            else if Ascii.eqb e "r" then esc "013"%char
            else if Ascii.eqb e "t" then esc "009"%char
            else None
        | EmptyString => None
        end
      else if (nat_of_ascii c <? 32)%nat then None
      else
        match parse_chars r with
        | Some (t, rest) => Some (String c t, rest)
        | None => None
        end
  end.

Definition literal (lit : string) (v : json) (s : string) : option (json * string) :=
  if String.prefix lit s
  then Some (v, String.substring (String.length lit) (String.length s - String.length lit) s)
  else None.

Fixpoint parse_value (fuel : nat) (s : string) : option (json * string) :=
  match fuel with
  | O => None
  | S fuel =>
      match skip_ws s with
      | EmptyString => None
      | String c r =>
          if Ascii.eqb c "[" then
            match skip_ws r with
            | String "]" rest => Some (JArr [], rest)
            | _ => match parse_elements fuel r with
                   | Some (vs, rest) => Some (JArr vs, rest)
                   | None => None
                   end
            end
          else if Ascii.eqb c "{" then
            match skip_ws r with
            | String "}" rest => Some (JObj [], rest)
            | _ => match parse_members fuel [] r with
                   | Some (kvs, rest) => Some (JObj (own_property_order kvs), rest)
                   | None => None
                   end
            end
          else if Ascii.eqb c dquote then
            match parse_chars r with
            | Some (t, rest) => Some (JStr t, rest)
            | None => None
            end
          else if Ascii.eqb c "t" then literal "true" (JBool true) (String c r)
          else if Ascii.eqb c "f" then literal "false" (JBool false) (String c r)
          else if Ascii.eqb c "n" then literal "null" JNull (String c r)
          else parse_number (String c r)
      end
  end
with parse_elements (fuel : nat) (s : string) : option (list json * string) :=
  match fuel with
  | O => None
  | S fuel =>
      match parse_value fuel s with
      | None => None
      | Some (v, rest) =>
          match skip_ws rest with
          | String "," rest' =>
              match parse_elements fuel rest' with
              | Some (vs, rest'') => Some (v :: vs, rest'')
              | None => None
              end
          | String "]" rest' => Some ([v], rest')
          | _ => None
          end
      end
  end
with parse_members (fuel : nat) (acc : list (string * json)) (s : string)
  : option (list (string * json) * string) :=
  match fuel with
  | O => None
  | S fuel =>
      match skip_ws s with
      | String c r =>
          if Ascii.eqb c dquote then
            match parse_chars r with
            | None => None
            | Some (k, rest) =>
                match skip_ws rest with
                | String ":" rest' =>
                    match parse_value fuel rest' with
                    | None => None
                    | Some (v, rest'') =>
                        let acc' := obj_set k v acc in
                        match skip_ws rest'' with
                        | String "," rest3 => parse_members fuel acc' rest3
                        | String "}" rest3 => Some (acc', rest3)
                        | _ => None
                        end
                    end
                | _ => None
                end
            end
          else None
      | EmptyString => None
      end
  end.

(** [JSON.parse(text)]: one value, surrounded by white space only. *)
Definition parse (text : string) : result json :=
  match parse_value (2 * String.length text + 2) text with
  | Some (v, rest) =>
      match skip_ws rest with
      | EmptyString => inr v
      | String _ _ => inl SyntaxError
      end
  | None => inl SyntaxError
  end.

(** *** The printer *)

Definition hex_digit (n : Z) : ascii :=
  if (n <? 10)%Z then byte (48 + n) else byte (87 + n).

Fixpoint escape (s : string) : string :=
  match s with
  | EmptyString => EmptyString
  | String c r =>
      let n := Z.of_nat (nat_of_ascii c) in
      let esc (x : ascii) := String backslash (String x (escape r)) in
      if Ascii.eqb c dquote then esc dquote
      else if Ascii.eqb c backslash then esc backslash
      else if (n =? 8)%Z then esc "b"%char
      else if (n =? 12)%Z then esc "f"%char
      else if (n =? 10)%Z then esc "n"%char
      else if (n =? 13)%Z then esc "r"%char
      else if (n =? 9)%Z then esc "t"%char
      else if (n <? 32)%Z then
        String backslash
          (String "u" (String "0" (String "0"
             (String (hex_digit (n / 16)) (String (hex_digit (n mod 16)) (escape r))))))
      else String c (escape r)
  end.

Definition quote (s : string) : string :=
  String dquote (escape s ++ String dquote EmptyString).

Definition string_of_Z (z : Z) : string := NilZero.string_of_int (Z.to_int z).

(** Positional notation of [m * 10 ^ e]. *)
Definition string_of_number (m e : Z) : string :=
  match number m e with
  | JNum m' e' =>
      if (0 <=? e')%Z then string_of_Z m'
      else
        let p := (10 ^ (- e'))%Z in
        let a := Z.abs m' in
        let frac := string_of_Z (p + a mod p) in
        ((if (m' <? 0)%Z then "-" else "") ++ string_of_Z (a / p) ++ "."
           ++ String.substring 1 (String.length frac - 1) frac)%string
  | _ => ""
  end.

Definition join (sep : string) (l : list string) : string :=
  match l with
  | [] => EmptyString
  | x :: l' => fold_left (fun acc y => (acc ++ sep ++ y)%string) l' x
  end.

(** [JSON.stringify(v)] *)
Fixpoint stringify (v : json) : string :=
  match v with
  | JNull => "null"
  | JBool true => "true"
  | JBool false => "false"
  | JNum m e => string_of_number m e
  | JStr s => quote s
  | JArr l => ("[" ++ join "," (map stringify l) ++ "]")%string
  | JObj l =>
      ("{" ++ join "," (map (fun kv => (quote (fst kv) ++ ":" ++ stringify (snd kv))%string) l)
         ++ "}")%string
  end.

End JSON.

Import JSON.

(** ** The layout configuration model *)

(** Modelled from the spec: the enumeration [LayoutType]
    (model/layout-type.enum.ts), the three breakpoint variants that key a
    configuration. *)
Inductive LayoutType := Mobile | Tablet | Desktop.

(** Modelled from the spec: the interfaces [LayoutElement], [LayoutList],
    [CustomizableLayout] and [CustomizableLayoutConfig] (model/*.interface.ts).
    The fields are those the component reads and writes; an element keeps
    its other properties as [metadata]. *)
Record LayoutElement := {
  componentName : string;
  metadata : list (string * json)
}.

Record LayoutList := {
  items : list LayoutElement;
  width : string;
  connectedTo : list string;
  containerName : string
}.

Record CustomizableLayout := {
  lists : list LayoutList
}.

Record CustomizableLayoutConfig := {
  name : string;
  version : Z;
  mobile : option CustomizableLayout;
  tablet : option CustomizableLayout;
  desktop : option CustomizableLayout
}.

(** [config[layoutType]]; [None] is [undefined]. *)
Definition variant (c : CustomizableLayoutConfig) (t : LayoutType) : option CustomizableLayout :=
  match t with
  | Mobile => mobile c
  | Tablet => tablet c
  | Desktop => desktop c
  end.

(** [{ ...config, [layoutType]: newVal }] *)
Definition set_variant (c : CustomizableLayoutConfig) (t : LayoutType)
    (v : option CustomizableLayout) : CustomizableLayoutConfig :=
  match t with
  | Mobile => {| name := name c; version := version c;
                 mobile := v; tablet := tablet c; desktop := desktop c |}
  | Tablet => {| name := name c; version := version c;
                 mobile := mobile c; tablet := v; desktop := desktop c |}
  | Desktop => {| name := name c; version := version c;
                  mobile := mobile c; tablet := tablet c; desktop := v |}
  end.

(** *** The configuration as a JSON document *)

(** Modelled from the spec: the values of [LayoutType], which are the
    keys of the variants in a configuration object; the names of the
    variants are taken. *)
Definition LayoutType_key (t : LayoutType) : string :=
  match t with
  | Mobile => "Mobile"
  | Tablet => "Tablet"
  | Desktop => "Desktop"
  end.

Definition integer_of (v : json) : option Z :=
  match v with
  | JNum m e =>
      if (0 <=? e)%Z then Some (m * 10 ^ e)%Z
      else if (m mod 10 ^ (- e) =? 0)%Z then Some (m / 10 ^ (- e))%Z
      else None
  | _ => None
  end.

Definition as_string (v : json) : option string :=
  match v with
  | JStr s => Some s
  | _ => None
  end.

Definition as_array (v : json) : option (list json) :=
  match v with
  | JArr l => Some l
  | _ => None
  end.

Definition as_object (v : json) : option (list (string * json)) :=
  match v with
  | JObj l => Some l
  | _ => None
  end.

Fixpoint traverse {A B} (f : A -> option B) (l : list A) : option (list B) :=
  match l with
  | [] => Some []
  | x :: l' =>
      match f x, traverse f l' with
      | Some y, Some ys => Some (y :: ys)
      | _, _ => None
      end
  end.

Definition element_of_json (v : json) : option LayoutElement :=
  o ← as_object v;
  n ← obj_get "componentName" o ≫= as_string;
  Some {| componentName := n;
          metadata := List.filter (fun kv => negb (String.eqb (fst kv) "componentName")) o |}.

Definition connectedTo_of_json (o : list (string * json)) : option (list string) :=
  match obj_get "connectedTo" o with
  | None => Some []
  | Some c => as_array c ≫= traverse as_string
  end.

Definition list_of_json (v : json) : option LayoutList :=
  o ← as_object v;
  arr ← obj_get "items" o ≫= as_array;
  its ← traverse element_of_json arr;
  w ← obj_get "width" o ≫= as_string;
  conn ← connectedTo_of_json o;
  cn ← obj_get "containerName" o ≫= as_string;
  Some {| items := its; width := w; connectedTo := conn; containerName := cn |}.

Definition layout_of_json (v : json) : option CustomizableLayout :=
  o ← as_object v;
  arr ← obj_get "lists" o ≫= as_array;
  ls ← traverse list_of_json arr;
  Some {| lists := ls |}.

Definition variant_of_json (o : list (string * json)) (t : LayoutType)
  : option (option CustomizableLayout) :=
  match obj_get (LayoutType_key t) o with
  | None | Some JNull => Some None
  | Some v => Some <$> layout_of_json v
  end.

(** Modelled from the spec: the type guard [isCustomizableLayoutConfig]
    (model/customizable-layout-config.interface.ts): a value is a valid
    configuration iff it has a non-empty name, a numeric version and at
    least the Mobile variant populated with lists.  A guard that holds
    lets the caller read the value at type [CustomizableLayoutConfig], so
    the embedding returns that reading; [None] is the guard's [false].
    The version is an integer, as the data model has it. *)
Definition isCustomizableLayoutConfig (v : json) : option CustomizableLayoutConfig :=
  o ← as_object v;
  n ← obj_get "name" o ≫= as_string;
  ver ← obj_get "version" o ≫= integer_of;
  mo ← obj_get (LayoutType_key Mobile) o ≫= layout_of_json;
  ta ← variant_of_json o Tablet;
  de ← variant_of_json o Desktop;
  if String.eqb n "" then None
  else Some {| name := n; version := ver; mobile := Some mo; tablet := ta; desktop := de |}.

Definition json_of_element (e : LayoutElement) : json :=
  JObj (("componentName", JStr (componentName e)) :: metadata e).

Definition json_of_list (l : LayoutList) : json :=
  JObj [("items", JArr (map json_of_element (items l)));
        ("width", JStr (width l));
        ("connectedTo", JArr (map JStr (connectedTo l)));
        ("containerName", JStr (containerName l))].

Definition json_of_layout (l : CustomizableLayout) : json :=
  JObj [("lists", JArr (map json_of_list (lists l)))].

Definition json_of_config (c : CustomizableLayoutConfig) : json :=
  JObj ([("name", JStr (name c)); ("version", JNum (version c) 0)]
          ++ flat_map (fun t => match variant c t with
                                | Some l => [(LayoutType_key t, json_of_layout l)]
                                | None => []
                                end) [Mobile; Tablet; Desktop]).

(** ** Arrays

    The array methods the component calls, on lists; an index is a
    JavaScript number, here an integer, and [-1] is "not found". *)

Definition at_index {A} (l : list A) (i : Z) : option A :=
  if (i <? 0)%Z then None else l !! Z.to_nat i.

Fixpoint findIndex {A} (p : A -> bool) (l : list A) : Z :=
  match l with
  | [] => (-1)%Z
  | x :: l' =>
      if p x then 0%Z
      else let i := findIndex p l' in if (i <? 0)%Z then (-1)%Z else (i + 1)%Z
  end.

Definition indexOf (x : string) (l : list string) : Z := findIndex (String.eqb x) l.

(** [l.splice(start, 0, x)] *)
Definition splice_insert {A} (start : Z) (x : A) (l : list A) : list A :=
  let len := Z.of_nat (length l) in
  let k := if (start <? 0)%Z then Z.max (len + start) 0 else Z.min start len in
  take (Z.to_nat k) l ++ x :: drop (Z.to_nat k) l.

(** [l.splice(start, 1)]: the list that remains. *)
Definition splice_remove {A} (start : Z) (l : list A) : list A :=
  let len := Z.of_nat (length l) in
  let k := if (start <? 0)%Z then Z.max (len + start) 0 else Z.min start len in
  take (Z.to_nat k) l ++ drop (S (Z.to_nat k)) l.

(** *** [@angular/cdk/drag-drop] *)

Module Cdk.

Definition clamp (value max : Z) : Z := Z.max 0 (Z.min max value).

(** [moveItemInArray(array, fromIndex, toIndex)]: the item at [from] is
    taken out and put back at [to], the items between shift by one. *)
Definition moveItemInArray {A} (array : list A) (fromIndex toIndex : Z) : list A :=
  let from := clamp fromIndex (Z.of_nat (length array) - 1) in
  let to := clamp toIndex (Z.of_nat (length array) - 1) in
  if (from =? to)%Z then array
  else
    match at_index array from with
    | Some target => splice_insert to target (splice_remove from array)
    | None => array
    end.

(** [transferArrayItem(currentArray, targetArray, currentIndex, targetIndex)]:
    both arrays after the call. *)
Definition transferArrayItem {A} (currentArray targetArray : list A)
    (currentIndex targetIndex : Z) : list A * list A :=
  let from := clamp currentIndex (Z.of_nat (length currentArray) - 1) in
  let to := clamp targetIndex (Z.of_nat (length targetArray)) in
  match at_index currentArray from with
  | Some x => (splice_remove from currentArray, splice_insert to x targetArray)
  | None => (currentArray, targetArray)
  end.

(** A drop list: its [id], the array bound to it, and the identity of the
    object ([===] compares identities). *)
Record CdkDropList := {
  id : string;
  data : list LayoutElement;
  ref : nat
}.

Record CdkDragDrop := {
  previousContainer : CdkDropList;
  container : CdkDropList;
  previousIndex : Z;
  currentIndex : Z
}.

Definition same_object (a b : CdkDropList) : bool := Nat.eqb (ref a) (ref b).

End Cdk.

(** *** lodash *)

Module Lodash.

Fixpoint obj_push {A} (k : string) (v : A) (g : list (string * list A))
  : list (string * list A) :=
  match g with
  | [] => [(k, [v])]
  | (k', vs) :: g' =>
      if String.eqb k' k then (k', vs ++ [v]) :: g' else (k', vs) :: obj_push k v g'
  end.

(** [_.groupBy(collection, iteratee)]: an object from each key to the
    elements with that key, in their order. *)
Definition groupBy {A} (iteratee : A -> string) (collection : list A)
  : list (string * list A) :=
  own_property_order (fold_left (fun g x => obj_push (iteratee x) x g) collection []).

(** [_.findKey(object, predicate)]: the first own key whose value
    satisfies the predicate. *)
Definition findKey {A} (object : list (string * A)) (predicate : A -> string -> bool)
  : option string :=
  fst <$> List.find (fun kv => predicate (snd kv) (fst kv)) object.

End Lodash.

(** ** Reconciliation of a stored layout with the default layout *)

Abbreviation ok := (@inr exn _).
Abbreviation throw e := (@inl exn _ e).

Definition bind_result {A B} (r : result A) (k : A -> result B) : result B :=
  match r with
  | inl e => inl e
  | inr a => k a
  end.

(** [l.forEach(f)] where [f] updates [s] in place and may throw. *)
Fixpoint forEach {A S} (f : S -> A -> result S) (l : list A) (s : S) : result S :=
  match l with
  | [] => ok s
  | x :: l' => bind_result (f s x) (forEach f l')
  end.

Definition elements (layout : CustomizableLayout) : list LayoutElement :=
  flat_map items (lists layout).

Definition has_name (n : string) (e : LayoutElement) : bool :=
  String.eqb (componentName e) n.

Definition is_container (n : string) (l : LayoutList) : bool :=
  String.eqb (containerName l) n.

Definition with_items (l : LayoutList) (its : list LayoutElement) : LayoutList :=
  {| items := its; width := width l; connectedTo := connectedTo l;
     containerName := containerName l |}.

(** [lists.find(l => l.containerName === n).items.splice(i, 0, e)]: the
    first list with that name gets the element. *)
Fixpoint splice_into (n : string) (i : Z) (e : LayoutElement) (ls : list LayoutList)
  : list LayoutList :=
  match ls with
  | [] => []
  | l :: ls' =>
      if is_container n l then with_items l (splice_insert i e (items l)) :: ls'
      else l :: splice_into n i e ls'
  end.

Definition missingElementNames (storedLayout defaultLayout : CustomizableLayout)
  : list string :=
  let defaultLayoutElements := elements defaultLayout in
  let storedLayoutElements := elements storedLayout in
  List.filter
    (fun elem => bool_decide (indexOf elem (map componentName storedLayoutElements) < 0)%Z)
    (map componentName defaultLayoutElements).

(** The body of the [forEach] over the missing names (lines 116-133). *)
Definition insertMissing (defaultLayoutElementsGrouped : list (string * list LayoutList))
    (storedLayout : CustomizableLayout) (missingComponentName : string)
  : result CustomizableLayout :=
  let found :=
    Lodash.findKey defaultLayoutElementsGrouped (fun lists containerName =>
      match List.find (is_container containerName) lists with
      | Some l => bool_decide (is_Some (List.find (has_name missingComponentName) (items l)))
      | None => false
      end) in
  match found with
  | None =>
      (* [grouped[undefined][0]], or [.items] of a stored list that
         [=== undefined] cannot find *)
      throw TypeError
  | Some containerName =>
      match obj_get containerName defaultLayoutElementsGrouped with
      | Some (l0 :: _) =>
          let defaultElementsInContainer := items l0 in
          let defaultElementIndex :=
            findIndex (has_name missingComponentName) defaultElementsInContainer in
          match at_index defaultElementsInContainer defaultElementIndex with
          | Some element =>
              match List.find (is_container containerName) (lists storedLayout) with
              | None => throw TypeError
              | Some l =>
                  let storedLayoutItems := items l in
                  let defaultElementIndex :=
                    if (Z.of_nat (length storedLayoutItems) <? defaultElementIndex)%Z
                    then 0%Z else defaultElementIndex in
                  ok {| lists := splice_into containerName defaultElementIndex element
                                   (lists storedLayout) |}
              end
          | None => throw TypeError (* not reached, see [findKey_reaches_element] *)
          end
      | _ => throw TypeError (* not reached, see [findKey_reaches_element] *)
      end
  end.

(** [addMissingComponentsToStoredLayout]: the stored configuration is
    updated in place; the result is that object after the call.  (The
    test [missingElementNames.length > 0] guards a loop that does nothing
    on an empty array.) *)
Definition addMissingComponentsToStoredLayout
    (storedLayoutConfig defaultLayoutConfig : CustomizableLayoutConfig)
    (layoutType : LayoutType) : result CustomizableLayoutConfig :=
  match variant storedLayoutConfig layoutType, variant defaultLayoutConfig layoutType with
  | Some storedLayout, Some defaultLayout =>
      let defaultLayoutElementsGrouped := Lodash.groupBy containerName (lists defaultLayout) in
      bind_result
        (forEach (insertMissing defaultLayoutElementsGrouped)
           (missingElementNames storedLayout defaultLayout) storedLayout)
        (fun storedLayout' => ok (set_variant storedLayoutConfig layoutType (Some storedLayout')))
  | _, _ => ok storedLayoutConfig
  end.

(** ** The component

    Its fields, the window it was given ([localStorage], [innerWidth]) and
    the values [createGuid] is going to return. *)

Record Component := {
  defaultLayout : CustomizableLayoutConfig;
  desktopBreakpoint : Z;
  tabletBreakpoint : Z;
  mobileBreakpoint : Z;
  _layoutState : option CustomizableLayoutConfig;
  _layoutType : LayoutType;
  localStorage : gmap string string;
  innerWidth : Z;
  guids : nat -> string;
  guidCount : nat
}.

(** A method runs on the component, changes it in place and returns or
    throws; what was changed before a throw stays changed. *)
Definition M (A : Type) : Type := Component -> result A * Component.

Definition ret {A} (a : A) : M A := fun c => (ok a, c).

Definition raise {A} (e : exn) : M A := fun c => (throw e, c).

Definition bind {A B} (m : M A) (k : A -> M B) : M B := fun c =>
  match m c with
  | (inr a, c') => k a c'
  | (inl e, c') => (inl e, c')
  end.

Declare Scope method_scope.
Delimit Scope method_scope with method.
Notation "'let*' x := m 'in' k" := (bind m (fun x => k))
  (at level 10, x name, m at level 100, k at level 200) : method_scope.
Notation "m ;; k" := (bind m (fun _ => k))
  (at level 100, k at level 200, right associativity) : method_scope.
Local Open Scope method_scope.

Definition lift {A} (r : result A) : M A := fun c => (r, c).

Definition read {A} (f : Component -> A) : M A := fun c => (ok (f c), c).

Definition defined {A} (o : option A) : M A :=
  match o with
  | Some a => ret a
  | None => raise TypeError
  end.

Fixpoint mapM {A B} (f : A -> M B) (l : list A) : M (list B) :=
  match l with
  | [] => ret []
  | x :: l' => let* y := f x in let* ys := mapM f l' in ret (y :: ys)
  end.

Definition set_layoutState (v : option CustomizableLayoutConfig) (c : Component) : Component :=
  {| defaultLayout := defaultLayout c; desktopBreakpoint := desktopBreakpoint c;
     tabletBreakpoint := tabletBreakpoint c; mobileBreakpoint := mobileBreakpoint c;
     _layoutState := v; _layoutType := _layoutType c;
     localStorage := localStorage c; innerWidth := innerWidth c;
     guids := guids c; guidCount := guidCount c |}.

Definition set_layoutType (t : LayoutType) (c : Component) : Component :=
  {| defaultLayout := defaultLayout c; desktopBreakpoint := desktopBreakpoint c;
     tabletBreakpoint := tabletBreakpoint c; mobileBreakpoint := mobileBreakpoint c;
     _layoutState := _layoutState c; _layoutType := t;
     localStorage := localStorage c; innerWidth := innerWidth c;
     guids := guids c; guidCount := guidCount c |}.

Definition set_localStorage (s : gmap string string) (c : Component) : Component :=
  {| defaultLayout := defaultLayout c; desktopBreakpoint := desktopBreakpoint c;
     tabletBreakpoint := tabletBreakpoint c; mobileBreakpoint := mobileBreakpoint c;
     _layoutState := _layoutState c; _layoutType := _layoutType c;
     localStorage := s; innerWidth := innerWidth c;
     guids := guids c; guidCount := guidCount c |}.

Definition set_guidCount (n : nat) (c : Component) : Component :=
  {| defaultLayout := defaultLayout c; desktopBreakpoint := desktopBreakpoint c;
     tabletBreakpoint := tabletBreakpoint c; mobileBreakpoint := mobileBreakpoint c;
     _layoutState := _layoutState c; _layoutType := _layoutType c;
     localStorage := localStorage c; innerWidth := innerWidth c;
     guids := guids c; guidCount := n |}.

(** [createGuid()] (shared/functions/create-guid.fn is outside the
    component): the next of the values the component was set up with. *)
Definition createGuid : M string := fun c =>
  (ok (guids c (guidCount c)), set_guidCount (S (guidCount c)) c).

(** [createCopy(obj)] is [JSON.parse(JSON.stringify(obj))]: a fresh object
    with the content of [obj].  Values here have no identity, so the copy
    of a value is the value. *)
Definition createCopy {A} (obj : A) : A := obj.

(** [this._layoutState.next(v)] *)
Definition next (v : CustomizableLayoutConfig) : M unit := fun c =>
  (ok tt, set_layoutState (Some v) c).

(** The getter [currentLayout]; [None] is [undefined]. *)
Definition currentLayout : M (option CustomizableLayout) := fun c =>
  match _layoutState c with
  | None => (throw TypeError, c)
  | Some config => (ok (variant config (_layoutType c)), c)
  end.

(** [{ ...this._layoutState.getValue() }]: spreading [null] gives an object
    without [name] or [version]; as a storage key its name reads
    [undefined]. *)
Definition spread (v : option CustomizableLayoutConfig) : CustomizableLayoutConfig :=
  match v with
  | Some config => config
  | None => {| name := "undefined"; version := 0;
               mobile := None; tablet := None; desktop := None |}
  end.

(** The setter [currentLayout].  A layout object without [lists] (what
    [getConnectedLists(undefined)] returns) is kept as [None]: [.lists] of
    either is [undefined] or throws. *)
Definition set_currentLayout (newVal : option CustomizableLayout) : M unit := fun c =>
  let updatedLayout := set_variant (spread (_layoutState c)) (_layoutType c) newVal in
  (ok tt,
   set_localStorage
     (<[name updatedLayout := stringify (json_of_config updatedLayout)]> (localStorage c))
     (set_layoutState (Some updatedLayout) c)).

(** [this.currentLayout.lists] *)
Definition currentLists : M (list LayoutList) :=
  let* layout := currentLayout in
  let* layout := defined layout in
  ret (lists layout).

(** An assignment through a reference into the current layout: the
    object held by [_layoutState] changes, nothing is emitted or stored. *)
Definition mutateLists (f : list LayoutList -> list LayoutList) : M unit := fun c =>
  match _layoutState c with
  | Some config =>
      match variant config (_layoutType c) with
      | Some layout =>
          let layout' := {| lists := f (lists layout) |} in
          (ok tt, set_layoutState (Some (set_variant config (_layoutType c) (Some layout'))) c)
      | None => (throw TypeError, c)
      end
  | None => (throw TypeError, c)
  end.

Definition with_connectedTo (l : LayoutList) (conn : list string) : LayoutList :=
  {| items := items l; width := width l; connectedTo := conn;
     containerName := containerName l |}.

Definition getConnectedToString (self : string) : M (list string) :=
  let* ls := currentLists in
  ret (List.filter (fun cn => negb (String.eqb cn self)) (map containerName ls)).

Definition getConnectedLists (layout : option CustomizableLayout)
  : M (option CustomizableLayout) :=
  match layout with
  | None => ret None
  | Some layout =>
      let* ls := mapM (fun l =>
                         let* conn := getConnectedToString (containerName l) in
                         ret (with_connectedTo l conn)) (lists layout) in
      ret (Some {| lists := ls |})
  end.

Definition updateLayout : M unit :=
  let* layout := currentLayout in
  let* layout := getConnectedLists layout in
  set_currentLayout layout.

Definition emptyList (guid : string) : LayoutList :=
  {| items := []; width := "1fr"; connectedTo := []; containerName := guid |}.

Definition getEmptyList : M LayoutList :=
  let* guid := createGuid in
  ret (emptyList guid).

Definition currentColumns : M string :=
  let* ls := currentLists in
  ret (fold_left (fun cur prev => (cur ++ " " ++ prev)%string) (map width ls) ""%string).

(** *** Initialization *)

(** [JSON.parse(x)] of what [getItem] returned: [null] reads as the text
    [null]. *)
Definition JSON_parse (x : option string) : result json :=
  JSON.parse (default "null"%string x).

Definition initializeState : M unit :=
  let* default := read defaultLayout in
  let* store := read localStorage in
  let* storedLayout := lift (JSON_parse (store !! name default)) in
  match isCustomizableLayoutConfig storedLayout with
  | Some storedLayout =>
      if (version default <=? version storedLayout)%Z then
        let* storedLayout :=
          lift (addMissingComponentsToStoredLayout storedLayout default Mobile) in
        let* storedLayout :=
          lift (addMissingComponentsToStoredLayout storedLayout default Tablet) in
        let* storedLayout :=
          lift (addMissingComponentsToStoredLayout storedLayout default Desktop) in
        next storedLayout
      else next (createCopy default)
  | None => next (createCopy default)
  end.

(** *** The breakpoint selector (the [map] of [layoutType$]) *)

Definition layoutTypeOf (tabletBreakpoint width : Z) : LayoutType :=
  if (width <=? tabletBreakpoint)%Z then Mobile else Tablet.

Definition dragDelay (layout : LayoutType) : Z :=
  match layout with
  | Mobile => 150
  | _ => 0
  end.

(** A [resize] event; [e.target?.innerWidth] may be [undefined], which no
    [<=] holds of. *)
Definition resize (width : option Z) : M unit := fun c =>
  (ok tt,
   set_layoutType (match width with
                   | Some w => layoutTypeOf (tabletBreakpoint c) w
                   | None => Tablet
                   end) c).

Definition ngOnInit : M unit :=
  initializeState ;;
  let* w := read innerWidth in
  resize (Some w).

(** *** The mutators *)

(** [layout.lists[index].items = [...data]] *)
Definition assignItems (index : Z) (data : list LayoutElement) : M unit :=
  let* ls := currentLists in
  let* l := defined (at_index ls index) in
  mutateLists (fun ls => <[Z.to_nat index := with_items l data]> ls).

(** The arrays of the event are taken by value.  On the page they are
    the [items] arrays of the emitted lists, which the state shares:
    [moveItemInArray] and [transferArrayItem] change them in place and the
    assignments that follow write the same content back as copies. *)
Definition drop (event : Cdk.CdkDragDrop) : M unit :=
  let* layout := currentLayout in
  if Cdk.same_object (Cdk.previousContainer event) (Cdk.container event) then
    let data :=
      Cdk.moveItemInArray (Cdk.data (Cdk.container event))
        (Cdk.previousIndex event) (Cdk.currentIndex event) in
    let* ls := currentLists in
    let index := indexOf (Cdk.id (Cdk.container event)) (map containerName ls) in
    assignItems index data ;;
    let* layout := currentLayout in
    set_currentLayout layout
  else
    let transferred :=
      Cdk.transferArrayItem (Cdk.data (Cdk.previousContainer event))
        (Cdk.data (Cdk.container event))
        (Cdk.previousIndex event) (Cdk.currentIndex event) in
    let* ls := currentLists in
    let prevListIndex := indexOf (Cdk.id (Cdk.previousContainer event)) (map containerName ls) in
    let currListIndex := indexOf (Cdk.id (Cdk.container event)) (map containerName ls) in
    assignItems prevListIndex (fst transferred) ;;
    assignItems currListIndex (snd transferred) ;;
    let* layout := currentLayout in
    set_currentLayout layout.

Definition addColumnRightPressed : M unit :=
  let* ls := currentLists in
  let* empty := getEmptyList in
  set_currentLayout (Some {| lists := ls ++ [empty] |}) ;;
  updateLayout.

Definition addColumnLeftPressed : M unit :=
  let* layout := currentLayout in
  let* empty := getEmptyList in
  let* ls := currentLists in
  set_currentLayout (Some {| lists := empty :: ls |}) ;;
  updateLayout.

Definition removeColumnLeftPressed : M unit :=
  let* ls := currentLists in
  (* [lists[0].items]: [.items] of [undefined] throws *)
  let* first := defined (at_index ls 0) in
  let spillOver := items first in
  let* ls := currentLists in
  let lists := List.skipn 1 ls in
  let* l := defined (at_index lists 0) in
  (* [push] changes the list object that the slice and the state share *)
  mutateLists (fun ls => <[1%nat := with_items l (items l ++ spillOver)]> ls) ;;
  let* ls := currentLists in
  set_currentLayout (Some {| lists := List.skipn 1 ls |}) ;;
  updateLayout.

Definition removeColumnRightPressed : M unit :=
  let* ls := currentLists in
  let* last := defined (at_index ls (Z.of_nat (length ls) - 1)) in
  let spillOver := items last in
  (* [lists.pop()] shortens the array held by the state *)
  mutateLists (fun ls => take (length ls - 1) ls) ;;
  let* ls := currentLists in
  let* l := defined (at_index ls (Z.of_nat (length ls) - 1)) in
  mutateLists (fun ls => <[(length ls - 1)%nat := with_items l (items l ++ spillOver)]> ls) ;;
  let* ls := currentLists in
  set_currentLayout (Some {| lists := ls |}) ;;
  updateLayout.

Definition resetPressed : M unit :=
  let* default := read defaultLayout in
  let* type := read _layoutType in
  let* layout := getConnectedLists (variant default type) in
  set_currentLayout (createCopy layout).

(** [cardTrackBy] and [listTrackBy]: the keys by which the template tells
    cards and lists apart. *)
Definition cardTrackBy (index : Z) (name : LayoutElement) : string := componentName name.

Definition listTrackBy (index : Z) (list : LayoutList) : string := containerName list.

(** What [layout$] hands to the template and to [layoutChanged] (lines
    71-75). *)
Definition emittedLayout : M (option CustomizableLayout) :=
  let* layout := currentLayout in
  getConnectedLists layout.

(** The current layout of a component, when it has one. *)
Definition activeLayout (c : Component) : option CustomizableLayout :=
  config ← _layoutState c; variant config (_layoutType c).

(** * Vocabulary of the properties *)

(** The elements of a collection with a given key, when there are any:
    what [_.groupBy] holds under that key. *)
Definition with_key {A} (key : A -> string) (k : string) (x : A) : bool :=
  String.eqb (key x) k.

Definition group_of {A} (key : A -> string) (k : string) (l : list A) : option (list A) :=
  match List.filter (with_key key k) l with
  | [] => None
  | g => Some g
  end.

Definition componentNames (layout : CustomizableLayout) : list string :=
  map componentName (elements layout).

Definition containerNames (layout : CustomizableLayout) : list string :=
  map containerName (lists layout).

(** Every component name of the layout is in exactly one list, once. *)
Definition no_duplication (layout : CustomizableLayout) : Prop :=
  NoDup (componentNames layout).

#[global] Instance no_duplication_dec (layout : CustomizableLayout)
  : Decision (no_duplication layout) :=
  NoDup_dec (componentNames layout).

(** [connectedTo] completeness: the names a list is connected to are the
    container names of the layout other than its own. *)
Definition connected (layout : CustomizableLayout) : Prop :=
  forall L, In L (lists layout) ->
    forall cn, In cn (connectedTo L) <-> In cn (containerNames layout) /\ cn <> containerName L.

Definition mem (x : string) (l : list string) : bool := existsb (String.eqb x) l.

Definition is_connected (layout : CustomizableLayout) : bool :=
  forallb (fun L =>
             forallb (fun cn => mem cn (containerNames layout)
                                && negb (String.eqb cn (containerName L)))
                     (connectedTo L)
             && forallb (fun cn => String.eqb cn (containerName L) || mem cn (connectedTo L))
                        (containerNames layout))
          (lists layout).

(** No element of [its] has the name [n]; no list of [ls] has the
    container name [c]; no list of [ls] holds a component named [n]. *)
Definition not_named (n : string) (its : list LayoutElement) : bool :=
  forallb (fun x => negb (has_name n x)) its.

Definition no_container (c : string) (ls : list LayoutList) : bool :=
  forallb (fun L => negb (is_container c L)) ls.

Definition not_in_lists (n : string) (ls : list LayoutList) : bool :=
  forallb (fun L => not_named n (items L)) ls.

(** The origin of a component name in a default layout: the first list
    with its container name, and in it the first element with that name,
    at index [i]. *)
Definition origin (dl : CustomizableLayout) (n : string)
    (L0 : LayoutList) (i : nat) (e : LayoutElement) : Prop :=
  exists dpre dpost ipre ipost,
    lists dl = dpre ++ L0 :: dpost
    /\ no_container (containerName L0) dpre = true
    /\ items L0 = ipre ++ e :: ipost
    /\ not_named n ipre = true
    /\ componentName e = n
    /\ i = length ipre.

(** The placement the description gives: at index [i], or in front when
    [i] exceeds the number of items. *)
Definition placed (i : nat) (e : LayoutElement) (its : list LayoutElement)
  : list LayoutElement :=
  if (length its <? i)%nat then e :: its else take i its ++ e :: skipn i its.

(** The lists [ls'] are the lists [ls] after each of [names], in turn,
    was placed, with its origin element and index, in the first list that
    has the container name of its origin list. *)
Inductive inserted (dl : CustomizableLayout)
  : list string -> list LayoutList -> list LayoutList -> Prop :=
| inserted_nil ls : inserted dl [] ls ls
| inserted_cons n names L0 i e spre l spost ls' :
    origin dl n L0 i e ->
    no_container (containerName L0) spre = true ->
    is_container (containerName L0) l = true ->
    inserted dl names (spre ++ with_items l (placed i e (items l)) :: spost) ls' ->
    inserted dl (n :: names) (spre ++ l :: spost) ls'.

(** The three calls of [initializeState] (lines 92-94). *)
Definition reconcile (storedLayout defaultLayout : CustomizableLayoutConfig)
  : result CustomizableLayoutConfig :=
  bind_result (addMissingComponentsToStoredLayout storedLayout defaultLayout Mobile) (fun s =>
  bind_result (addMissingComponentsToStoredLayout s defaultLayout Tablet) (fun s =>
  addMissingComponentsToStoredLayout s defaultLayout Desktop)).

(** The predicate that [_.findKey] is given for a missing name. *)
Definition holds_missing (missingComponentName : string)
    (lists : list LayoutList) (containerName : string) : bool :=
  match List.find (is_container containerName) lists with
  | Some l => bool_decide (is_Some (List.find (has_name missingComponentName) (items l)))
  | None => false
  end.

(** A variant in which no default component is missing, or which has no
    counterpart: reconciliation has nothing to do for it. *)
Definition settled (stored default : CustomizableLayoutConfig) (t : LayoutType) : Prop :=
  match variant stored t, variant default t with
  | Some sl, Some dl => missingElementNames sl dl = []
  | _, _ => True
  end.

(** The component after [_layoutState.next(config)]. *)
Definition adopted (config : CustomizableLayoutConfig) (c : Component) : Component :=
  set_layoutState (Some config) c.

(** What [getConnectedLists] makes of a layout when the current layout
    has the container names [names]. *)
Definition connect (names : list string) (layout : CustomizableLayout) : CustomizableLayout :=
  {| lists :=
       map (fun l =>
              with_connectedTo l
                (List.filter (fun cn => negb (String.eqb cn (containerName l))) names))
           (lists layout) |}.

Definition reconnect (layout : CustomizableLayout) : CustomizableLayout :=
  connect (containerNames layout) layout.

(** A method returns from [c], and its value and the component it leaves
    satisfy [Q]. *)
Definition returns {A} (m : M A) (c : Component) (Q : A -> Component -> Prop) : Prop :=
  exists a c', m c = (ok a, c') /\ Q a c'.

(** A method throws [e] from [c], and the component it leaves satisfies [Q]. *)
Definition throws {A} (m : M A) (c : Component) (e : exn) (Q : Component -> Prop) : Prop :=
  exists c', m c = (throw e, c') /\ Q c'.

(** The text the claim describes for the grid tracks: the widths joined
    by single spaces. *)
Definition joined_widths (layout : CustomizableLayout) : string :=
  String.concat " " (map width (lists layout)).

(** The mutators, as the operations of the layout. *)
Inductive Op :=
| Drop (event : Cdk.CdkDragDrop)
| AddColumnLeft
| AddColumnRight
| RemoveColumnLeft
| RemoveColumnRight
| Reset.

Definition perform (op : Op) : M unit :=
  match op with
  | Drop event => drop event
  | AddColumnLeft => addColumnLeftPressed
  | AddColumnRight => addColumnRightPressed
  | RemoveColumnLeft => removeColumnLeftPressed
  | RemoveColumnRight => removeColumnRightPressed
  | Reset => resetPressed
  end.

(** The drop list [d] is the list [L] at index [i] of the layout: its id
    finds that index and its data are the items of [L]. *)
Definition bound (layout : CustomizableLayout) (d : Cdk.CdkDropList)
    (i : nat) (L : LayoutList) : Prop :=
  indexOf (Cdk.id d) (containerNames layout) = Z.of_nat i
  /\ lists layout !! i = Some L
  /\ Cdk.data d = items L.

(** The operation is one the claims speak of: a move within a list of
    the layout, a transfer between two of its lists, a column added, a
    column removed while two are left, a reset to a default variant that
    exists. *)
Definition applicable (c : Component) (layout : CustomizableLayout) (op : Op) : Prop :=
  match op with
  | Drop event =>
      if Cdk.same_object (Cdk.previousContainer event) (Cdk.container event)
      then exists i L, bound layout (Cdk.container event) i L
      else exists i Li j Lj,
          bound layout (Cdk.previousContainer event) i Li
          /\ bound layout (Cdk.container event) j Lj /\ i <> j
  | AddColumnLeft | AddColumnRight => True
  | RemoveColumnLeft | RemoveColumnRight => (2 <= length (lists layout))%nat
  | Reset => exists dl, variant (defaultLayout c) (_layoutType c) = Some dl
  end.

Definition column_change (op : Op) : bool :=
  match op with
  | AddColumnLeft | AddColumnRight | RemoveColumnLeft | RemoveColumnRight => true
  | Drop _ | Reset => false
  end.

(** What a method leaves alone: the inputs of the component, the selected
    variant, and, of a working configuration, its name, its version, the
    layouts of the variants that are not selected and every storage key
    but its own. *)
Definition frame (c c' : Component) : Prop :=
  defaultLayout c' = defaultLayout c
  /\ _layoutType c' = _layoutType c
  /\ tabletBreakpoint c' = tabletBreakpoint c
  /\ innerWidth c' = innerWidth c
  /\ match _layoutState c with
     | None => True
     | Some config =>
         exists config',
           _layoutState c' = Some config'
           /\ name config' = name config
           /\ version config' = version config
           /\ (forall t, t <> _layoutType c -> variant config' t = variant config t)
           /\ (forall k : string, k <> name config -> localStorage c' !! k = localStorage c !! k)
     end.

(** The storage holds the text of the working configuration under its
    name. *)
Definition stored_state (c : Component) : Prop :=
  exists config,
    _layoutState c = Some config
    /\ localStorage c !! name config = Some (stringify (json_of_config config)).

(** A method that leaves all that alone, whether it returns or throws. *)
Definition framed {A} (m : M A) : Prop := forall c r c', m c = (r, c') -> frame c c'.

(** A method that writes nothing to the storage and throws nothing but a
    TypeError. *)
Definition silent {A} (m : M A) : Prop :=
  forall c r c', m c = (r, c') ->
    localStorage c' = localStorage c /\ forall e, r = throw e -> e = TypeError.

(** A method that has written nothing to the storage when it throws, and
    throws nothing but a TypeError. *)
Definition careful {A} (m : M A) : Prop :=
  forall c e c', m c = (throw e, c') -> e = TypeError /\ localStorage c' = localStorage c.

(** A method that, when it returns, has stored the working configuration. *)
Definition stores {A} (m : M A) : Prop :=
  forall c a c', m c = (ok a, c') -> stored_state c'.

(** The lists of [ls'] are those of [ls], in their order, each with its
    container name, width and connections, and with its items in their
    order among the items it has now. *)
(** A method that returns on a component with a layout leaves a component
    with a layout. *)
Definition defines {A} (m : M A) : Prop :=
  forall c a c',
    m c = (ok a, c') -> (exists l, activeLayout c = Some l) -> exists l', activeLayout c' = Some l'.

Definition same_arrangement (ls ls' : list LayoutList) : Prop :=
  Forall2 (fun L L' =>
             containerName L' = containerName L /\ width L' = width L
             /\ connectedTo L' = connectedTo L /\ sublist (items L) (items L'))
          ls ls'.

(** ** Sample layouts *)

Module Sample.

Definition element (n : string) : LayoutElement :=
  {| componentName := n; metadata := [] |}.

Definition column (cn : string) (names : list string) : LayoutList :=
  {| items := map element names; width := "1fr"; connectedTo := [];
     containerName := cn |}.

Definition layout (columns : list LayoutList) : CustomizableLayout :=
  {| lists := columns |}.

Definition config (v : Z) (columns : list LayoutList) : CustomizableLayoutConfig :=
  {| name := "dashboard"; version := v; mobile := Some (layout columns);
     tablet := None; desktop := None |}.

(** A component before [ngOnInit], in a window 500 wide. *)
Definition component (default : CustomizableLayoutConfig) (store : gmap string string)
  : Component :=
  {| defaultLayout := default; desktopBreakpoint := 1024; tabletBreakpoint := 990;
     mobileBreakpoint := 420; _layoutState := None; _layoutType := Mobile;
     localStorage := store; innerWidth := 500;
     guids := fun n => ("column-" ++ string_of_Z (Z.of_nat n))%string; guidCount := 0 |}.

(** The text [localStorage] holds for a configuration. *)
Definition stored (c : CustomizableLayoutConfig) : gmap string string :=
  {[ name c := stringify (json_of_config c) ]}.

(** A default configuration with a Mobile and a Tablet layout, and a
    component that works on it, in a window 500 wide, with another key in
    the storage. *)
Definition two_variants : CustomizableLayoutConfig :=
  {| name := "dashboard"; version := 1;
     mobile := Some (layout [column "A" ["x"; "y"]]);
     tablet := Some (layout [column "A" ["x"]; column "B" ["y"]]);
     desktop := None |}.

Definition working : Component :=
  snd (ngOnInit (component two_variants {[ "other" := "kept" ]})).

(** A component in a window 1200 wide. *)
Definition wide (default : CustomizableLayoutConfig) (store : gmap string string)
  : Component :=
  {| defaultLayout := default; desktopBreakpoint := 1024; tabletBreakpoint := 990;
     mobileBreakpoint := 420; _layoutState := None; _layoutType := Mobile;
     localStorage := store; innerWidth := 1200;
     guids := fun n => ("column-" ++ string_of_Z (Z.of_nat n))%string; guidCount := 0 |}.

(** A component that works on two columns, and drop events on them. *)
Definition board : Component :=
  snd (ngOnInit (component (config 1 [column "A" ["r"; "s"]; column "B" ["p"; "q"]]) ∅)).

Definition list_A : Cdk.CdkDropList :=
  {| Cdk.id := "A"; Cdk.data := map element ["r"; "s"]; Cdk.ref := 0 |}.

Definition list_B : Cdk.CdkDropList :=
  {| Cdk.id := "B"; Cdk.data := map element ["p"; "q"]; Cdk.ref := 1 |}.

Definition dropped (previous current : Cdk.CdkDropList) (previousIndex currentIndex : Z)
  : Cdk.CdkDragDrop :=
  {| Cdk.previousContainer := previous; Cdk.container := current;
     Cdk.previousIndex := previousIndex; Cdk.currentIndex := currentIndex |}.

End Sample.

(** * Properties *)

(** ** The scenarios of the description, run on the embedding *)

Example parse_malformed : JSON.parse "{" = throw SyntaxError.
Proof. reflexivity. Qed.

Example parse_null : JSON_parse None = ok JNull.
Proof. reflexivity. Qed.

Example parse_deep :
  JSON.parse "[[[[[[[[1,2,3,4,5,6,7,8],[]]]]]]]]"
  = ok (JArr [JArr [JArr [JArr [JArr [JArr [JArr
          [JArr [JNum 1 0; JNum 2 0; JNum 3 0; JNum 4 0; JNum 5 0; JNum 6 0; JNum 7 0;
                 JNum 8 0];
           JArr []]]]]]]]).
Proof. reflexivity. Qed.

Example parse_trailing : JSON.parse "[1,]" = throw SyntaxError /\ JSON.parse "01" = throw SyntaxError.
Proof. split; reflexivity. Qed.

Example parse_nested :
  let q (s : string) := String dquote (s ++ String dquote "") in
  JSON.parse (" { " ++ q "b" ++ " : [1, 2.50e1, [[-0]], true, null ], "
                ++ q "2" ++ ": {}, " ++ q "b" ++ ": " ++ q "\u0041" ++ " } ")
  = ok (JObj [("2", JObj []); ("b", JStr "A")])
  /\ JSON.parse "[2.50e1, 1.250, 12e2, -0.5]"
     = ok (JArr [JNum 25 0; JNum 125 (-2); JNum 1200 0; JNum (-5) (-1)])
  /\ stringify (JArr [JNum 25 0; JNum 125 (-2); JNum 1200 0; JNum (-5) (-1)])
     = "[25,1.25,1200,-0.5]"%string.
Proof. repeat split. Qed.

(** The stored text of a configuration reads back as that configuration:
    the copy that [createCopy] makes is equal to the original. *)
Example stored_text_reads_back :
  let config := Sample.config 3 [Sample.column "A" ["x"; "y"]; Sample.column "B" []] in
  bind_result (JSON.parse (stringify (json_of_config config)))
    (fun v => ok (isCustomizableLayoutConfig v))
  = ok (Some (createCopy config)).
Proof. reflexivity. Qed.

(** Scenario A: no stored configuration. *)
Example scenario_A :
  let default := Sample.config 1 [Sample.column "A" ["x"]] in
  let c := snd (ngOnInit (Sample.component default ∅)) in
  _layoutState c = Some default
  /\ fst (emittedLayout c) = ok (Some (Sample.layout [Sample.column "A" ["x"]])).
Proof. split; reflexivity. Qed.

(** Scenario B: "y" is new in the default list "A", after "x". *)
Example scenario_B :
  reconcile (Sample.config 1 [Sample.column "A" ["x"]])
            (Sample.config 1 [Sample.column "A" ["x"; "y"]])
  = ok (Sample.config 1 [Sample.column "A" ["x"; "y"]]).
Proof. reflexivity. Qed.

(** Scenario C: the default index of "y" is 5, its stored list has one
    item. *)
Example scenario_C :
  addMissingComponentsToStoredLayout
    (Sample.config 1 [Sample.column "B" ["a"; "b"; "c"; "d"; "e"]; Sample.column "A" ["x"]])
    (Sample.config 1 [Sample.column "A" ["a"; "b"; "c"; "d"; "e"; "y"]; Sample.column "B" []])
    Mobile
  = ok (Sample.config 1 [Sample.column "B" ["a"; "b"; "c"; "d"; "e"];
                         Sample.column "A" ["y"; "x"]]).
Proof. reflexivity. Qed.

(** Scenario D: the item at index 0 of "A" is dragged to index 1 of "B". *)
Example scenario_D :
  let default := Sample.config 1 [Sample.column "A" ["a1"; "a2"]; Sample.column "B" ["b1"]] in
  let c := snd (ngOnInit (Sample.component default ∅)) in
  let event :=
    {| Cdk.previousContainer :=
         {| Cdk.id := "A"; Cdk.data := map Sample.element ["a1"; "a2"]; Cdk.ref := 0 |};
       Cdk.container :=
         {| Cdk.id := "B"; Cdk.data := map Sample.element ["b1"]; Cdk.ref := 1 |};
       Cdk.previousIndex := 0; Cdk.currentIndex := 1 |} in
  activeLayout (snd (drop event c))
  = Some (Sample.layout [Sample.column "A" ["a2"]; Sample.column "B" ["b1"; "a1"]]).
Proof. reflexivity. Qed.

(** Scenario E: the right column ["p"; "q"] is removed, ["r"] is left. *)
Example scenario_E :
  let default := Sample.config 1 [Sample.column "A" ["r"]; Sample.column "B" ["p"; "q"]] in
  let c := snd (ngOnInit (Sample.component default ∅)) in
  activeLayout (snd (removeColumnRightPressed c))
  = Some (Sample.layout [Sample.column "A" ["r"; "p"; "q"]]).
Proof. reflexivity. Qed.

(** Every change of the current layout is written to the storage. *)
Example drop_is_stored :
  let default := Sample.config 1 [Sample.column "A" ["r"]; Sample.column "B" ["p"; "q"]] in
  let c := snd (removeColumnRightPressed (snd (ngOnInit (Sample.component default ∅)))) in
  localStorage c = Sample.stored (Sample.config 1 [Sample.column "A" ["r"; "p"; "q"]]).
Proof. reflexivity. Qed.

(** ** Objects and groups *)

Section Objects.
Context {A : Type}.
Implicit Types (l : list (string * A)) (k : string).

Lemma obj_get_app k l1 l2 :
  obj_get k (l1 ++ l2) = match obj_get k l1 with
                         | Some v => Some v
                         | None => obj_get k l2
                         end.
Proof.
  induction l1 as [|[k' v] l1 IH]; simpl; [reflexivity|].
  destruct (String.eqb k' k); auto.
Qed.

Lemma obj_get_In k v l : obj_get k l = Some v -> In (k, v) l.
Proof.
  induction l as [|[k' v'] l IH]; simpl; [discriminate|].
  destruct (String.eqb_spec k' k) as [->|]; [intros [= ->]; auto | auto].
Qed.

Lemma obj_get_None k l : k ∉ map fst l -> obj_get k l = None.
Proof.
  induction l as [|[k' v'] l IH]; simpl; [reflexivity|].
  rewrite not_elem_of_cons. intros [Hne H].
  destruct (String.eqb_spec k' k) as [->|]; [contradiction | apply IH, H].
Qed.

Lemma obj_get_filter (q : string -> bool) k l :
  obj_get k (List.filter (fun kv => q (fst kv)) l) = if q k then obj_get k l else None.
Proof.
  induction l as [|[k' v'] l IH]; simpl; [destruct (q k); reflexivity|].
  destruct (String.eqb_spec k' k) as [->|Hne].
  - destruct (q k) eqn:Hq; simpl.
    + rewrite String.eqb_refl. reflexivity.
    + exact IH.
  - destruct (q k'); simpl; rewrite ?IH; [|reflexivity].
    destruct (String.eqb_spec k' k); [contradiction | reflexivity].
Qed.

Lemma obj_get_insert_index_ne k n k' v (E : list (Z * (string * A))) :
  k' <> k -> obj_get k (map snd (insert_index n k' v E)) = obj_get k (map snd E).
Proof.
  intros Hne. induction E as [|[n' [k'' v'']] E IH]; simpl.
  - destruct (String.eqb_spec k' k); [contradiction | reflexivity].
  - destruct (n <? n')%Z; simpl.
    + destruct (String.eqb_spec k' k); [contradiction | reflexivity].
    + rewrite IH. reflexivity.
Qed.

Lemma obj_get_insert_index_eq k n v (E : list (Z * (string * A))) :
  obj_get k (map snd E) = None -> obj_get k (map snd (insert_index n k v E)) = Some v.
Proof.
  induction E as [|[n' [k'' v'']] E IH]; simpl; intros H.
  - rewrite String.eqb_refl. reflexivity.
  - destruct (n <? n')%Z; simpl.
    + rewrite String.eqb_refl. reflexivity.
    + destruct (String.eqb k'' k); [discriminate | auto].
Qed.

Lemma obj_get_index_entries k l :
  NoDup (map fst l) ->
  obj_get k (map snd (index_entries l))
  = if array_index k is Some _ then obj_get k l else None.
Proof.
  induction l as [|[k' v'] l IH]; simpl; intros Hnd.
  - destruct (array_index k); reflexivity.
  - inversion Hnd as [|? ? Hnotin Hnd']; subst.
    specialize (IH Hnd').
    destruct (String.eqb_spec k' k) as [->|Hne].
    + destruct (array_index k) eqn:Hk.
      * apply obj_get_insert_index_eq. rewrite IH. apply obj_get_None, Hnotin.
      * exact IH.
    + destruct (array_index k') eqn:Hk'; [|exact IH].
      rewrite obj_get_insert_index_ne by assumption. exact IH.
Qed.

Lemma obj_get_own_property_order k l :
  NoDup (map fst l) -> obj_get k (own_property_order l) = obj_get k l.
Proof.
  intros Hnd. unfold own_property_order.
  rewrite obj_get_app, obj_get_index_entries by assumption.
  pose proof (obj_get_filter (fun k => bool_decide (array_index k = None)) k l) as Hf.
  simpl in Hf. rewrite Hf. clear Hf.
  destruct (array_index k) eqn:Hk.
  - destruct (obj_get k l); [reflexivity|].
    rewrite bool_decide_eq_false_2 by discriminate. reflexivity.
  - rewrite bool_decide_eq_true_2 by reflexivity. reflexivity.
Qed.

Lemma In_insert_index x n k v (E : list (Z * (string * A))) :
  In x (insert_index n k v E) <-> x = (n, (k, v)) \/ In x E.
Proof.
  induction E as [|[n' kv] E IH]; simpl; [intuition congruence|].
  destruct (n <? n')%Z; simpl; [intuition congruence|]. rewrite IH. intuition congruence.
Qed.

Lemma In_index_entries k v l :
  In (k, v) (map snd (index_entries l)) -> In (k, v) l.
Proof.
  rewrite in_map_iff. intros [[n kv] [Heq Hin]]. simpl in Heq. subst kv.
  induction l as [|[k' v'] l IH]; simpl in *; [contradiction|].
  destruct (array_index k'); [|auto].
  apply In_insert_index in Hin as [[= -> -> ->]|Hin]; auto.
Qed.

Lemma In_own_property_order k v l : In (k, v) (own_property_order l) -> In (k, v) l.
Proof.
  unfold own_property_order. rewrite in_app_iff. intros [H|H].
  - eapply In_index_entries, H.
  - apply filter_In in H. tauto.
Qed.

End Objects.

Section Groups.
Context {A : Type} (key : A -> string).
Implicit Types (g : list (string * list A)) (k : string).

Lemma obj_get_obj_push k k' x g :
  obj_get k (Lodash.obj_push k' x g)
  = if String.eqb k' k then Some (default [] (obj_get k g) ++ [x]) else obj_get k g.
Proof.
  induction g as [|[k'' vs] g IH]; simpl.
  - destruct (String.eqb k' k); reflexivity.
  - destruct (String.eqb_spec k'' k') as [->|Hne]; simpl.
    + destruct (String.eqb k' k); reflexivity.
    + rewrite IH. destruct (String.eqb_spec k'' k) as [->|]; [|reflexivity].
      destruct (String.eqb_spec k' k); [congruence | reflexivity].
Qed.

Lemma keys_obj_push k x g y :
  y ∈ map fst (Lodash.obj_push k x g) <-> y = k \/ y ∈ map fst g.
Proof.
  induction g as [|[k' vs] g IH]; simpl.
  - rewrite list_elem_of_singleton, elem_of_nil. tauto.
  - destruct (String.eqb_spec k' k) as [->|Hne]; simpl.
    + rewrite !elem_of_cons. tauto.
    + rewrite !elem_of_cons, IH. tauto.
Qed.

Lemma NoDup_obj_push k x g : NoDup (map fst g) -> NoDup (map fst (Lodash.obj_push k x g)).
Proof.
  induction g as [|[k' vs] g IH]; simpl; intros H.
  - apply NoDup_singleton.
  - inversion H as [|? ? Hnotin Hnd]; subst.
    destruct (String.eqb_spec k' k) as [->|Hne]; simpl; [exact H|].
    constructor; [|auto]. rewrite keys_obj_push. intros [->|Hin]; contradiction.
Qed.

Lemma groups_fold (l pre : list A) g :
  NoDup (map fst g) ->
  (forall k, obj_get k g = group_of key k pre) ->
  let g' := fold_left (fun g x => Lodash.obj_push (key x) x g) l g in
  NoDup (map fst g') /\ forall k, obj_get k g' = group_of key k (pre ++ l).
Proof.
  revert pre g. induction l as [|x l IH]; intros pre g Hnd Hg; simpl.
  - rewrite app_nil_r. auto.
  - replace (pre ++ x :: l) with ((pre ++ [x]) ++ l) by (rewrite <- app_assoc; reflexivity).
    apply IH; [apply NoDup_obj_push, Hnd|].
    intros k. rewrite obj_get_obj_push, Hg. unfold group_of.
    rewrite List.filter_app. simpl. unfold with_key at 2 4.
    destruct (String.eqb (key x) k).
    + destruct (List.filter (with_key key k) pre); reflexivity.
    + rewrite app_nil_r. reflexivity.
Qed.

(** A group holds the elements with its key, in their order. *)
Lemma groupBy_get k (l : list A) :
  obj_get k (Lodash.groupBy key l) = group_of key k l.
Proof.
  unfold Lodash.groupBy.
  destruct (groups_fold l [] []) as [Hnd Hg]; [constructor | reflexivity |].
  rewrite obj_get_own_property_order by exact Hnd. apply Hg.
Qed.

Lemma groupBy_In k (grp l : list A) :
  In (k, grp) (Lodash.groupBy key l) -> group_of key k l = Some grp.
Proof.
  unfold Lodash.groupBy. intros Hin. apply In_own_property_order in Hin.
  destruct (groups_fold l [] []) as [Hnd Hg]; [constructor | reflexivity |].
  rewrite <- Hg. simpl. clear Hg.
  induction (fold_left _ l []) as [|[k' v'] g' IH]; simpl in *; [contradiction|].
  inversion Hnd as [|? ? Hnotin Hnd']; subst.
  destruct Hin as [[= -> ->]|Hin].
  - rewrite String.eqb_refl. reflexivity.
  - destruct (String.eqb_spec k' k) as [->|]; [|auto].
    exfalso. apply Hnotin. apply list_elem_of_In. apply (in_map fst) in Hin. exact Hin.
Qed.

End Groups.

(** ** Arrays *)

Ltac bools :=
  repeat match goal with
    | H : (_ <? _)%Z = true |- _ => apply Z.ltb_lt in H
    | H : (_ <? _)%Z = false |- _ => apply Z.ltb_ge in H
    | H : (_ <=? _)%Z = true |- _ => apply Z.leb_le in H
    | H : (_ <=? _)%Z = false |- _ => apply Z.leb_gt in H
    | H : (_ =? _)%Z = true |- _ => apply Z.eqb_eq in H
    | H : (_ =? _)%Z = false |- _ => apply Z.eqb_neq in H
    end.

Section Arrays.
Context {A : Type}.
Implicit Types (l pre post : list A) (p : A -> bool).

Lemma findIndex_range p l :
  (findIndex p l = -1 \/ 0 <= findIndex p l < Z.of_nat (length l))%Z.
Proof.
  induction l as [|x l IH]; simpl; [auto|].
  destruct (p x); [lia|]. destruct (findIndex p l <? 0)%Z eqn:E; bools; lia.
Qed.

Lemma findIndex_none p l :
  (findIndex p l < 0)%Z <-> forall x, In x l -> p x = false.
Proof.
  induction l as [|x l IH]; simpl; [split; [tauto | lia]|].
  destruct (p x) eqn:Hp.
  - split; [lia|]. intros H. specialize (H x (or_introl eq_refl)). congruence.
  - pose proof (findIndex_range p l) as Hr.
    destruct (findIndex p l <? 0)%Z eqn:E.
    + bools. split; [|lia]. intros _ y [<-|Hy]; [exact Hp|]. apply IH; auto.
    + bools. split; [lia|]. intros H.
      assert (Hn : (findIndex p l < 0)%Z) by (apply IH; auto). lia.
Qed.

Lemma findIndex_first p pre x post :
  (forall y, In y pre -> p y = false) -> p x = true ->
  findIndex p (pre ++ x :: post) = Z.of_nat (length pre).
Proof.
  intros Hpre Hx. induction pre as [|y pre IH]; simpl.
  - rewrite Hx. reflexivity.
  - rewrite (Hpre y) by (left; reflexivity).
    rewrite IH by (intros; apply Hpre; right; assumption).
    destruct (Z.of_nat (length pre) <? 0)%Z eqn:E; bools; lia.
Qed.

Lemma at_index_middle pre x post :
  at_index (pre ++ x :: post) (Z.of_nat (length pre)) = Some x.
Proof.
  unfold at_index. destruct (Z.of_nat (length pre) <? 0)%Z eqn:E; [bools; lia|].
  rewrite Nat2Z.id. apply list_lookup_middle. reflexivity.
Qed.

Lemma at_index_findIndex p l x :
  at_index l (findIndex p l) = Some x -> p x = true.
Proof.
  induction l as [|y l IH]; simpl.
  - unfold at_index. simpl. discriminate.
  - destruct (p y) eqn:Hp; [unfold at_index; simpl; intros [= <-]; exact Hp|].
    pose proof (findIndex_range p l) as Hr.
    destruct (findIndex p l <? 0)%Z eqn:E; [unfold at_index; simpl; discriminate|].
    bools. intros H. apply IH. revert H. unfold at_index.
    destruct (findIndex p l + 1 <? 0)%Z eqn:E1; [bools; lia|].
    destruct (findIndex p l <? 0)%Z eqn:E2; [bools; lia|].
    replace (Z.to_nat (findIndex p l + 1)) with (S (Z.to_nat (findIndex p l))) by lia.
    simpl. auto.
Qed.

Lemma find_first p pre x post :
  (forall y, In y pre -> p y = false) -> p x = true ->
  List.find p (pre ++ x :: post) = Some x.
Proof.
  intros Hpre Hx. induction pre as [|y pre IH]; simpl.
  - rewrite Hx. reflexivity.
  - rewrite (Hpre y) by (left; reflexivity). apply IH. intros; apply Hpre; right; assumption.
Qed.

Lemma find_split p l x :
  List.find p l = Some x ->
  exists pre post, l = pre ++ x :: post /\ (forall y, In y pre -> p y = false) /\ p x = true.
Proof.
  induction l as [|y l IH]; simpl; [discriminate|].
  destruct (p y) eqn:Hp.
  - intros [= ->]. exists [], l. simpl. tauto.
  - intros H. destruct (IH H) as (pre & post & -> & Hpre & Hx).
    exists (y :: pre), post. simpl. split; [reflexivity|]. split; [|exact Hx].
    intros z [<-|Hz]; auto.
Qed.

Lemma find_none_iff p l :
  List.find p l = None <-> forall x, In x l -> p x = false.
Proof.
  split; [apply find_none|]. induction l as [|y l IH]; simpl; [reflexivity|].
  intros H. rewrite (H y) by auto. apply IH. auto.
Qed.

Lemma filter_nil_iff p l :
  List.filter p l = [] <-> forall x, In x l -> p x = false.
Proof.
  induction l as [|y l IH]; simpl; [tauto|].
  destruct (p y) eqn:Hp.
  - split; [discriminate|]. intros H. specialize (H y (or_introl eq_refl)). congruence.
  - rewrite IH. split; [intros H x [<-|Hx]; auto | auto].
Qed.

Lemma splice_insert_at (i : nat) x l :
  (i <= length l)%nat -> splice_insert (Z.of_nat i) x l = take i l ++ x :: skipn i l.
Proof.
  intros Hi. unfold splice_insert.
  destruct (Z.of_nat i <? 0)%Z eqn:E; [bools; lia|].
  rewrite Z.min_l by lia. rewrite Nat2Z.id. reflexivity.
Qed.

Lemma splice_insert_Permutation i x l : Permutation (x :: l) (splice_insert i x l).
Proof.
  unfold splice_insert.
  set (k := Z.to_nat _). rewrite <- (take_drop k l) at 1.
  apply Permutation_middle.
Qed.

Lemma splice_remove_Permutation z x l :
  at_index l z = Some x -> Permutation l (x :: splice_remove z l).
Proof.
  unfold at_index, splice_remove. destruct (z <? 0)%Z eqn:E; [discriminate|]. bools.
  intros Hx. pose proof (lookup_lt_Some _ _ _ Hx) as Hlt.
  rewrite Z.min_l by lia.
  rewrite <- (take_drop_middle l _ x Hx) at 1.
  symmetry. apply Permutation_middle.
Qed.

End Arrays.

Lemma indexOf_none x l : (indexOf x l < 0)%Z <-> ~ In x l.
Proof.
  unfold indexOf. rewrite findIndex_none. split.
  - intros H Hin. specialize (H x Hin). rewrite String.eqb_refl in H. discriminate.
  - intros H y Hy. destruct (String.eqb_spec x y) as [->|]; [contradiction | reflexivity].
Qed.

(** ** Reconciliation *)

Lemma not_named_spec n its x : not_named n its = true -> In x its -> has_name n x = false.
Proof.
  unfold not_named. rewrite forallb_forall. intros H Hx.
  apply negb_true_iff. apply H, Hx.
Qed.

Lemma no_container_spec c ls L : no_container c ls = true -> In L ls -> is_container c L = false.
Proof.
  unfold no_container. rewrite forallb_forall. intros H HL.
  apply negb_true_iff. apply H, HL.
Qed.

Lemma not_in_lists_spec n ls L :
  not_in_lists n ls = true -> In L ls -> List.find (has_name n) (items L) = None.
Proof.
  unfold not_in_lists. rewrite forallb_forall. intros H HL.
  apply find_none_iff. intros x Hx. eapply not_named_spec; [apply H, HL | exact Hx].
Qed.

Section Origin.
Variables (dl : CustomizableLayout) (n : string).
Variables (dpre dpost : list LayoutList) (L0 : LayoutList).
Variables (ipre ipost : list LayoutElement) (e : LayoutElement).
Hypothesis Hlists : lists dl = dpre ++ L0 :: dpost.
Hypothesis Hfirst : no_container (containerName L0) dpre = true.
Hypothesis Hothers : not_in_lists n (dpre ++ dpost) = true.
Hypothesis Hitems : items L0 = ipre ++ e :: ipost.
Hypothesis Hname : componentName e = n.
Hypothesis Hbefore : not_named n ipre = true.

Lemma origin_group :
  exists rest, group_of containerName (containerName L0) (lists dl) = Some (L0 :: rest).
Proof.
  unfold group_of. rewrite Hlists, List.filter_app. simpl.
  replace (List.filter _ dpre) with (@nil LayoutList).
  - unfold with_key at 1. rewrite String.eqb_refl. simpl. eauto.
  - symmetry. apply filter_nil_iff. intros L HL.
    apply (no_container_spec _ _ _ Hfirst HL).
Qed.

Lemma origin_holds rest : holds_missing n (L0 :: rest) (containerName L0) = true.
Proof.
  unfold holds_missing. simpl. unfold is_container at 1. rewrite String.eqb_refl.
  rewrite Hitems, (find_first (has_name n) ipre e ipost).
  - apply bool_decide_eq_true_2. eauto.
  - intros y Hy. eapply not_named_spec; eauto.
  - unfold has_name. rewrite Hname. apply String.eqb_refl.
Qed.

Lemma origin_findKey :
  Lodash.findKey (Lodash.groupBy containerName (lists dl)) (holds_missing n)
  = Some (containerName L0).
Proof.
  destruct origin_group as [rest Hgroup].
  unfold Lodash.findKey.
  destruct (List.find _ _) as [[k g]|] eqn:Hfind; simpl.
  - apply find_some in Hfind as [Hin Hp]. simpl in Hp.
    apply groupBy_In in Hin. unfold holds_missing in Hp.
    destruct (List.find (is_container k) g) as [l|] eqn:Hl; [|discriminate].
    apply bool_decide_eq_true_1 in Hp. apply find_some in Hl as [Hlg Hk].
    assert (Hl : In l (lists dl)).
    { unfold group_of in Hin. destruct (List.filter _ _) eqn:Hf; [discriminate|].
      injection Hin as <-. rewrite <- Hf in Hlg. apply filter_In in Hlg. tauto. }
    rewrite Hlists in Hl. apply in_app_iff in Hl. simpl in Hl.
    assert (Hcase : l = L0 \/ In l (dpre ++ dpost)).
    { rewrite in_app_iff. destruct Hl as [?|[?|?]]; auto. }
    destruct Hcase as [->|Hl'].
    + unfold is_container in Hk. apply String.eqb_eq in Hk. congruence.
    + rewrite (not_in_lists_spec _ _ _ Hothers Hl') in Hp. destruct Hp as [? [=]].
  - exfalso.
    assert (Hin : In (containerName L0, L0 :: rest)
                     (Lodash.groupBy containerName (lists dl))).
    { apply obj_get_In. rewrite groupBy_get. exact Hgroup. }
    apply (find_none _ _ Hfind) in Hin. simpl in Hin.
    rewrite origin_holds in Hin. discriminate.
Qed.

(** What one step of the [forEach] does for a name with that origin. *)
Lemma insertMissing_origin (sl : CustomizableLayout) :
  insertMissing (Lodash.groupBy containerName (lists dl)) sl n
  = match List.find (is_container (containerName L0)) (lists sl) with
    | None => throw TypeError
    | Some l =>
        ok {| lists :=
                splice_into (containerName L0)
                  (if (Z.of_nat (length (items l)) <? Z.of_nat (length ipre))%Z
                   then 0%Z else Z.of_nat (length ipre))
                  e (lists sl) |}
    end.
Proof.
  unfold insertMissing. fold (holds_missing n). rewrite origin_findKey.
  destruct origin_group as [rest Hgroup]. rewrite groupBy_get, Hgroup.
  rewrite Hitems, (findIndex_first (has_name n) ipre e ipost), at_index_middle.
  - reflexivity.
  - intros y Hy. eapply not_named_spec; eauto.
  - unfold has_name. rewrite Hname. apply String.eqb_refl.
Qed.

End Origin.

(** The key that [_.findKey] returns has a group, and the first list of
    the group holds the missing component: the two last [throw] of
    [insertMissing] are not reached on the groups of a layout. *)
Lemma findKey_reaches_element (ls : list LayoutList) n c :
  Lodash.findKey (Lodash.groupBy containerName ls) (holds_missing n) = Some c ->
  exists l0 rest e,
    obj_get c (Lodash.groupBy containerName ls) = Some (l0 :: rest)
    /\ at_index (items l0) (findIndex (has_name n) (items l0)) = Some e.
Proof.
  unfold Lodash.findKey.
  destruct (List.find _ _) as [[k g]|] eqn:Hfind; simpl; [|discriminate].
  intros [= ->]. apply find_some in Hfind as [Hin Hp]. simpl in Hp.
  apply groupBy_In in Hin. rewrite groupBy_get, Hin.
  unfold group_of in Hin. destruct (List.filter _ ls) as [|l0 rest] eqn:Hf; [discriminate|].
  injection Hin as <-. exists l0, rest.
  assert (Hl0 : is_container c l0 = true).
  { assert (Hmem : In l0 (List.filter (with_key containerName c) ls))
      by (rewrite Hf; left; reflexivity).
    apply filter_In in Hmem. tauto. }
  unfold holds_missing in Hp. simpl in Hp. rewrite Hl0 in Hp.
  apply bool_decide_eq_true_1 in Hp. destruct Hp as [e He].
  apply find_split in He as (pre & post & Hitems & Hpre & He).
  exists e. split; [reflexivity|].
  rewrite Hitems, (findIndex_first _ pre e post Hpre He). apply at_index_middle.
Qed.

Lemma splice_into_first n i e spre l spost :
  no_container n spre = true -> is_container n l = true ->
  splice_into n i e (spre ++ l :: spost)
  = spre ++ with_items l (splice_insert i e (items l)) :: spost.
Proof.
  intros Hpre HS. induction spre as [|L spre IH]; simpl.
  - rewrite HS. reflexivity.
  - rewrite (no_container_spec n (L :: spre) L Hpre) by (left; reflexivity).
    f_equal. apply IH. unfold no_container in *. simpl in Hpre.
    apply andb_true_iff in Hpre. tauto.
Qed.

Lemma insertMissing_ok grouped s n s' :
  insertMissing grouped s n = ok s' ->
  exists c i e l,
    has_name n e = true /\ List.find (is_container c) (lists s) = Some l
    /\ s' = {| lists := splice_into c i e (lists s) |}.
Proof.
  unfold insertMissing. destruct (Lodash.findKey _ _) as [c|]; [|discriminate].
  destruct (obj_get c grouped) as [[|l0 rest]|]; try discriminate.
  destruct (at_index _ _) as [e|] eqn:He; [|discriminate].
  destruct (List.find _ (lists s)) as [l|] eqn:Hl; [|discriminate].
  intros [= <-]. apply at_index_findIndex in He. eauto 10.
Qed.

Lemma insertMissing_throws grouped s n err :
  insertMissing grouped s n = inl err -> err = TypeError.
Proof.
  unfold insertMissing. destruct (Lodash.findKey _ _) as [c|]; [|congruence].
  destruct (obj_get c grouped) as [[|l0 rest]|]; try congruence.
  destruct (at_index _ _) as [e|]; [|congruence].
  destruct (List.find _ (lists s)) as [l|]; [discriminate | congruence].
Qed.

Lemma no_container_splice_into c c' i e ls :
  no_container c (splice_into c' i e ls) = no_container c ls.
Proof.
  unfold no_container. induction ls as [|L ls IH]; simpl; [reflexivity|].
  destruct (is_container c' L); simpl; [reflexivity | rewrite IH; reflexivity].
Qed.

Lemma elements_splice_into c i e ls l :
  List.find (is_container c) ls = Some l ->
  Permutation (e :: flat_map items ls) (flat_map items (splice_into c i e ls)).
Proof.
  induction ls as [|L ls IH]; simpl; [discriminate|].
  destruct (is_container c L) eqn:HL.
  - intros _. simpl. apply (Permutation_app_tail _ (splice_insert_Permutation i e (items L))).
  - intros H. simpl. rewrite <- (IH H). apply Permutation_middle.
Qed.

Lemma forEach_throws {A S} (f : S -> A -> result S) (Inv : S -> Prop) bad l s :
  (forall s x err, f s x = inl err -> err = TypeError) ->
  (forall s x s', Inv s -> f s x = ok s' -> Inv s') ->
  (forall s, Inv s -> f s bad = throw TypeError) ->
  In bad l -> Inv s -> forEach f l s = throw TypeError.
Proof.
  intros Herr Hpres Hbad. revert s. induction l as [|x l IH]; simpl; [contradiction|].
  intros s [->|Hin] Hs.
  - rewrite (Hbad s Hs). reflexivity.
  - destruct (f s x) as [err|s'] eqn:Hf; simpl.
    + rewrite (Herr _ _ _ Hf). reflexivity.
    + apply IH; [exact Hin | eapply Hpres; eauto].
Qed.

(** After the loop every name it was given is in the layout, and so is
    every name that was there before. *)
Lemma forEach_insertMissing_names grouped names s s' :
  forEach (insertMissing grouped) names s = ok s' ->
  forall n, In n names \/ In n (componentNames s) -> In n (componentNames s').
Proof.
  revert s. induction names as [|m names IH]; simpl; intros s.
  - intros [= <-] n [[]|H]. exact H.
  - destruct (insertMissing grouped s m) as [err|s1] eqn:Hstep; simpl; [discriminate|].
    intros Hrest n Hn. apply (IH _ Hrest).
    destruct (insertMissing_ok _ _ _ _ Hstep) as (c & i & e & l & He & Hl & ->).
    assert (Hperm : Permutation (componentName e :: componentNames s)
                      (componentNames {| lists := splice_into c i e (lists s) |})).
    { unfold componentNames, elements. simpl. rewrite <- map_cons.
      apply Permutation_map. eapply elements_splice_into, Hl. }
    unfold has_name in He. apply String.eqb_eq in He.
    destruct Hn as [[<-|Hn]|Hn]; [right | left; exact Hn | right].
    + apply (Permutation_in _ Hperm). left. exact He.
    + apply (Permutation_in _ Hperm). right. exact Hn.
Qed.

Lemma set_variant_same c t l : variant c t = Some l -> set_variant c t (Some l) = c.
Proof. destruct c, t; simpl; intros ->; reflexivity. Qed.

Lemma variant_set_variant c t v : variant (set_variant c t v) t = v.
Proof. destruct t; reflexivity. Qed.

Lemma variant_set_variant_ne c t t' v : t' <> t -> variant (set_variant c t v) t' = variant c t'.
Proof. destruct t, t'; simpl; congruence. Qed.

Lemma settled_noop stored default t :
  settled stored default t -> addMissingComponentsToStoredLayout stored default t = ok stored.
Proof.
  unfold settled, addMissingComponentsToStoredLayout.
  destruct (variant stored t) as [sl|] eqn:Hs; [|reflexivity].
  destruct (variant default t) as [dl|]; [|reflexivity].
  intros ->. simpl. rewrite (set_variant_same _ _ _ Hs). reflexivity.
Qed.

Lemma addMissing_settles stored default t stored' :
  addMissingComponentsToStoredLayout stored default t = ok stored' ->
  settled stored' default t /\ forall t', t' <> t -> variant stored' t' = variant stored t'.
Proof.
  unfold addMissingComponentsToStoredLayout, settled.
  destruct (variant stored t) as [sl|] eqn:Hs.
  2:{ intros [= <-]. rewrite Hs. auto. }
  destruct (variant default t) as [dl|] eqn:Hd.
  2:{ intros [= <-]. rewrite Hs. auto. }
  destruct (forEach _ _ sl) as [err|sl'] eqn:Hloop; simpl; [discriminate|].
  intros [= <-]. rewrite variant_set_variant. split.
  - apply filter_nil_iff. intros n Hn.
    apply bool_decide_eq_false_2. intros Hneg. apply indexOf_none in Hneg. apply Hneg.
    apply (forEach_insertMissing_names _ _ _ _ Hloop).
    destruct (bool_decide (indexOf n (map componentName (elements sl)) < 0)%Z) eqn:Hmiss.
    + left. apply filter_In. split; [exact Hn | exact Hmiss].
    + right. apply bool_decide_eq_false_1 in Hmiss.
      destruct (in_dec String.string_dec n (componentNames sl)) as [Hin|Hout]; [exact Hin|].
      exfalso. apply Hmiss. apply indexOf_none. exact Hout.
  - intros t' Hne. apply variant_set_variant_ne, Hne.
Qed.

Lemma settled_ext s1 s2 default t :
  variant s1 t = variant s2 t -> settled s1 default t -> settled s2 default t.
Proof. unfold settled. intros ->. auto. Qed.

(** A missing component whose origin is the default list [L0], at
    index [length ipre] of its items, goes into the first stored list with
    the container name of [L0]: at that index, or at index 0 when the
    index exceeds the number of items the stored list has at that
    moment. *)
Lemma insertMissing_at_origin
    (dl sl : CustomizableLayout) (n : string)
    (dpre dpost : list LayoutList) (L0 : LayoutList)
    (ipre ipost : list LayoutElement) (e : LayoutElement)
    (spre spost : list LayoutList) (l : LayoutList) :
  lists dl = dpre ++ L0 :: dpost ->
  no_container (containerName L0) dpre = true ->
  not_in_lists n (dpre ++ dpost) = true ->
  items L0 = ipre ++ e :: ipost ->
  componentName e = n ->
  not_named n ipre = true ->
  lists sl = spre ++ l :: spost ->
  no_container (containerName L0) spre = true ->
  is_container (containerName L0) l = true ->
  insertMissing (Lodash.groupBy containerName (lists dl)) sl n
  = ok {| lists :=
            spre ++ with_items l
                      (if (length (items l) <? length ipre)%nat
                       then e :: items l
                       else take (length ipre) (items l) ++ e :: skipn (length ipre) (items l))
                 :: spost |}.
Proof.
  intros Hdl Hfirst Hothers Hitems Hname Hbefore Hsl Hspre Hl.
  rewrite (insertMissing_origin dl n dpre dpost L0 ipre ipost e) by assumption.
  rewrite Hsl, (find_first _ spre l spost);
    [| intros y Hy; eapply no_container_spec; eauto | exact Hl].
  rewrite splice_into_first by assumption.
  match goal with
  | |- context [splice_insert ?i e (items l)] =>
      replace (splice_insert i e (items l))
        with (if (length (items l) <? length ipre)%nat
              then e :: items l
              else take (length ipre) (items l) ++ e :: skipn (length ipre) (items l))
  end; [reflexivity|].
  destruct (length (items l) <? length ipre)%nat eqn:Hlen.
  - apply Nat.ltb_lt in Hlen.
    destruct (Z.of_nat (length (items l)) <? Z.of_nat (length ipre))%Z eqn:E; bools; [|lia].
    symmetry. apply (splice_insert_at 0); lia.
  - apply Nat.ltb_ge in Hlen.
    destruct (Z.of_nat (length (items l)) <? Z.of_nat (length ipre))%Z eqn:E; bools; [lia|].
    symmetry. apply splice_insert_at. exact Hlen.
Qed.

Lemma missingElementNames_spec sl dl n :
  In n (missingElementNames sl dl) <-> In n (componentNames dl) /\ ~ In n (componentNames sl).
Proof.
  unfold missingElementNames. rewrite filter_In. fold (componentNames dl).
  fold (componentNames sl). split; intros [Hd Hs]; (split; [exact Hd|]).
  - apply bool_decide_eq_true_1 in Hs. apply indexOf_none, Hs.
  - apply bool_decide_eq_true_2. apply indexOf_none, Hs.
Qed.

Lemma filter_head_split {A} (p : A -> bool) (ls : list A) x rest :
  List.filter p ls = x :: rest ->
  exists pre post, ls = pre ++ x :: post /\ (forall y, In y pre -> p y = false) /\ p x = true.
Proof.
  induction ls as [|a ls IH]; simpl; [discriminate|].
  destruct (p a) eqn:Ha.
  - intros [= -> _]. exists [], ls. repeat split; auto. intros y [].
  - intros Hf. destruct (IH Hf) as (pre & post & -> & Hpre & Hx).
    exists (a :: pre), post. repeat split; auto. intros y [<-|Hy]; auto.
Qed.

Lemma splice_insert_placed (i : nat) e its :
  splice_insert (if (Z.of_nat (length its) <? Z.of_nat i)%Z then 0%Z else Z.of_nat i) e its
  = placed i e its.
Proof.
  unfold placed. destruct (length its <? i)%nat eqn:Hlen.
  - apply Nat.ltb_lt in Hlen.
    destruct (Z.of_nat (length its) <? Z.of_nat i)%Z eqn:E; bools; [|lia].
    apply (splice_insert_at 0); lia.
  - apply Nat.ltb_ge in Hlen.
    destruct (Z.of_nat (length its) <? Z.of_nat i)%Z eqn:E; bools; [lia|].
    apply splice_insert_at. exact Hlen.
Qed.

(** One step of the [forEach]: where it returns, the name was placed from
    an origin it has in the default layout. *)
Lemma insertMissing_inserts dl s n s' :
  insertMissing (Lodash.groupBy containerName (lists dl)) s n = ok s' ->
  exists L0 i e spre l spost,
    origin dl n L0 i e
    /\ lists s = spre ++ l :: spost
    /\ no_container (containerName L0) spre = true
    /\ is_container (containerName L0) l = true
    /\ lists s' = spre ++ with_items l (placed i e (items l)) :: spost.
Proof.
  unfold insertMissing. fold (holds_missing n).
  destruct (Lodash.findKey _ _) as [c|] eqn:Hkey; [|discriminate].
  unfold Lodash.findKey in Hkey.
  destruct (List.find _ _) as [[k g]|] eqn:Hfind; simpl in Hkey; [|discriminate].
  injection Hkey as ->. apply find_some in Hfind as [Hin Hp]. simpl in Hp.
  apply groupBy_In in Hin. rewrite groupBy_get, Hin.
  unfold group_of in Hin. destruct (List.filter _ (lists dl)) as [|l0 rest] eqn:Hf; [discriminate|].
  injection Hin as <-.
  destruct (filter_head_split _ _ _ _ Hf) as (dpre & dpost & Hdl & Hdpre & Hl0).
  unfold with_key in Hl0. pose proof Hl0 as Hname0. apply String.eqb_eq in Hname0.
  unfold holds_missing in Hp. simpl in Hp. unfold is_container at 1 in Hp. rewrite Hl0 in Hp.
  apply bool_decide_eq_true_1 in Hp. destruct Hp as [e He].
  apply find_split in He as (ipre & ipost & Hitems & Hipre & He).
  rewrite Hitems, (findIndex_first _ ipre e ipost Hipre He), at_index_middle.
  destruct (List.find (is_container c) (lists s)) as [l|] eqn:Hl; [|discriminate].
  apply find_split in Hl as (spre & spost & Hs & Hspre & Hl).
  intros [= <-]. exists l0, (length ipre), e, spre, l, spost. rewrite Hname0.
  assert (Hno : no_container c spre = true).
  { unfold no_container. apply forallb_forall. intros y Hy. rewrite (Hspre y Hy). reflexivity. }
  split; [|split; [exact Hs|split; [exact Hno|split; [exact Hl|]]]].
  - exists dpre, dpost, ipre, ipost. rewrite Hname0. repeat split; auto.
    + unfold no_container. apply forallb_forall. intros y Hy.
      specialize (Hdpre y Hy). unfold with_key in Hdpre. unfold is_container.
      rewrite Hdpre. reflexivity.
    + unfold not_named. apply forallb_forall. intros y Hy. rewrite (Hipre y Hy). reflexivity.
    + unfold has_name in He. apply String.eqb_eq in He. exact He.
  - simpl. rewrite Hs, (splice_into_first _ _ _ _ _ _ Hno Hl), splice_insert_placed.
    reflexivity.
Qed.

Lemma forEach_insertMissing_inserted dl names s s' :
  forEach (insertMissing (Lodash.groupBy containerName (lists dl))) names s = ok s' ->
  inserted dl names (lists s) (lists s').
Proof.
  revert s. induction names as [|n names IH]; simpl; intros s.
  - intros [= <-]. constructor.
  - destruct (insertMissing _ s n) as [err|s1] eqn:Hstep; simpl; [discriminate|].
    intros Hrest. apply IH in Hrest.
    destruct (insertMissing_inserts _ _ _ _ Hstep)
      as (L0 & i & e & spre & l & spost & Horigin & Hs & Hspre & Hl & Hs1).
    rewrite Hs. rewrite Hs1 in Hrest. econstructor; eassumption.
Qed.

(** C6: where the reconciliation of a variant returns, the names it
    works through are the component names of the default layout that the
    stored layout lacks, and each of them, in turn, was inserted with its
    origin element into the stored list that has the container name of
    its origin list in the default layout: at its index in that origin
    list, or at index 0 when that index exceeds the number of items the
    stored list has at that moment. *)
Theorem C6_reconcile_inserts_at_origin
    (stored default stored' : CustomizableLayoutConfig) (t : LayoutType)
    (sl dl : CustomizableLayout) :
  variant stored t = Some sl ->
  variant default t = Some dl ->
  addMissingComponentsToStoredLayout stored default t = ok stored' ->
  exists sl',
    variant stored' t = Some sl'
    /\ inserted dl (missingElementNames sl dl) (lists sl) (lists sl')
    /\ forall n, In n (missingElementNames sl dl)
                 <-> In n (componentNames dl) /\ ~ In n (componentNames sl).
Proof.
  intros Hs Hd. unfold addMissingComponentsToStoredLayout. rewrite Hs, Hd.
  destruct (forEach _ _ sl) as [err|sl'] eqn:Hloop; simpl; [discriminate|].
  intros [= <-]. exists sl'. rewrite variant_set_variant. split; [reflexivity|].
  split; [apply (forEach_insertMissing_inserted _ _ _ _ Hloop)|].
  intros n. apply missingElementNames_spec.
Qed.

(** Scenario C: the stored list "A" has one item and the default index
    of "y" is 5. *)
Lemma C6_reconcile_scenario_C :
  let default :=
    Sample.config 1 [Sample.column "A" ["a"; "b"; "c"; "d"; "e"; "y"]; Sample.column "B" []] in
  let stored :=
    Sample.config 1 [Sample.column "B" ["a"; "b"; "c"; "d"; "e"]; Sample.column "A" ["x"]] in
  let stored' :=
    Sample.config 1 [Sample.column "B" ["a"; "b"; "c"; "d"; "e"]; Sample.column "A" ["y"; "x"]] in
  addMissingComponentsToStoredLayout stored default Mobile = ok stored'
  /\ inserted
       (Sample.layout [Sample.column "A" ["a"; "b"; "c"; "d"; "e"; "y"]; Sample.column "B" []])
       ["y"]
       [Sample.column "B" ["a"; "b"; "c"; "d"; "e"]; Sample.column "A" ["x"]]
       [Sample.column "B" ["a"; "b"; "c"; "d"; "e"]; Sample.column "A" ["y"; "x"]]
  /\ placed 5 (Sample.element "y") (map Sample.element ["x"])
     = map Sample.element ["y"; "x"].
Proof.
  intros default stored stored'.
  split; [vm_compute; reflexivity|]. split; [|reflexivity].
  destruct (C6_reconcile_inserts_at_origin stored default stored' Mobile
              (Sample.layout [Sample.column "B" ["a"; "b"; "c"; "d"; "e"];
                              Sample.column "A" ["x"]])
              (Sample.layout [Sample.column "A" ["a"; "b"; "c"; "d"; "e"; "y"];
                              Sample.column "B" []]))
    as (sl' & Hv & Hins & _); [reflexivity | reflexivity | vm_compute; reflexivity|].
  injection Hv as <-. exact Hins.
Defined.

(** C3, as stated, fails: "y" is new in the default list "B", the stored
    layout has no list "B", and reconciliation throws. *)
Lemma C3_missing_container_throws_on_sample :
  let stored := Sample.config 1 [Sample.column "A" ["x"]] in
  let default := Sample.config 1 [Sample.column "A" ["x"]; Sample.column "B" ["y"]] in
  missingElementNames (Sample.layout [Sample.column "A" ["x"]])
    (Sample.layout [Sample.column "A" ["x"]; Sample.column "B" ["y"]]) = ["y"]
  /\ no_container "B" [Sample.column "A" ["x"]] = true
  /\ addMissingComponentsToStoredLayout stored default Mobile = throw TypeError
  /\ ~ exists stored', addMissingComponentsToStoredLayout stored default Mobile = ok stored'.
Proof.
  repeat split; try reflexivity. intros [stored' H]. vm_compute in H. discriminate.
Qed.

(** C3, amended: when the origin container of a missing component has no
    list in the stored variant, no container is made up and reconciliation
    of the variant stops with a TypeError. *)
Theorem C3_missing_container_throws
    (stored default : CustomizableLayoutConfig) (t : LayoutType)
    (sl dl : CustomizableLayout) (n : string)
    (dpre dpost : list LayoutList) (L0 : LayoutList)
    (ipre ipost : list LayoutElement) (e : LayoutElement) :
  variant stored t = Some sl ->
  variant default t = Some dl ->
  lists dl = dpre ++ L0 :: dpost ->
  no_container (containerName L0) dpre = true ->
  not_in_lists n (dpre ++ dpost) = true ->
  items L0 = ipre ++ e :: ipost ->
  componentName e = n ->
  not_named n ipre = true ->
  not_in_lists n (lists sl) = true ->
  no_container (containerName L0) (lists sl) = true ->
  addMissingComponentsToStoredLayout stored default t = throw TypeError.
Proof.
  intros Hs Hd Hdl Hfirst Hothers Hitems Hname Hbefore Hmissing Hnone.
  unfold addMissingComponentsToStoredLayout. rewrite Hs, Hd.
  rewrite (forEach_throws _ (fun s => no_container (containerName L0) (lists s) = true) n);
    [reflexivity | | | | | exact Hnone].
  - intros s x err. apply insertMissing_throws.
  - intros s x s' Hinv Hstep.
    destruct (insertMissing_ok _ _ _ _ Hstep) as (c & i & e' & l & _ & _ & ->).
    simpl. rewrite no_container_splice_into. exact Hinv.
  - intros s Hinv.
    rewrite (insertMissing_origin dl n dpre dpost L0 ipre ipost e) by assumption.
    replace (List.find _ (lists s)) with (@None LayoutList); [reflexivity|].
    symmetry. apply find_none_iff. intros L HL. eapply no_container_spec; eauto.
  - apply filter_In. split.
    + unfold elements. rewrite Hdl, flat_map_app. simpl. rewrite Hitems.
      rewrite !map_app. simpl. rewrite Hname.
      apply in_app_iff. right. apply in_app_iff. left. apply in_app_iff. right. left. reflexivity.
    + apply bool_decide_eq_true_2. apply indexOf_none.
      unfold elements. rewrite in_map_iff. intros (x & Hx & Hin).
      apply in_flat_map in Hin as (L & HL & HxL).
      pose proof (not_in_lists_spec _ _ _ Hmissing HL) as Hnf.
      apply (find_none _ _ Hnf) in HxL. unfold has_name in HxL.
      rewrite Hx, String.eqb_refl in HxL. discriminate.
Qed.

Lemma C3_missing_container_throws_witness :
  addMissingComponentsToStoredLayout
    (Sample.config 1 [Sample.column "A" ["x"]])
    (Sample.config 1 [Sample.column "A" ["x"]; Sample.column "B" ["y"]]) Mobile
  = throw TypeError.
Proof.
  apply (C3_missing_container_throws _ _ Mobile
           (Sample.layout [Sample.column "A" ["x"]])
           (Sample.layout [Sample.column "A" ["x"]; Sample.column "B" ["y"]])
           "y" [Sample.column "A" ["x"]] [] (Sample.column "B" ["y"])
           [] [] (Sample.element "y"));
    reflexivity.
Defined.

(** C8: a configuration that reconciliation has produced has nothing
    missing in any variant, and reconciling it again against the same
    default returns it unchanged. *)
Theorem C8_reconcile_idempotent (stored default stored' : CustomizableLayoutConfig) :
  reconcile stored default = ok stored' ->
  (forall t sl dl, variant stored' t = Some sl -> variant default t = Some dl ->
                   missingElementNames sl dl = [])
  /\ (forall t, addMissingComponentsToStoredLayout stored' default t = ok stored')
  /\ reconcile stored' default = ok stored'.
Proof.
  unfold reconcile.
  destruct (addMissingComponentsToStoredLayout stored default Mobile) as [|s1] eqn:H1;
    simpl; [discriminate|].
  destruct (addMissingComponentsToStoredLayout s1 default Tablet) as [|s2] eqn:H2;
    simpl; [discriminate|].
  intros H3.
  apply addMissing_settles in H1 as [S1 _].
  apply addMissing_settles in H2 as [S2 K2].
  apply addMissing_settles in H3 as [S3 K3].
  assert (Hall : forall t, settled stored' default t).
  { intros [| |].
    - eapply settled_ext; [|exact S1].
      rewrite K3, K2 by discriminate. reflexivity.
    - eapply settled_ext; [|exact S2]. rewrite K3 by discriminate. reflexivity.
    - exact S3. }
  split; [|split].
  - intros t sl dl Hs Hd. specialize (Hall t). unfold settled in Hall.
    rewrite Hs, Hd in Hall. exact Hall.
  - intros t. apply settled_noop, Hall.
  - rewrite !settled_noop by apply Hall. simpl. rewrite !settled_noop by apply Hall.
    simpl. apply settled_noop, Hall.
Qed.

Lemma C8_reconcile_idempotent_witness :
  let default := Sample.config 1 [Sample.column "A" ["x"; "y"]; Sample.column "B" ["z"]] in
  let stored' := Sample.config 1 [Sample.column "B" ["z"; "x"]; Sample.column "A" ["y"]] in
  reconcile (Sample.config 1 [Sample.column "B" ["x"]; Sample.column "A" []]) default
    = ok stored'
  /\ reconcile stored' default = ok stored'.
Proof.
  split; [reflexivity|].
  apply (C8_reconcile_idempotent
           (Sample.config 1 [Sample.column "B" ["x"]; Sample.column "A" []])).
  reflexivity.
Defined.

(** ** Initialization *)

Lemma initializeState_eq c :
  initializeState c
  = match JSON_parse (localStorage c !! name (defaultLayout c)) with
    | inl e => (inl e, c)
    | inr v =>
        match isCustomizableLayoutConfig v with
        | Some stored =>
            if (version (defaultLayout c) <=? version stored)%Z then
              match reconcile stored (defaultLayout c) with
              | inl e => (inl e, c)
              | inr stored' => (ok tt, adopted stored' c)
              end
            else (ok tt, adopted (defaultLayout c) c)
        | None => (ok tt, adopted (defaultLayout c) c)
        end
    end.
Proof.
  unfold initializeState, reconcile, bind, read, lift, next, adopted, createCopy. simpl.
  destruct (JSON_parse _) as [e|v]; [reflexivity|].
  destruct (isCustomizableLayoutConfig v) as [stored|]; [|reflexivity].
  destruct (_ <=? _)%Z; [|reflexivity].
  destruct (addMissingComponentsToStoredLayout stored _ Mobile) as [|s1]; simpl; [reflexivity|].
  destruct (addMissingComponentsToStoredLayout s1 _ Tablet) as [|s2]; simpl; [reflexivity|].
  destruct (addMissingComponentsToStoredLayout s2 _ Desktop) as [|s3]; reflexivity.
Qed.

(** A failed initialization leaves the component as it was: no working
    state is set. *)
Lemma initializeState_throws c e :
  fst (initializeState c) = throw e -> snd (initializeState c) = c.
Proof.
  rewrite initializeState_eq.
  destruct (JSON_parse _) as [|v]; [reflexivity|].
  destruct (isCustomizableLayoutConfig v) as [stored|]; [|discriminate].
  destruct (_ <=? _)%Z; [|discriminate].
  destruct (reconcile _ _); [reflexivity | discriminate].
Qed.

(** C1, as stated, fails in both directions: a stored configuration of
    version 1 is valid and older than the default of version 2, yet the
    default is adopted and not the reconciled stored one; a stored
    configuration of version 3 is newer than the default, yet it is
    reconciled and adopted. *)
Lemma C1_versions_on_sample :
  let default := Sample.config 2 [Sample.column "A" ["x"; "y"]; Sample.column "B" []] in
  let older := Sample.config 1 [Sample.column "B" ["x"]; Sample.column "A" []] in
  let newer := Sample.config 3 [Sample.column "B" ["x"]; Sample.column "A" []] in
  let c1 := Sample.component default (Sample.stored older) in
  let c3 := Sample.component default (Sample.stored newer) in
  (JSON_parse (localStorage c1 !! name default) = ok (json_of_config older)
   /\ isCustomizableLayoutConfig (json_of_config older) = Some older
   /\ (version older <= version default)%Z
   /\ reconcile older default
      = ok (Sample.config 1 [Sample.column "B" ["x"]; Sample.column "A" ["y"]])
   /\ initializeState c1 = (ok tt, adopted default c1)
   /\ _layoutState (snd (initializeState c1))
      <> Some (Sample.config 1 [Sample.column "B" ["x"]; Sample.column "A" ["y"]]))
  /\ (JSON_parse (localStorage c3 !! name default) = ok (json_of_config newer)
      /\ isCustomizableLayoutConfig (json_of_config newer) = Some newer
      /\ (version default < version newer)%Z
      /\ initializeState c3
         = (ok tt, adopted (Sample.config 3 [Sample.column "B" ["x"]; Sample.column "A" ["y"]]) c3)
      /\ _layoutState (snd (initializeState c3)) <> Some default).
Proof.
  repeat split; try reflexivity; try (vm_compute; discriminate).
Qed.

(** C1, amended: a stored configuration that parses and passes the
    guard is reconciled and adopted when the default's version is at most
    its own (a throw of the reconciliation leaves initialization); when
    its version is below the default's, reconciliation is skipped and the
    copy of the default is adopted. *)
Theorem C1_initializeState_by_version
    (c : Component) (v : json) (stored : CustomizableLayoutConfig) :
  JSON_parse (localStorage c !! name (defaultLayout c)) = ok v ->
  isCustomizableLayoutConfig v = Some stored ->
  ((version (defaultLayout c) <= version stored)%Z ->
   initializeState c
   = match reconcile stored (defaultLayout c) with
     | inr stored' => (ok tt, adopted stored' c)
     | inl e => (throw e, c)
     end)
  /\ ((version stored < version (defaultLayout c))%Z ->
      initializeState c = (ok tt, adopted (createCopy (defaultLayout c)) c)).
Proof.
  intros Hparse Hguard. rewrite initializeState_eq, Hparse, Hguard. split; intros Hv.
  - apply Z.leb_le in Hv. rewrite Hv. reflexivity.
  - apply Z.leb_gt in Hv. rewrite Hv. reflexivity.
Qed.

Lemma C1_initializeState_by_version_witness :
  let default := Sample.config 2 [Sample.column "A" ["x"; "y"]; Sample.column "B" []] in
  let same := Sample.config 2 [Sample.column "B" ["x"]; Sample.column "A" []] in
  let older := Sample.config 1 [Sample.column "B" ["x"]; Sample.column "A" []] in
  initializeState (Sample.component default (Sample.stored same))
  = (ok tt, adopted (Sample.config 2 [Sample.column "B" ["x"]; Sample.column "A" ["y"]])
              (Sample.component default (Sample.stored same)))
  /\ initializeState (Sample.component default (Sample.stored older))
     = (ok tt, adopted default (Sample.component default (Sample.stored older))).
Proof.
  split.
  - apply (proj1 (C1_initializeState_by_version
                    (Sample.component
                       (Sample.config 2 [Sample.column "A" ["x"; "y"]; Sample.column "B" []])
                       (Sample.stored
                          (Sample.config 2 [Sample.column "B" ["x"]; Sample.column "A" []])))
                    (json_of_config
                       (Sample.config 2 [Sample.column "B" ["x"]; Sample.column "A" []]))
                    (Sample.config 2 [Sample.column "B" ["x"]; Sample.column "A" []])
                    eq_refl eq_refl)).
    simpl. lia.
  - apply (proj2 (C1_initializeState_by_version
                    (Sample.component
                       (Sample.config 2 [Sample.column "A" ["x"; "y"]; Sample.column "B" []])
                       (Sample.stored
                          (Sample.config 1 [Sample.column "B" ["x"]; Sample.column "A" []])))
                    (json_of_config
                       (Sample.config 1 [Sample.column "B" ["x"]; Sample.column "A" []]))
                    (Sample.config 1 [Sample.column "B" ["x"]; Sample.column "A" []])
                    eq_refl eq_refl)).
    simpl. lia.
Defined.

(** C2, as stated, fails: with the text of an unfinished object under
    the layout's key, initialization throws the SyntaxError of
    [JSON.parse] and no working state is set. *)
Lemma C2_malformed_JSON_throws_on_sample :
  let default := Sample.config 1 [Sample.column "A" ["x"]] in
  let c := Sample.component default {[ "dashboard" := "{" ]} in
  localStorage c !! name default = Some "{"%string
  /\ initializeState c = (throw SyntaxError, c)
  /\ _layoutState (snd (initializeState c)) = None.
Proof. repeat split. Qed.

(** C2, amended: an absent key, and a stored text that parses to a value
    the guard rejects, lead to the copy of the default without an error;
    a stored text that [JSON.parse] rejects makes initialization throw
    that error, and the component is left as it was. *)
Theorem C2_initializeState_load (c : Component) :
  (localStorage c !! name (defaultLayout c) = None ->
   initializeState c = (ok tt, adopted (createCopy (defaultLayout c)) c))
  /\ (forall text v,
        localStorage c !! name (defaultLayout c) = Some text ->
        JSON.parse text = ok v ->
        isCustomizableLayoutConfig v = None ->
        initializeState c = (ok tt, adopted (createCopy (defaultLayout c)) c))
  /\ (forall text e,
        localStorage c !! name (defaultLayout c) = Some text ->
        JSON.parse text = throw e ->
        initializeState c = (throw e, c)).
Proof.
  rewrite initializeState_eq. repeat split.
  - intros ->. reflexivity.
  - intros text v -> Hparse Hguard. unfold JSON_parse. simpl. rewrite Hparse, Hguard.
    reflexivity.
  - intros text e -> Hparse. unfold JSON_parse. simpl. rewrite Hparse. reflexivity.
Qed.

Lemma C2_initializeState_load_witness :
  let default := Sample.config 1 [Sample.column "A" ["x"]] in
  initializeState (Sample.component default ∅)
  = (ok tt, adopted default (Sample.component default ∅))
  /\ initializeState (Sample.component default {[ "dashboard" := "[1, 2]" ]})
     = (ok tt, adopted default (Sample.component default {[ "dashboard" := "[1, 2]" ]}))
  /\ initializeState (Sample.component default {[ "dashboard" := "{" ]})
     = (throw SyntaxError, Sample.component default {[ "dashboard" := "{" ]}).
Proof.
  split; [|split].
  - apply (proj1 (C2_initializeState_load
                    (Sample.component (Sample.config 1 [Sample.column "A" ["x"]]) ∅))).
    reflexivity.
  - apply (proj1 (proj2 (C2_initializeState_load
                           (Sample.component (Sample.config 1 [Sample.column "A" ["x"]])
                              {[ "dashboard" := "[1, 2]" ]})))
             "[1, 2]"%string (JArr [JNum 1 0; JNum 2 0]));
      reflexivity.
  - apply (proj2 (proj2 (C2_initializeState_load
                           (Sample.component (Sample.config 1 [Sample.column "A" ["x"]])
                              {[ "dashboard" := "{" ]})))
             "{"%string SyntaxError);
      reflexivity.
Defined.

(** ** The breakpoint selector *)

(** C9: after a resize to [width], the selected variant is Mobile when
    [width <= tabletBreakpoint] and Tablet otherwise, never Desktop; with
    the breakpoint 990, 500 selects Mobile and 1200 selects Tablet. *)
Theorem C9_breakpoint_selector (c : Component) (width : Z) :
  let selected := _layoutType (snd (resize (Some width) c)) in
  (selected = Mobile <-> (width <= tabletBreakpoint c)%Z)
  /\ (selected = Tablet <-> (tabletBreakpoint c < width)%Z)
  /\ selected <> Desktop
  /\ selected = layoutTypeOf (tabletBreakpoint c) width
  /\ layoutTypeOf 990 500 = Mobile
  /\ layoutTypeOf 990 1200 = Tablet.
Proof.
  simpl. unfold layoutTypeOf.
  destruct (width <=? tabletBreakpoint c)%Z eqn:E; bools;
    repeat split; try reflexivity; try discriminate; try lia; intros; try discriminate; lia.
Qed.

Lemma C9_breakpoint_selector_witness :
  let c := Sample.component (Sample.config 1 [Sample.column "A" ["x"]]) ∅ in
  _layoutType (snd (resize (Some 500%Z) c)) = Mobile
  /\ _layoutType (snd (resize (Some 1200%Z) c)) = Tablet.
Proof.
  split.
  - apply (proj1 (C9_breakpoint_selector
                    (Sample.component (Sample.config 1 [Sample.column "A" ["x"]]) ∅) 500)).
    simpl. lia.
  - apply (proj1 (proj2 (C9_breakpoint_selector
                    (Sample.component (Sample.config 1 [Sample.column "A" ["x"]]) ∅) 1200))).
    simpl. lia.
Defined.

(** ** Methods: what they return *)

Section Returns.
Context {A : Type}.
Implicit Types (c : Component) (Q : A -> Component -> Prop).

Lemma returns_bind {B} (m : M B) (k : B -> M A) c Q :
  returns m c (fun b c1 => returns (k b) c1 Q) -> returns (bind m k) c Q.
Proof.
  intros (b & c1 & Hm & a & c2 & Hk & HQ). exists a, c2.
  unfold bind. rewrite Hm. auto.
Qed.

Lemma returns_ret (a : A) c Q : Q a c -> returns (ret a) c Q.
Proof. intros HQ. exists a, c. auto. Qed.

Lemma returns_read (f : Component -> A) c Q : Q (f c) c -> returns (read f) c Q.
Proof. intros HQ. exists (f c), c. auto. Qed.

Lemma returns_defined (o : option A) a c Q : o = Some a -> Q a c -> returns (defined o) c Q.
Proof. intros -> HQ. exists a, c. auto. Qed.

End Returns.

Lemma bind_ok {A B} (m : M A) (k : A -> M B) c a c' :
  m c = (ok a, c') -> bind m k c = k a c'.
Proof. intros H. unfold bind. rewrite H. reflexivity. Qed.

Lemma bind_throw {A B} (m : M A) (k : A -> M B) c e c' :
  m c = (throw e, c') -> bind m k c = (throw e, c').
Proof. intros H. unfold bind. rewrite H. reflexivity. Qed.

Lemma activeLayout_set_layoutState c config :
  activeLayout (set_layoutState (Some config) c) = variant config (_layoutType c).
Proof. reflexivity. Qed.

Lemma returns_currentLayout c l Q :
  activeLayout c = Some l -> Q (Some l) c -> returns currentLayout c Q.
Proof.
  intros H HQ. exists (Some l), c. unfold activeLayout in H. unfold currentLayout.
  destruct (_layoutState c); simpl in H; [rewrite H; auto | discriminate].
Qed.

Lemma returns_currentLists c l Q :
  activeLayout c = Some l -> Q (lists l) c -> returns currentLists c Q.
Proof.
  intros H HQ. unfold currentLists.
  apply returns_bind, (returns_currentLayout c l); [exact H|].
  apply returns_bind, (returns_defined _ l); [reflexivity|].
  apply returns_ret, HQ.
Qed.

Lemma returns_set_currentLayout v c (Q : unit -> Component -> Prop) :
  (forall c', activeLayout c' = v -> defaultLayout c' = defaultLayout c ->
              _layoutType c' = _layoutType c -> Q tt c') ->
  returns (set_currentLayout v) c Q.
Proof.
  intros HQ. eexists tt, _. split; [reflexivity|]. apply HQ; try reflexivity.
  unfold activeLayout. simpl. apply variant_set_variant.
Qed.

Lemma returns_mutateLists f c l (Q : unit -> Component -> Prop) :
  activeLayout c = Some l ->
  (forall c', activeLayout c' = Some {| lists := f (lists l) |} -> Q tt c') ->
  returns (mutateLists f) c Q.
Proof.
  intros H HQ. pose proof H as H'. unfold activeLayout in H'.
  destruct (_layoutState c) as [config|] eqn:Hc; simpl in H'; [|discriminate].
  unfold returns, mutateLists. rewrite Hc, H'.
  eexists tt, _. split; [reflexivity|]. apply HQ.
  unfold activeLayout. simpl. apply variant_set_variant.
Qed.

Lemma returns_getEmptyList c (Q : LayoutList -> Component -> Prop) :
  (forall c' guid, activeLayout c' = activeLayout c -> Q (emptyList guid) c') ->
  returns getEmptyList c Q.
Proof.
  intros HQ. eexists _, _. split; [reflexivity|]. apply HQ. reflexivity.
Qed.

Lemma currentLists_eq c l : activeLayout c = Some l -> currentLists c = (ok (lists l), c).
Proof.
  intros H. destruct (returns_currentLists c l (fun ls c' => ls = lists l /\ c' = c) H)
    as (ls & c' & Heq & -> & ->); auto.
Qed.

Lemma getConnectedToString_eq c l self :
  activeLayout c = Some l ->
  getConnectedToString self c
  = (ok (List.filter (fun cn => negb (String.eqb cn self)) (containerNames l)), c).
Proof.
  intros H. unfold getConnectedToString.
  rewrite (bind_ok _ _ _ _ _ (currentLists_eq c l H)). reflexivity.
Qed.

Lemma getConnectedLists_eq c l layout :
  activeLayout c = Some l ->
  getConnectedLists (Some layout) c = (ok (Some (connect (containerNames l) layout)), c).
Proof.
  intros H. unfold getConnectedLists, connect.
  assert (Hmap : forall ls,
             mapM (fun L => let* conn := getConnectedToString (containerName L) in
                            ret (with_connectedTo L conn)) ls c
             = (ok (map (fun L => with_connectedTo L
                                    (List.filter
                                       (fun cn => negb (String.eqb cn (containerName L)))
                                       (containerNames l))) ls), c)).
  { induction ls as [|L ls IH]; simpl; [reflexivity|].
    erewrite bind_ok; [|erewrite bind_ok; [reflexivity | apply (getConnectedToString_eq c l), H]].
    rewrite (bind_ok _ _ _ _ _ IH). reflexivity. }
  rewrite (bind_ok _ _ _ _ _ (Hmap _)). reflexivity.
Qed.

Lemma returns_getConnectedLists c l layout (Q : option CustomizableLayout -> Component -> Prop) :
  activeLayout c = Some l ->
  Q (Some (connect (containerNames l) layout)) c ->
  returns (getConnectedLists (Some layout)) c Q.
Proof.
  intros H HQ. eexists _, _. split; [apply (getConnectedLists_eq c l), H | exact HQ].
Qed.

Lemma returns_updateLayout c l (Q : unit -> Component -> Prop) :
  activeLayout c = Some l ->
  (forall c', activeLayout c' = Some (reconnect l) -> Q tt c') ->
  returns updateLayout c Q.
Proof.
  intros H HQ. unfold updateLayout.
  apply returns_bind, (returns_currentLayout c l); [exact H|].
  apply returns_bind, (returns_getConnectedLists c l); [exact H|].
  apply returns_set_currentLayout. intros c' Hc' _ _. apply HQ, Hc'.
Qed.

Lemma returns_assignItems c l (i : nat) L data (Q : unit -> Component -> Prop) :
  activeLayout c = Some l ->
  lists l !! i = Some L ->
  (forall c', activeLayout c' = Some {| lists := <[i := with_items L data]> (lists l) |} ->
              Q tt c') ->
  returns (assignItems (Z.of_nat i) data) c Q.
Proof.
  intros H HL HQ. unfold assignItems.
  apply returns_bind, (returns_currentLists c l); [exact H|].
  apply returns_bind, (returns_defined _ L).
  { unfold at_index. destruct (Z.of_nat i <? 0)%Z eqn:E; [bools; lia|].
    rewrite Nat2Z.id. exact HL. }
  apply (returns_mutateLists _ c l); [exact H|]. rewrite Nat2Z.id. exact HQ.
Qed.

Section Throws.
Context {A : Type}.
Implicit Types (c : Component) (Q : Component -> Prop).

Lemma throws_bind_now {B} (m : M B) (k : B -> M A) c e Q :
  throws m c e Q -> throws (bind m k) c e Q.
Proof. intros (c' & Hm & HQ). exists c'. rewrite (bind_throw _ _ _ _ _ Hm). auto. Qed.

Lemma throws_bind_later {B} (m : M B) (k : B -> M A) c e Q :
  returns m c (fun b c1 => throws (k b) c1 e Q) -> throws (bind m k) c e Q.
Proof.
  intros (b & c1 & Hm & c2 & Hk & HQ). exists c2. rewrite (bind_ok _ _ _ _ _ Hm). auto.
Qed.

Lemma throws_undefined c Q : Q c -> throws (@defined A None) c TypeError Q.
Proof. intros HQ. exists c. auto. Qed.

End Throws.

(** ** Lists of lists *)

Lemma string_app_assoc (a b c : string) : ((a ++ b) ++ c = a ++ b ++ c)%string.
Proof.
  induction a as [|x a IH]; [reflexivity|].
  change (String x ((a ++ b) ++ c) = String x (a ++ b ++ c))%string. f_equal. exact IH.
Qed.

Lemma string_app_nil_r (a : string) : (a ++ "" = a)%string.
Proof.
  induction a as [|x a IH]; [reflexivity|].
  change (String x (a ++ "") = String x a)%string. f_equal. exact IH.
Qed.

Lemma map_insert_same {A B} (f : A -> B) (ls : list A) i x y :
  ls !! i = Some x -> f y = f x -> map f (<[i := y]> ls) = map f ls.
Proof.
  revert i. induction ls as [|z ls IH]; intros [|i]; simpl; try discriminate.
  - intros [= ->] ->. reflexivity.
  - intros H Hf. rewrite (IH i H Hf). reflexivity.
Qed.

Lemma flat_map_insert {A B} (f : A -> list B) (ls : list A) i x y :
  ls !! i = Some x ->
  Permutation (flat_map f (<[i := y]> ls) ++ f x) (flat_map f ls ++ f y).
Proof.
  revert i. induction ls as [|z ls IH]; intros [|i]; simpl; try discriminate.
  - intros [= ->]. rewrite <- !List.app_assoc.
    rewrite (Permutation_app_comm (f y)), <- List.app_assoc.
    apply Permutation_app_swap_app.
  - intros H. rewrite <- !List.app_assoc. apply Permutation_app_head, IH, H.
Qed.

Lemma elements_move (ls : list LayoutList) i L a :
  ls !! i = Some L -> Permutation a (items L) ->
  Permutation (flat_map items (<[i := with_items L a]> ls)) (flat_map items ls).
Proof.
  intros HL Ha. apply (Permutation_app_inv_r (items L)).
  rewrite (flat_map_insert items ls i L (with_items L a) HL). simpl.
  apply Permutation_app_head, Ha.
Qed.

Lemma elements_transfer (ls : list LayoutList) i j Li Lj a b :
  ls !! i = Some Li -> ls !! j = Some Lj -> i <> j ->
  Permutation (a ++ b) (items Li ++ items Lj) ->
  Permutation
    (flat_map items (<[j := with_items Lj b]> (<[i := with_items Li a]> ls)))
    (flat_map items ls).
Proof.
  intros Hi Hj Hne Hab.
  assert (Hj' : <[i := with_items Li a]> ls !! j = Some Lj)
    by (rewrite list_lookup_insert_ne by exact Hne; exact Hj).
  pose proof (flat_map_insert items _ j Lj (with_items Lj b) Hj') as P2.
  pose proof (flat_map_insert items ls i Li (with_items Li a) Hi) as P1.
  simpl in P1, P2.
  apply (Permutation_app_inv_r (items Lj ++ items Li)).
  rewrite List.app_assoc, P2. rewrite <- List.app_assoc, (Permutation_app_comm b (items Li)).
  rewrite List.app_assoc, P1. rewrite <- !List.app_assoc. apply Permutation_app_head.
  rewrite Hab. apply Permutation_app_comm.
Qed.

Lemma moveItemInArray_Permutation {A} (l : list A) from to :
  Permutation (Cdk.moveItemInArray l from to) l.
Proof.
  unfold Cdk.moveItemInArray. destruct (_ =? _)%Z; [reflexivity|].
  destruct (at_index l _) as [x|] eqn:Hx; [|reflexivity].
  etransitivity; [symmetry; apply splice_insert_Permutation|].
  symmetry. apply splice_remove_Permutation, Hx.
Qed.

Lemma transferArrayItem_Permutation {A} (src tgt : list A) from to :
  let r := Cdk.transferArrayItem src tgt from to in
  Permutation (fst r ++ snd r) (src ++ tgt).
Proof.
  unfold Cdk.transferArrayItem.
  destruct (at_index src _) as [x|] eqn:Hx; simpl; [|reflexivity].
  etransitivity; [apply Permutation_app_head; symmetry; apply splice_insert_Permutation|].
  etransitivity; [symmetry; apply Permutation_middle|].
  apply (Permutation_app_tail tgt (l := x :: _)).
  symmetry. apply splice_remove_Permutation, Hx.
Qed.

(** ** Connected lists *)

Lemma containerNames_connect names l : containerNames (connect names l) = containerNames l.
Proof.
  unfold containerNames, connect. simpl. rewrite map_map. reflexivity.
Qed.

Lemma elements_connect names l : elements (connect names l) = elements l.
Proof.
  unfold elements, connect. simpl. induction (lists l) as [|L ls IH]; simpl; congruence.
Qed.

Lemma connected_reconnect l : connected (reconnect l).
Proof.
  unfold reconnect. intros L HL cn. rewrite containerNames_connect.
  unfold connect in HL. simpl in HL. apply in_map_iff in HL as (L0 & <- & _). simpl.
  rewrite filter_In, negb_true_iff, String.eqb_neq. reflexivity.
Qed.

(** Completeness speaks of the container names and the [connectedTo] of
    the lists only. *)
Lemma connected_ext l l' :
  map containerName (lists l') = map containerName (lists l) ->
  map connectedTo (lists l') = map connectedTo (lists l) ->
  connected l -> connected l'.
Proof.
  intros Hn Hc H L' HL' cn. unfold containerNames. rewrite Hn.
  apply In_nth_error in HL' as [k Hk].
  assert (Hk1 : nth_error (map containerName (lists l)) k = Some (containerName L'))
    by (rewrite <- Hn; apply map_nth_error, Hk).
  assert (Hk2 : nth_error (map connectedTo (lists l)) k = Some (connectedTo L'))
    by (rewrite <- Hc; apply map_nth_error, Hk).
  rewrite nth_error_map in Hk1, Hk2.
  destruct (nth_error (lists l) k) as [L|] eqn:HL; [|discriminate].
  simpl in Hk1, Hk2. injection Hk1 as <-. injection Hk2 as <-.
  apply H. eapply nth_error_In, HL.
Qed.

Lemma mem_In x l : mem x l = true <-> In x l.
Proof.
  unfold mem. rewrite existsb_exists. split.
  - intros (y & Hy & Heq). apply String.eqb_eq in Heq. subst y. exact Hy.
  - intros H. exists x. split; [exact H | apply String.eqb_refl].
Qed.

Lemma is_connected_spec l : is_connected l = true <-> connected l.
Proof.
  unfold is_connected, connected. rewrite forallb_forall. split.
  - intros H L HL cn. specialize (H L HL). apply andb_true_iff in H as [H1 H2].
    rewrite forallb_forall in H1, H2. split.
    + intros Hcn. specialize (H1 cn Hcn). apply andb_true_iff in H1 as [Hm Hne].
      apply mem_In in Hm. apply negb_true_iff, String.eqb_neq in Hne. auto.
    + intros [Hcn Hne]. specialize (H2 cn Hcn). apply orb_true_iff in H2 as [Heq|Hm].
      * apply String.eqb_eq in Heq. contradiction.
      * apply mem_In, Hm.
  - intros H L HL. specialize (H L HL). apply andb_true_iff. split; apply forallb_forall.
    + intros cn Hcn. apply H in Hcn as [Hm Hne]. apply andb_true_iff. split.
      * apply mem_In, Hm.
      * apply negb_true_iff, String.eqb_neq, Hne.
    + intros cn Hcn. apply orb_true_iff.
      destruct (String.eqb_spec cn (containerName L)) as [Heq|Hne]; [left; reflexivity|].
      right. apply mem_In, H. auto.
Qed.

(** What is emitted is the active layout with its lists connected, and
    complete, whatever the [connectedTo] in the state. *)
Lemma emittedLayout_connected c l :
  activeLayout c = Some l ->
  emittedLayout c = (ok (Some (reconnect l)), c) /\ connected (reconnect l).
Proof.
  intros H. split; [|apply connected_reconnect]. unfold emittedLayout.
  destruct (returns_currentLayout c l (fun o c' => o = Some l /\ c' = c) H)
    as (o & c' & Heq & -> & ->); [auto|].
  rewrite (bind_ok _ _ _ _ _ Heq). apply getConnectedLists_eq, H.
Qed.

(** ** The mutators *)

Lemma addColumnRightPressed_returns c l :
  activeLayout c = Some l ->
  returns addColumnRightPressed c (fun _ c' =>
    exists guid,
      activeLayout c' = Some (reconnect {| lists := lists l ++ [emptyList guid] |})).
Proof.
  intros H. unfold addColumnRightPressed.
  apply returns_bind, (returns_currentLists c l); [exact H|].
  apply returns_bind, returns_getEmptyList. intros c1 guid H1.
  apply returns_bind, returns_set_currentLayout. intros c2 H2 _ _.
  apply (returns_updateLayout c2 _ _ H2). eauto.
Qed.

Lemma addColumnLeftPressed_returns c l :
  activeLayout c = Some l ->
  returns addColumnLeftPressed c (fun _ c' =>
    exists guid,
      activeLayout c' = Some (reconnect {| lists := emptyList guid :: lists l |})).
Proof.
  intros H. unfold addColumnLeftPressed.
  apply returns_bind, (returns_currentLayout c l); [exact H|].
  apply returns_bind, returns_getEmptyList. intros c1 guid H1. rewrite H in H1.
  apply returns_bind, (returns_currentLists c1 l); [exact H1|].
  apply returns_bind, returns_set_currentLayout. intros c2 H2 _ _.
  apply (returns_updateLayout c2 _ _ H2). eauto.
Qed.

Lemma removeColumnLeftPressed_returns c l l0 l1 rest :
  activeLayout c = Some l ->
  lists l = l0 :: l1 :: rest ->
  returns removeColumnLeftPressed c (fun _ c' =>
    activeLayout c' = Some (reconnect {| lists := with_items l1 (items l1 ++ items l0) :: rest |})).
Proof.
  intros H Hl. unfold removeColumnLeftPressed.
  apply returns_bind, (returns_currentLists c l); [exact H|]. rewrite Hl.
  apply returns_bind, (returns_defined _ l0); [reflexivity|].
  apply returns_bind, (returns_currentLists c l); [exact H|]. rewrite Hl.
  apply returns_bind, (returns_defined _ l1); [reflexivity|].
  apply returns_bind, (returns_mutateLists _ c l); [exact H|]. intros c1 H1.
  apply returns_bind, (returns_currentLists c1 _ _ H1). rewrite Hl. simpl.
  apply returns_bind, returns_set_currentLayout. intros c2 H2 _ _.
  apply (returns_updateLayout c2 _ _ H2). auto.
Qed.

Lemma at_index_last {A} (front : list A) x :
  at_index (front ++ [x]) (Z.of_nat (length (front ++ [x])) - 1) = Some x.
Proof.
  rewrite length_app. simpl.
  replace (Z.of_nat (length front + 1) - 1)%Z with (Z.of_nat (length front)) by lia.
  apply at_index_middle.
Qed.

Lemma pop_last {A} (front : list A) x :
  take (length (front ++ [x]) - 1) (front ++ [x]) = front.
Proof.
  rewrite length_app. simpl. replace (length front + 1 - 1)%nat with (length front) by lia.
  apply take_app_length.
Qed.

Lemma insert_last {A} (front : list A) x y :
  <[(length (front ++ [x]) - 1)%nat := y]> (front ++ [x]) = front ++ [y].
Proof.
  rewrite length_app. simpl.
  replace (length front + 1 - 1)%nat with (length front + 0)%nat by lia.
  rewrite insert_app_r. reflexivity.
Qed.

Lemma removeColumnRightPressed_returns c l front l1 l0 :
  activeLayout c = Some l ->
  lists l = (front ++ [l1]) ++ [l0] ->
  returns removeColumnRightPressed c (fun _ c' =>
    activeLayout c'
    = Some (reconnect {| lists := front ++ [with_items l1 (items l1 ++ items l0)] |})).
Proof.
  intros H Hl. unfold removeColumnRightPressed.
  apply returns_bind, (returns_currentLists c l); [exact H|]. rewrite Hl.
  apply returns_bind, (returns_defined _ l0); [apply at_index_last|].
  apply returns_bind, (returns_mutateLists _ c l); [exact H|]. intros c1 H1.
  rewrite Hl, pop_last in H1.
  apply returns_bind, (returns_currentLists c1 _ _ H1). simpl.
  apply returns_bind, (returns_defined _ l1); [apply at_index_last|].
  apply returns_bind, (returns_mutateLists _ c1 _ _ H1). intros c2 H2. simpl in H2.
  rewrite insert_last in H2.
  apply returns_bind, (returns_currentLists c2 _ _ H2). simpl.
  apply returns_bind, returns_set_currentLayout. intros c3 H3 _ _.
  apply (returns_updateLayout c3 _ _ H3). auto.
Qed.

Lemma resetPressed_returns c l dl :
  activeLayout c = Some l ->
  variant (defaultLayout c) (_layoutType c) = Some dl ->
  returns resetPressed c (fun _ c' =>
    activeLayout c' = Some (connect (containerNames l) dl)).
Proof.
  intros H Hd. unfold resetPressed.
  apply returns_bind, returns_read. apply returns_bind, returns_read. rewrite Hd.
  apply returns_bind, (returns_getConnectedLists c l); [exact H|].
  apply returns_set_currentLayout. auto.
Qed.

Lemma drop_move_returns c l event i L :
  activeLayout c = Some l ->
  Cdk.same_object (Cdk.previousContainer event) (Cdk.container event) = true ->
  bound l (Cdk.container event) i L ->
  returns (drop event) c (fun _ c' =>
    activeLayout c'
    = Some {| lists :=
                <[i := with_items L
                         (Cdk.moveItemInArray (items L) (Cdk.previousIndex event)
                            (Cdk.currentIndex event))]> (lists l) |}).
Proof.
  intros H Hsame (Hi & HL & Hdata). unfold drop.
  apply returns_bind, (returns_currentLayout c l); [exact H|]. rewrite Hsame.
  apply returns_bind, (returns_currentLists c l); [exact H|].
  fold (containerNames l). rewrite Hi, Hdata.
  apply returns_bind, (returns_assignItems c l i L); [exact H | exact HL |]. intros c1 H1.
  apply returns_bind, (returns_currentLayout c1 _ _ H1).
  apply returns_set_currentLayout. auto.
Qed.

Lemma drop_transfer_returns c l event i Li j Lj :
  activeLayout c = Some l ->
  Cdk.same_object (Cdk.previousContainer event) (Cdk.container event) = false ->
  bound l (Cdk.previousContainer event) i Li ->
  bound l (Cdk.container event) j Lj ->
  i <> j ->
  let moved :=
    Cdk.transferArrayItem (items Li) (items Lj)
      (Cdk.previousIndex event) (Cdk.currentIndex event) in
  returns (drop event) c (fun _ c' =>
    activeLayout c'
    = Some {| lists := <[j := with_items Lj (snd moved)]>
                         (<[i := with_items Li (fst moved)]> (lists l)) |}).
Proof.
  intros H Hsame (Hi & HLi & Hdi) (Hj & HLj & Hdj) Hne moved. unfold drop.
  apply returns_bind, (returns_currentLayout c l); [exact H|]. rewrite Hsame.
  apply returns_bind, (returns_currentLists c l); [exact H|].
  fold (containerNames l). rewrite Hi, Hj, Hdi, Hdj. fold moved.
  apply returns_bind, (returns_assignItems c l i Li); [exact H | exact HLi |]. intros c1 H1.
  apply returns_bind, (returns_assignItems c1 _ j Lj _ _ H1).
  { simpl. rewrite list_lookup_insert_ne by exact Hne. exact HLj. }
  intros c2 H2. simpl in H2.
  apply returns_bind, (returns_currentLayout c2 _ _ H2).
  apply returns_set_currentLayout. auto.
Qed.

Lemma two_last {A} (ls : list A) :
  (2 <= length ls)%nat -> exists front x y, ls = (front ++ [x]) ++ [y].
Proof.
  destruct ls as [|a ls] using rev_ind; [simpl; lia|].
  destruct ls as [|b ls] using rev_ind; [simpl; lia|]. eauto.
Qed.

Lemma returns_unit (m : M unit) c (P : Component -> Prop) :
  returns m c (fun _ c' => P c') -> exists c', m c = (ok tt, c') /\ P c'.
Proof. intros ([] & c' & Hm & HP). eauto. Qed.

Lemma componentNames_Permutation l l' :
  Permutation (elements l) (elements l') ->
  Permutation (componentNames l) (componentNames l').
Proof. apply Permutation_map. Qed.

Lemma no_duplication_Permutation l l' :
  Permutation (componentNames l) (componentNames l') -> no_duplication l -> no_duplication l'.
Proof. unfold no_duplication. intros ->. auto. Qed.

(** What each operation of the claims makes of the elements, the
    container names and the connections of the active layout. *)
Lemma perform_returns c l op :
  activeLayout c = Some l ->
  applicable c l op ->
  exists c' l',
    perform op c = (ok tt, c') /\ activeLayout c' = Some l'
    /\ match op with
       | Reset =>
           exists dl, variant (defaultLayout c) (_layoutType c) = Some dl
                      /\ l' = connect (containerNames l) dl
       | Drop _ =>
           Permutation (elements l) (elements l')
           /\ map containerName (lists l') = map containerName (lists l)
           /\ map connectedTo (lists l') = map connectedTo (lists l)
       | _ =>
           Permutation (elements l) (elements l') /\ connected l'
       end.
Proof.
  intros H Happ. destruct op as [event| | | | |]; simpl in Happ |- *.
  - destruct (Cdk.same_object _ _) eqn:Hsame.
    + destruct Happ as (i & L & Hb).
      destruct (returns_unit _ _ _ (drop_move_returns c l event i L H Hsame Hb))
        as (c' & Hrun & Hc').
      destruct Hb as (_ & HL & _).
      eexists c', _. split; [exact Hrun|]. split; [exact Hc'|]. simpl.
      split; [|split].
      * symmetry. apply elements_move; [exact HL | apply moveItemInArray_Permutation].
      * apply (map_insert_same containerName _ _ L); [exact HL | reflexivity].
      * apply (map_insert_same connectedTo _ _ L); [exact HL | reflexivity].
    + destruct Happ as (i & Li & j & Lj & Hbi & Hbj & Hne).
      destruct (returns_unit _ _ _
                  (drop_transfer_returns c l event i Li j Lj H Hsame Hbi Hbj Hne))
        as (c' & Hrun & Hc').
      destruct Hbi as (_ & HLi & _). destruct Hbj as (_ & HLj & _).
      assert (HLj' : <[i := with_items Li
                              (fst (Cdk.transferArrayItem (items Li) (items Lj)
                                      (Cdk.previousIndex event) (Cdk.currentIndex event)))]>
                       (lists l) !! j = Some Lj)
        by (rewrite list_lookup_insert_ne by exact Hne; exact HLj).
      eexists c', _. split; [exact Hrun|]. split; [exact Hc'|]. simpl.
      split; [|split].
      * symmetry. apply elements_transfer; try assumption.
        apply transferArrayItem_Permutation.
      * rewrite (map_insert_same containerName _ _ Lj) by (exact HLj' || reflexivity).
        apply (map_insert_same containerName _ _ Li); [exact HLi | reflexivity].
      * rewrite (map_insert_same connectedTo _ _ Lj) by (exact HLj' || reflexivity).
        apply (map_insert_same connectedTo _ _ Li); [exact HLi | reflexivity].
  - destruct (returns_unit _ _ _ (addColumnLeftPressed_returns c l H))
      as (c' & Hrun & guid & Hc').
    eexists c', _. split; [exact Hrun|]. split; [exact Hc'|].
    split; [|apply connected_reconnect].
    unfold reconnect. rewrite elements_connect. reflexivity.
  - destruct (returns_unit _ _ _ (addColumnRightPressed_returns c l H))
      as (c' & Hrun & guid & Hc').
    eexists c', _. split; [exact Hrun|]. split; [exact Hc'|].
    split; [|apply connected_reconnect].
    unfold reconnect. rewrite elements_connect. unfold elements. simpl.
    rewrite flat_map_app. simpl. rewrite !app_nil_r. reflexivity.
  - destruct (lists l) as [|l0 [|l1 rest]] eqn:Hl; simpl in Happ; try lia.
    destruct (returns_unit _ _ _ (removeColumnLeftPressed_returns c l l0 l1 rest H Hl))
      as (c' & Hrun & Hc').
    eexists c', _. split; [exact Hrun|]. split; [exact Hc'|].
    split; [|apply connected_reconnect].
    unfold reconnect. rewrite elements_connect. unfold elements. rewrite Hl. simpl.
    rewrite <- List.app_assoc. apply Permutation_app_swap_app.
  - destruct (two_last _ Happ) as (front & l1 & l0 & Hl).
    destruct (returns_unit _ _ _ (removeColumnRightPressed_returns c l front l1 l0 H Hl))
      as (c' & Hrun & Hc').
    eexists c', _. split; [exact Hrun|]. split; [exact Hc'|].
    split; [|apply connected_reconnect].
    unfold reconnect. rewrite elements_connect. unfold elements. rewrite Hl. simpl.
    rewrite !flat_map_app. simpl. rewrite !app_nil_r, <- List.app_assoc. reflexivity.
  - destruct Happ as (dl & Hd).
    destruct (returns_unit _ _ _ (resetPressed_returns c l dl H Hd)) as (c' & Hrun & Hc').
    eexists c', _. split; [exact Hrun|]. split; [exact Hc'|]. eauto.
Qed.

(** C7: on an active layout in which no component name is listed twice,
    every mutator (a move within one of its lists, a transfer between two
    of its lists, a column added, a column removed while two are left, a
    reset to a default layout in which no name is listed twice) gives an
    active layout in which no component name is listed twice; but for the
    reset, which gives the component names of the default layout, the
    names are those of the layout before. *)
Theorem C7_no_duplication_preserved (c : Component) (l : CustomizableLayout) (op : Op) :
  activeLayout c = Some l ->
  no_duplication l ->
  (forall dl, op = Reset -> variant (defaultLayout c) (_layoutType c) = Some dl ->
              no_duplication dl) ->
  applicable c l op ->
  exists c' l',
    perform op c = (ok tt, c') /\ activeLayout c' = Some l'
    /\ no_duplication l'
    /\ match op with
       | Reset =>
           exists dl, variant (defaultLayout c) (_layoutType c) = Some dl
                      /\ componentNames l' = componentNames dl
       | _ => Permutation (componentNames l) (componentNames l')
       end.
Proof.
  intros H Hnd Hdefault Happ.
  destruct (perform_returns c l op H Happ) as (c' & l' & Hrun & Hc' & Hop).
  exists c', l'. split; [exact Hrun|]. split; [exact Hc'|].
  destruct op; try (destruct Hop as [Hperm _]; apply componentNames_Permutation in Hperm;
                    split; [exact (no_duplication_Permutation _ _ Hperm Hnd) | exact Hperm]).
  destruct Hop as (dl & Hd & ->).
  assert (Hnames : componentNames (connect (containerNames l) dl) = componentNames dl)
    by (unfold componentNames; rewrite elements_connect; reflexivity).
  split; [|eauto]. unfold no_duplication. rewrite Hnames. apply (Hdefault dl eq_refl Hd).
Qed.

(** Scenarios D and E, and a reset: a transfer from list "A" to list "B",
    the removal of the right column, and the reset of a layout that has a
    component the default layout lacks. *)
Lemma C7_no_duplication_preserved_witness :
  let c :=
    snd (ngOnInit
           (Sample.component
              (Sample.config 1 [Sample.column "A" ["r"; "s"]; Sample.column "B" ["p"; "q"]])
              ∅)) in
  let event :=
    {| Cdk.previousContainer :=
         {| Cdk.id := "A"; Cdk.data := map Sample.element ["r"; "s"]; Cdk.ref := 0 |};
       Cdk.container :=
         {| Cdk.id := "B"; Cdk.data := map Sample.element ["p"; "q"]; Cdk.ref := 1 |};
       Cdk.previousIndex := 0; Cdk.currentIndex := 1 |} in
  let d :=
    snd (ngOnInit
           (Sample.component (Sample.config 1 [Sample.column "A" ["x"]])
              (Sample.stored (Sample.config 1 [Sample.column "A" ["x"; "w"]])))) in
  (exists c' l',
      drop event c = (ok tt, c') /\ activeLayout c' = Some l'
      /\ no_duplication l' /\ Permutation ["r"; "s"; "p"; "q"] (componentNames l'))
  /\ (exists c' l',
         removeColumnRightPressed c = (ok tt, c') /\ activeLayout c' = Some l'
         /\ no_duplication l' /\ Permutation ["r"; "s"; "p"; "q"] (componentNames l'))
  /\ (exists d' l',
         resetPressed d = (ok tt, d') /\ activeLayout d' = Some l'
         /\ no_duplication l'
         /\ exists dl, variant (defaultLayout d) (_layoutType d) = Some dl
                       /\ componentNames l' = componentNames dl).
Proof.
  split; [|split].
  - apply (C7_no_duplication_preserved
             (snd (ngOnInit
                     (Sample.component
                        (Sample.config 1
                           [Sample.column "A" ["r"; "s"]; Sample.column "B" ["p"; "q"]])
                        ∅)))
             (Sample.layout [Sample.column "A" ["r"; "s"]; Sample.column "B" ["p"; "q"]])
             (Drop
                {| Cdk.previousContainer :=
                     {| Cdk.id := "A"; Cdk.data := map Sample.element ["r"; "s"];
                        Cdk.ref := 0 |};
                   Cdk.container :=
                     {| Cdk.id := "B"; Cdk.data := map Sample.element ["p"; "q"];
                        Cdk.ref := 1 |};
                   Cdk.previousIndex := 0; Cdk.currentIndex := 1 |})).
    + reflexivity.
    + apply (@bool_decide_unpack _ (no_duplication_dec _)). vm_compute. exact I.
    + discriminate.
    + simpl. exists 0%nat, (Sample.column "A" ["r"; "s"]), 1%nat, (Sample.column "B" ["p"; "q"]).
      repeat split; try reflexivity. lia.
  - apply (C7_no_duplication_preserved
             (snd (ngOnInit
                     (Sample.component
                        (Sample.config 1
                           [Sample.column "A" ["r"; "s"]; Sample.column "B" ["p"; "q"]])
                        ∅)))
             (Sample.layout [Sample.column "A" ["r"; "s"]; Sample.column "B" ["p"; "q"]])
             RemoveColumnRight).
    + reflexivity.
    + apply (@bool_decide_unpack _ (no_duplication_dec _)). vm_compute. exact I.
    + discriminate.
    + simpl. lia.
  - apply (C7_no_duplication_preserved
             (snd (ngOnInit
                     (Sample.component (Sample.config 1 [Sample.column "A" ["x"]])
                        (Sample.stored (Sample.config 1 [Sample.column "A" ["x"; "w"]])))))
             (Sample.layout [Sample.column "A" ["x"; "w"]])
             Reset).
    + vm_compute. reflexivity.
    + apply (@bool_decide_unpack _ (no_duplication_dec _)). vm_compute. exact I.
    + intros dl _ Hd. vm_compute in Hd. injection Hd as <-.
      apply (@bool_decide_unpack _ (no_duplication_dec _)). vm_compute. exact I.
    + simpl. eexists. vm_compute. reflexivity.
Defined.

(** C4, as stated, fails: a move inside list "A" right after
    initialization leaves the [connectedTo] of the default configuration,
    which does not name list "B"; and a reset after a column was added
    connects the default lists to the added column, which the layout no
    longer has. *)
Lemma C4_connectedTo_not_complete_on_sample :
  let default := Sample.config 1 [Sample.column "A" ["x"; "y"]; Sample.column "B" ["z"]] in
  let c := snd (ngOnInit (Sample.component default ∅)) in
  let list_A := {| Cdk.id := "A"; Cdk.data := map Sample.element ["x"; "y"]; Cdk.ref := 0 |} in
  let event := {| Cdk.previousContainer := list_A; Cdk.container := list_A;
                  Cdk.previousIndex := 0; Cdk.currentIndex := 1 |} in
  (exists c' l',
      drop event c = (ok tt, c') /\ activeLayout c' = Some l'
      /\ map connectedTo (lists l') = [[]; []]
      /\ is_connected l' = false /\ ~ connected l')
  /\ (exists c' l',
         (addColumnRightPressed ;; resetPressed)%method c = (ok tt, c')
         /\ activeLayout c' = Some l'
         /\ containerNames l' = ["A"; "B"]
         /\ map connectedTo (lists l') = [["B"; "column-0"]; ["A"; "column-0"]]
         /\ is_connected l' = false /\ ~ connected l').
Proof.
  intros default c list_A event. split.
  - exists (snd (drop event c)),
           (Sample.layout [Sample.column "A" ["y"; "x"]; Sample.column "B" ["z"]]).
    split; [vm_compute; reflexivity|]. split; [vm_compute; reflexivity|].
    split; [reflexivity|]. split; [reflexivity|].
    intros H. apply is_connected_spec in H. vm_compute in H. discriminate.
  - exists (snd ((addColumnRightPressed ;; resetPressed)%method c)),
           {| lists := [with_connectedTo (Sample.column "A" ["x"; "y"]) ["B"; "column-0"];
                        with_connectedTo (Sample.column "B" ["z"]) ["A"; "column-0"]] |}.
    split; [vm_compute; reflexivity|]. split; [vm_compute; reflexivity|].
    split; [reflexivity|]. split; [reflexivity|]. split; [reflexivity|].
    intros H. apply is_connected_spec in H. vm_compute in H. discriminate.
Qed.

(** C4, amended: after every operation, reset included, the layout
    that is emitted for the resulting active layout has the lists of that
    layout, each connected to the other container names of the layout.  In
    the state itself the connections are complete after a column is added
    and after a column is removed while two are left; a move within a list
    and a transfer between lists change neither the container names nor
    the [connectedTo] of the lists, so they keep the connections complete
    where they were.  (What a reset leaves in the [connectedTo] of the
    state is not part of the statement.) *)
Theorem C4_connectedTo_complete (c : Component) (l : CustomizableLayout) (op : Op) :
  activeLayout c = Some l ->
  applicable c l op ->
  exists c' l',
    perform op c = (ok tt, c') /\ activeLayout c' = Some l'
    /\ (exists emitted,
          emittedLayout c' = (ok (Some emitted), c')
          /\ containerNames emitted = containerNames l'
          /\ map items (lists emitted) = map items (lists l')
          /\ connected emitted)
    /\ (column_change op = true -> connected l')
    /\ (forall event, op = Drop event ->
          containerNames l' = containerNames l
          /\ map connectedTo (lists l') = map connectedTo (lists l)
          /\ (connected l -> connected l')).
Proof.
  intros H Happ.
  destruct (perform_returns c l op H Happ) as (c' & l' & Hrun & Hc' & Hpost).
  exists c', l'. split; [exact Hrun|]. split; [exact Hc'|]. split; [|split].
  - exists (reconnect l'). destruct (emittedLayout_connected c' l' Hc') as [Hemit Hconn].
    split; [exact Hemit|]. split; [apply containerNames_connect|]. split; [|exact Hconn].
    unfold reconnect, connect. simpl. rewrite map_map. reflexivity.
  - destruct op; simpl; try discriminate; intros _; destruct Hpost as [_ Hconn]; exact Hconn.
  - intros event ->. destruct Hpost as (_ & Hn & Hconn).
    split; [exact Hn|]. split; [exact Hconn|]. apply connected_ext; assumption.
Qed.

Lemma C4_connectedTo_complete_witness :
  let c :=
    snd (ngOnInit
           (Sample.component
              (Sample.config 1 [Sample.column "A" ["x"; "y"]; Sample.column "B" ["z"]]) ∅)) in
  let connected_default :=
    Sample.layout [with_connectedTo (Sample.column "A" ["x"; "y"]) ["B"];
                   with_connectedTo (Sample.column "B" ["z"]) ["A"]] in
  (exists c' l',
      addColumnLeftPressed c = (ok tt, c') /\ activeLayout c' = Some l' /\ connected l')
  /\ (exists c' l',
         resetPressed (snd (addColumnRightPressed c)) = (ok tt, c')
         /\ activeLayout c' = Some l'
         /\ emittedLayout c' = (ok (Some connected_default), c')
         /\ connected connected_default).
Proof.
  split.
  - destruct (C4_connectedTo_complete
                (snd (ngOnInit
                        (Sample.component
                           (Sample.config 1
                              [Sample.column "A" ["x"; "y"]; Sample.column "B" ["z"]]) ∅)))
                (Sample.layout [Sample.column "A" ["x"; "y"]; Sample.column "B" ["z"]])
                AddColumnLeft)
      as (c' & l' & Hrun & Hc' & _ & Hconn & _); [reflexivity | exact I |].
    exists c', l'. split; [exact Hrun|]. split; [exact Hc'|]. apply Hconn. reflexivity.
  - destruct (C4_connectedTo_complete
                (snd (addColumnRightPressed
                        (snd (ngOnInit
                                (Sample.component
                                   (Sample.config 1
                                      [Sample.column "A" ["x"; "y"]; Sample.column "B" ["z"]])
                                   ∅)))))
                {| lists := [with_connectedTo (Sample.column "A" ["x"; "y"]) ["B"; "column-0"];
                             with_connectedTo (Sample.column "B" ["z"]) ["A"; "column-0"];
                             with_connectedTo (emptyList "column-0") ["A"; "B"]] |}
                Reset)
      as (c' & l' & Hrun & Hc' & (emitted & Hemit & _ & _ & Hconn) & _);
      [reflexivity | eexists; reflexivity |].
    exists c', l'. split; [exact Hrun|]. split; [exact Hc'|].
    simpl in Hrun. injection Hrun as <-.
    vm_compute in Hemit. injection Hemit as <-.
    split; [vm_compute; reflexivity | exact Hconn].
Defined.

(** C10: on a layout with fewer than two lists both column removals
    throw a TypeError; the left one leaves the component as it was, the
    right one has by then popped the list the layout had. *)
Theorem C10_remove_last_column_throws (c : Component) (l : CustomizableLayout) :
  activeLayout c = Some l ->
  (length (lists l) < 2)%nat ->
  removeColumnLeftPressed c = (throw TypeError, c)
  /\ exists c', removeColumnRightPressed c = (throw TypeError, c')
                /\ activeLayout c' = Some {| lists := [] |}.
Proof.
  intros H Hlen. split.
  - assert (Hthrows : throws removeColumnLeftPressed c TypeError (fun c' => c' = c)).
    { unfold removeColumnLeftPressed.
      apply throws_bind_later, (returns_currentLists c l); [exact H|].
      destruct (lists l) as [|x [|y rest]] eqn:Hl; simpl in Hlen; [| |lia].
      - apply throws_bind_now, throws_undefined. reflexivity.
      - apply throws_bind_later, (returns_defined _ x); [reflexivity|].
        apply throws_bind_later, (returns_currentLists c l); [exact H|]. rewrite Hl.
        apply throws_bind_now, throws_undefined. reflexivity. }
    destruct Hthrows as (c' & Hrun & ->). exact Hrun.
  - unfold removeColumnRightPressed.
    apply throws_bind_later, (returns_currentLists c l); [exact H|].
    destruct (lists l) as [|x [|y rest]] eqn:Hl; simpl in Hlen; [| |lia].
    + apply throws_bind_now, throws_undefined.
      destruct l as [ls]. simpl in Hl. subst ls. exact H.
    + apply throws_bind_later, (returns_defined _ x); [reflexivity|].
      apply throws_bind_later, (returns_mutateLists _ c l); [exact H|]. intros c1 H1.
      rewrite Hl in H1. simpl in H1.
      apply throws_bind_later, (returns_currentLists c1 _ _ H1).
      apply throws_bind_now, throws_undefined. exact H1.
Qed.

Lemma C10_remove_last_column_throws_witness :
  let c := snd (ngOnInit (Sample.component (Sample.config 1 [Sample.column "A" ["x"]]) ∅)) in
  removeColumnLeftPressed c = (throw TypeError, c)
  /\ exists c', removeColumnRightPressed c = (throw TypeError, c')
                /\ activeLayout c' = Some {| lists := [] |}.
Proof.
  apply (C10_remove_last_column_throws
           (snd (ngOnInit (Sample.component (Sample.config 1 [Sample.column "A" ["x"]]) ∅)))
           (Sample.layout [Sample.column "A" ["x"]])).
  - reflexivity.
  - simpl. lia.
Defined.

(** ** The grid tracks *)

Lemma fold_left_widths (ws : list string) (acc : string) :
  fold_left (fun cur prev => (cur ++ " " ++ prev)%string) ws acc
  = (acc ++ match ws with
            | [] => ""
            | _ => " " ++ String.concat " " ws
            end)%string.
Proof.
  revert acc. induction ws as [|w ws IH]; intros acc; simpl.
  - symmetry. apply string_app_nil_r.
  - rewrite IH. destruct ws as [|w' ws].
    + rewrite string_app_nil_r. reflexivity.
    + rewrite !string_app_assoc. reflexivity.
Qed.

(** C5, as stated, fails: with two lists of width 1fr the text starts
    with a space. *)
Lemma C5_columns_start_with_a_space :
  let c := snd (ngOnInit (Sample.component
                            (Sample.config 1 [Sample.column "A" ["x"]; Sample.column "B" []])
                            ∅)) in
  activeLayout c = Some (Sample.layout [Sample.column "A" ["x"]; Sample.column "B" []])
  /\ joined_widths (Sample.layout [Sample.column "A" ["x"]; Sample.column "B" []])
     = "1fr 1fr"%string
  /\ fst (currentColumns c) = ok " 1fr 1fr"%string
  /\ fst (currentColumns c)
     <> ok (joined_widths (Sample.layout [Sample.column "A" ["x"]; Sample.column "B" []])).
Proof. repeat split. vm_compute. discriminate. Qed.

(** C5, amended: the grid-track text is every width, in list order, each
    preceded by one space: one space and the widths joined by single
    spaces when there is a list, the empty text when there is none. *)
Theorem C5_currentColumns (c : Component) (l : CustomizableLayout) :
  activeLayout c = Some l ->
  currentColumns c
  = (ok (match lists l with
         | [] => ""
         | _ => " " ++ joined_widths l
         end)%string, c).
Proof.
  intros H. unfold currentColumns.
  rewrite (bind_ok _ _ _ _ _ (currentLists_eq c l H)). unfold ret.
  rewrite fold_left_widths. unfold joined_widths.
  destruct (lists l); reflexivity.
Qed.

Lemma C5_currentColumns_witness :
  currentColumns
    (snd (ngOnInit (Sample.component
                      (Sample.config 1 [Sample.column "A" ["x"]; Sample.column "B" []]) ∅)))
  = (ok " 1fr 1fr"%string,
     snd (ngOnInit (Sample.component
                      (Sample.config 1 [Sample.column "A" ["x"]; Sample.column "B" []]) ∅))).
Proof.
  apply (C5_currentColumns
           (snd (ngOnInit (Sample.component
                             (Sample.config 1 [Sample.column "A" ["x"]; Sample.column "B" []])
                             ∅)))
           (Sample.layout [Sample.column "A" ["x"]; Sample.column "B" []])).
  reflexivity.
Defined.

(** * Further properties of the component *)

(** ** What the methods leave alone *)

Lemma frame_refl c : frame c c.
Proof.
  unfold frame. repeat split. destruct (_layoutState c) as [config|]; [|exact I].
  exists config. auto.
Qed.

Lemma frame_trans c1 c2 c3 : frame c1 c2 -> frame c2 c3 -> frame c1 c3.
Proof.
  unfold frame. intros (Hd1 & Ht1 & Hb1 & Hw1 & H1) (Hd2 & Ht2 & Hb2 & Hw2 & H2).
  repeat split; try congruence.
  destruct (_layoutState c1) as [config1|]; [|exact I].
  destruct H1 as (config2 & Hs2 & Hn2 & Hv2 & Hvar2 & Hk2). rewrite Hs2 in H2.
  destruct H2 as (config3 & Hs3 & Hn3 & Hv3 & Hvar3 & Hk3).
  exists config3. split; [exact Hs3|]. split; [congruence|]. split; [congruence|]. split.
  - intros t Ht. rewrite Hvar3, Hvar2; congruence.
  - intros k Hk. rewrite Hk3, Hk2; congruence.
Qed.

Section Framed.
Context {A : Type}.

Lemma framed_bind {B} (m : M B) (k : B -> M A) :
  framed m -> (forall b, framed (k b)) -> framed (bind m k).
Proof.
  intros Hm Hk c r c'. unfold bind. destruct (m c) as [[e|b] c1] eqn:Hmc.
  - intros [= <- <-]. eapply Hm, Hmc.
  - intros Hkc. eapply frame_trans; [eapply Hm, Hmc | eapply Hk, Hkc].
Qed.

Lemma framed_same (m : M A) : (forall c, snd (m c) = c) -> framed m.
Proof.
  intros H c r c' Hm. specialize (H c). rewrite Hm in H. simpl in H. subst c'.
  apply frame_refl.
Qed.

Lemma framed_ret (a : A) : framed (ret a).
Proof. apply framed_same. reflexivity. Qed.

Lemma framed_read (f : Component -> A) : framed (read f).
Proof. apply framed_same. reflexivity. Qed.

Lemma framed_defined (o : option A) : framed (defined o).
Proof. apply framed_same. destruct o; reflexivity. Qed.

End Framed.

Lemma framed_currentLayout : framed currentLayout.
Proof.
  apply framed_same. intros c. unfold currentLayout. destruct (_layoutState c); reflexivity.
Qed.

Lemma framed_currentLists : framed currentLists.
Proof.
  unfold currentLists. apply framed_bind; [apply framed_currentLayout|]. intros layout.
  apply framed_bind; [apply framed_defined|]. intros l. apply framed_ret.
Qed.

Lemma framed_createGuid : framed createGuid.
Proof.
  intros c r c' [= <- <-]. unfold frame. simpl. repeat split.
  destruct (_layoutState c) as [config|]; [|exact I]. exists config. auto.
Qed.

Lemma framed_getEmptyList : framed getEmptyList.
Proof.
  unfold getEmptyList. apply framed_bind; [apply framed_createGuid|]. intros g.
  apply framed_ret.
Qed.

Lemma framed_set_currentLayout v : framed (set_currentLayout v).
Proof.
  intros c r c' [= <- <-]. unfold frame. simpl. repeat split.
  destruct (_layoutState c) as [config|]; [|exact I]. simpl.
  eexists. split; [reflexivity|].
  split; [destruct (_layoutType c); reflexivity|].
  split; [destruct (_layoutType c); reflexivity|]. split.
  - intros t Ht. apply variant_set_variant_ne, Ht.
  - intros k Hk. apply lookup_insert_ne.
    destruct (_layoutType c); simpl; congruence.
Qed.

Lemma framed_mutateLists f : framed (mutateLists f).
Proof.
  intros c r c'. unfold mutateLists.
  destruct (_layoutState c) as [config|] eqn:Hs.
  - destruct (variant config (_layoutType c)) as [layout|].
    + intros [= <- <-]. unfold frame. simpl. rewrite Hs. repeat split.
      eexists. split; [reflexivity|].
      split; [destruct (_layoutType c); reflexivity|].
      split; [destruct (_layoutType c); reflexivity|]. split; [|reflexivity].
      intros t Ht. apply variant_set_variant_ne, Ht.
    + intros [= <- <-]. apply frame_refl.
  - intros [= <- <-]. apply frame_refl.
Qed.

Lemma framed_mapM {A B} (f : A -> M B) (l : list A) :
  (forall a, framed (f a)) -> framed (mapM f l).
Proof.
  intros Hf. induction l as [|x l IH]; simpl; [apply framed_ret|].
  apply framed_bind; [apply Hf|]. intros y.
  apply framed_bind; [apply IH|]. intros ys. apply framed_ret.
Qed.

Lemma framed_getConnectedLists layout : framed (getConnectedLists layout).
Proof.
  destruct layout as [layout|]; simpl; [|apply framed_ret].
  apply framed_bind; [|intros ls; apply framed_ret].
  apply framed_mapM. intros L. apply framed_bind; [|intros conn; apply framed_ret].
  unfold getConnectedToString. apply framed_bind; [apply framed_currentLists|].
  intros ls. apply framed_ret.
Qed.

Lemma framed_updateLayout : framed updateLayout.
Proof.
  unfold updateLayout. apply framed_bind; [apply framed_currentLayout|]. intros layout.
  apply framed_bind; [apply framed_getConnectedLists|]. intros layout'.
  apply framed_set_currentLayout.
Qed.

Lemma framed_assignItems index data : framed (assignItems index data).
Proof.
  unfold assignItems. apply framed_bind; [apply framed_currentLists|]. intros ls.
  apply framed_bind; [apply framed_defined|]. intros l. apply framed_mutateLists.
Qed.

Ltac framed_steps :=
  repeat first
    [ apply framed_set_currentLayout | apply framed_updateLayout | apply framed_assignItems
    | apply framed_mutateLists | apply framed_getConnectedLists | apply framed_getEmptyList
    | apply framed_currentLists | apply framed_currentLayout | apply framed_defined
    | apply framed_read | apply framed_ret
    | (apply framed_bind; [|intros ?]) ].

Lemma framed_perform op : framed (perform op).
Proof.
  destruct op as [event| | | | |]; simpl.
  - unfold drop. apply framed_bind; [apply framed_currentLayout|]. intros layout.
    destruct (Cdk.same_object _ _); framed_steps.
  - unfold addColumnLeftPressed. framed_steps.
  - unfold addColumnRightPressed. framed_steps.
  - unfold removeColumnLeftPressed. framed_steps.
  - unfold removeColumnRightPressed. framed_steps.
  - unfold resetPressed. framed_steps.
Qed.

(** ** What the methods store *)

Section Silent.
Context {A : Type}.

Lemma silent_same (m : M A) :
  (forall c, snd (m c) = c) -> (forall c e, fst (m c) = throw e -> e = TypeError) -> silent m.
Proof.
  intros Hc He c r c' Hm. specialize (Hc c). specialize (He c). rewrite Hm in Hc, He.
  simpl in Hc, He. subst c'. auto.
Qed.

Lemma silent_ret (a : A) : silent (ret a).
Proof. apply silent_same; [reflexivity | discriminate]. Qed.

Lemma silent_read (f : Component -> A) : silent (read f).
Proof. apply silent_same; [reflexivity | discriminate]. Qed.

Lemma silent_defined (o : option A) : silent (defined o).
Proof.
  apply silent_same; destruct o; try reflexivity; simpl; intros c e [=]; auto.
Qed.

Lemma silent_bind {B} (m : M B) (k : B -> M A) :
  silent m -> (forall b, silent (k b)) -> silent (bind m k).
Proof.
  intros Hm Hk c r c'. unfold bind. destruct (m c) as [[e|b] c1] eqn:Hmc.
  - intros [= <- <-]. destruct (Hm _ _ _ Hmc) as [Hs He]. split; [exact Hs|].
    intros e' [= <-]. apply He. reflexivity.
  - intros Hkc. destruct (Hm _ _ _ Hmc) as [Hs _]. destruct (Hk _ _ _ _ Hkc) as [Hs' He].
    split; [congruence | exact He].
Qed.

Lemma careful_bind {B} (m : M B) (k : B -> M A) :
  silent m -> (forall b, careful (k b)) -> careful (bind m k).
Proof.
  intros Hm Hk c e c'. unfold bind. destruct (m c) as [[e1|b] c1] eqn:Hmc.
  - intros [= <- <-]. destruct (Hm _ _ _ Hmc) as [Hs He]. split; [apply He; reflexivity | exact Hs].
  - intros Hkc. destruct (Hm _ _ _ Hmc) as [Hs _]. destruct (Hk _ _ _ _ Hkc) as [He Hs'].
    split; [exact He | congruence].
Qed.

Lemma stores_bind {B} (m : M B) (k : B -> M A) :
  (forall b, stores (k b)) -> stores (bind m k).
Proof.
  intros Hk c a c'. unfold bind. destruct (m c) as [[e|b] c1]; [discriminate|].
  apply Hk.
Qed.

End Silent.

Lemma silent_currentLayout : silent currentLayout.
Proof.
  apply silent_same; intros c; unfold currentLayout; destruct (_layoutState c);
    try reflexivity; simpl; intros e [=]; auto.
Qed.

Lemma silent_currentLists : silent currentLists.
Proof.
  unfold currentLists. apply silent_bind; [apply silent_currentLayout|]. intros layout.
  apply silent_bind; [apply silent_defined|]. intros l. apply silent_ret.
Qed.

Lemma silent_getEmptyList : silent getEmptyList.
Proof.
  intros c r c' [= <- <-]. split; [reflexivity | discriminate].
Qed.

Lemma silent_mutateLists f : silent (mutateLists f).
Proof.
  intros c r c'. unfold mutateLists.
  destruct (_layoutState c) as [config|].
  - destruct (variant config (_layoutType c)) as [layout|]; intros [= <- <-];
      (split; [reflexivity | intros e [=]; auto]).
  - intros [= <- <-]. split; [reflexivity | intros e [=]; auto].
Qed.

Lemma silent_mapM {A B} (f : A -> M B) (l : list A) :
  (forall a, silent (f a)) -> silent (mapM f l).
Proof.
  intros Hf. induction l as [|x l IH]; simpl; [apply silent_ret|].
  apply silent_bind; [apply Hf|]. intros y.
  apply silent_bind; [apply IH|]. intros ys. apply silent_ret.
Qed.

Lemma silent_getConnectedLists layout : silent (getConnectedLists layout).
Proof.
  destruct layout as [layout|]; simpl; [|apply silent_ret].
  apply silent_bind; [|intros ls; apply silent_ret].
  apply silent_mapM. intros L. apply silent_bind; [|intros conn; apply silent_ret].
  unfold getConnectedToString. apply silent_bind; [apply silent_currentLists|].
  intros ls. apply silent_ret.
Qed.

Lemma silent_assignItems index data : silent (assignItems index data).
Proof.
  unfold assignItems. apply silent_bind; [apply silent_currentLists|]. intros ls.
  apply silent_bind; [apply silent_defined|]. intros l. apply silent_mutateLists.
Qed.

Lemma careful_set_currentLayout v : careful (set_currentLayout v).
Proof. intros c e c' [=]. Qed.

(** Once a layout is set, connecting its lists does not throw. *)
Lemma careful_set_then_update l :
  careful (set_currentLayout (Some l) ;; updateLayout)%method.
Proof.
  intros c e c' Hrun. exfalso.
  assert (Hret : returns (set_currentLayout (Some l) ;; updateLayout)%method c
                   (fun _ _ => True)).
  { apply returns_bind, returns_set_currentLayout. intros c1 H1 _ _.
    apply (returns_updateLayout c1 l); auto. }
  destruct Hret as (a & c1 & Hok & _). congruence.
Qed.

Lemma stored_state_set_currentLayout v : stores (set_currentLayout v).
Proof.
  intros c [] c' [= <-]. eexists. split; [reflexivity|]. simpl. apply lookup_insert_eq.
Qed.

Lemma stores_updateLayout : stores updateLayout.
Proof.
  unfold updateLayout. apply stores_bind. intros layout. apply stores_bind. intros layout'.
  apply stored_state_set_currentLayout.
Qed.

Ltac silent_steps :=
  repeat lazymatch goal with
  | |- silent (assignItems _ _) => apply silent_assignItems
  | |- silent (mutateLists _) => apply silent_mutateLists
  | |- silent (getConnectedLists _) => apply silent_getConnectedLists
  | |- silent getEmptyList => apply silent_getEmptyList
  | |- silent currentLists => apply silent_currentLists
  | |- silent currentLayout => apply silent_currentLayout
  | |- silent (defined _) => apply silent_defined
  | |- silent (read _) => apply silent_read
  | |- silent (ret _) => apply silent_ret
  end.

Ltac careful_steps :=
  repeat lazymatch goal with
  | |- careful (bind (set_currentLayout (Some _)) (fun _ => updateLayout)) =>
      apply careful_set_then_update
  | |- careful (set_currentLayout _) => apply careful_set_currentLayout
  | |- careful (bind _ _) => apply careful_bind; [silent_steps | intros ?]
  | |- careful (let _ := _ in _) => cbv zeta
  end.

Lemma careful_perform op : careful (perform op).
Proof.
  destruct op as [event| | | | |]; simpl.
  - unfold drop. apply careful_bind; [apply silent_currentLayout|]. intros layout.
    destruct (Cdk.same_object _ _); careful_steps.
  - unfold addColumnLeftPressed. careful_steps.
  - unfold addColumnRightPressed. careful_steps.
  - unfold removeColumnLeftPressed. careful_steps.
  - unfold removeColumnRightPressed. careful_steps.
  - unfold resetPressed. careful_steps.
Qed.

Ltac stores_steps :=
  repeat lazymatch goal with
  | |- stores (set_currentLayout _) => apply stored_state_set_currentLayout
  | |- stores updateLayout => apply stores_updateLayout
  | |- stores (bind _ _) => apply stores_bind; intros ?
  | |- stores (let _ := _ in _) => cbv zeta
  end.

Lemma stores_perform op : stores (perform op).
Proof.
  destruct op as [event| | | | |]; simpl.
  - unfold drop. apply stores_bind. intros layout.
    destruct (Cdk.same_object _ _); stores_steps.
  - unfold addColumnLeftPressed. stores_steps.
  - unfold addColumnRightPressed. stores_steps.
  - unfold removeColumnLeftPressed. stores_steps.
  - unfold removeColumnRightPressed. stores_steps.
  - unfold resetPressed. stores_steps.
Qed.

(** ** Where a layout stays defined *)

Section Defines.
Context {A : Type}.

Lemma defines_same (m : M A) :
  (forall c, activeLayout (snd (m c)) = activeLayout c) -> defines m.
Proof.
  intros Hm c a c' Hrun [l H]. specialize (Hm c). rewrite Hrun in Hm. simpl in Hm.
  exists l. congruence.
Qed.

Lemma defines_bind {B} (m : M B) (k : B -> M A) :
  defines m -> (forall b, defines (k b)) -> defines (bind m k).
Proof.
  intros Hm Hk c a c' Hrun H. unfold bind in Hrun.
  destruct (m c) as [[e|b] c1] eqn:Hmc; [discriminate|].
  apply (Hk b c1 a c' Hrun). apply (Hm c b c1 Hmc H).
Qed.

Lemma defines_ret (a : A) : defines (ret a).
Proof. apply defines_same. reflexivity. Qed.

Lemma defines_read (f : Component -> A) : defines (read f).
Proof. apply defines_same. reflexivity. Qed.

Lemma defines_defined (o : option A) : defines (defined o).
Proof. apply defines_same. destruct o; reflexivity. Qed.

End Defines.

Lemma defines_currentLayout : defines currentLayout.
Proof. apply defines_same. intros c. unfold currentLayout. destruct (_layoutState c); reflexivity. Qed.

Lemma defines_currentLists : defines currentLists.
Proof.
  unfold currentLists. apply defines_bind; [apply defines_currentLayout|]. intros layout.
  apply defines_bind; [apply defines_defined|]. intros l. apply defines_ret.
Qed.

Lemma defines_getEmptyList : defines getEmptyList.
Proof. apply defines_same. reflexivity. Qed.

Lemma defines_mutateLists f : defines (mutateLists f).
Proof.
  intros c a c' Hrun [l H].
  destruct (returns_mutateLists f c l (fun _ c1 => exists l', activeLayout c1 = Some l') H)
    as (a1 & c1 & Hok & H1); [eauto|].
  rewrite Hrun in Hok. injection Hok as _ <-. exact H1.
Qed.

Lemma defines_assignItems index data : defines (assignItems index data).
Proof.
  unfold assignItems. apply defines_bind; [apply defines_currentLists|]. intros ls.
  apply defines_bind; [apply defines_defined|]. intros l. apply defines_mutateLists.
Qed.

Lemma defines_set_currentLayout l : defines (set_currentLayout (Some l)).
Proof.
  intros c a c' Hrun _.
  destruct (returns_set_currentLayout (Some l) c
              (fun _ c1 => exists l', activeLayout c1 = Some l'))
    as (a1 & c1 & Hok & H1); [eauto|].
  rewrite Hrun in Hok. injection Hok as _ <-. exact H1.
Qed.

Lemma defines_updateLayout : defines updateLayout.
Proof.
  intros c a c' Hrun [l H].
  destruct (returns_updateLayout c l (fun _ c1 => exists l', activeLayout c1 = Some l') H)
    as (a1 & c1 & Hok & H1); [eauto|].
  rewrite Hrun in Hok. injection Hok as _ <-. exact H1.
Qed.

(** [this.currentLayout = { ...layout }] at the end of [drop]. *)
Lemma defines_set_current : defines (bind currentLayout set_currentLayout).
Proof.
  intros c a c' Hrun [l H].
  assert (Hret : returns (bind currentLayout set_currentLayout) c
                   (fun _ c1 => exists l', activeLayout c1 = Some l')).
  { apply returns_bind, (returns_currentLayout c l); [exact H|].
    apply returns_set_currentLayout. eauto. }
  destruct Hret as (a1 & c1 & Hok & H1).
  rewrite Hrun in Hok. injection Hok as _ <-. exact H1.
Qed.

Ltac defines_steps :=
  repeat lazymatch goal with
  | |- defines (bind currentLayout (fun layout => set_currentLayout layout)) =>
      apply defines_set_current
  | |- defines (bind _ _) => apply defines_bind; [|intros ?]
  | |- defines (let _ := _ in _) => cbv zeta
  | |- defines (assignItems _ _) => apply defines_assignItems
  | |- defines (mutateLists _) => apply defines_mutateLists
  | |- defines (set_currentLayout (Some _)) => apply defines_set_currentLayout
  | |- defines updateLayout => apply defines_updateLayout
  | |- defines getEmptyList => apply defines_getEmptyList
  | |- defines currentLists => apply defines_currentLists
  | |- defines currentLayout => apply defines_currentLayout
  | |- defines (defined _) => apply defines_defined
  | |- defines (read _) => apply defines_read
  | |- defines (ret _) => apply defines_ret
  end.

Lemma defines_perform op : op <> Reset -> defines (perform op).
Proof.
  intros Hop. destruct op as [event| | | | |]; simpl; [| | | | |congruence].
  - unfold drop. apply defines_bind; [apply defines_currentLayout|]. intros layout.
    destruct (Cdk.same_object _ _); defines_steps.
  - unfold addColumnLeftPressed. defines_steps.
  - unfold addColumnRightPressed. defines_steps.
  - unfold removeColumnLeftPressed. defines_steps.
  - unfold removeColumnRightPressed. defines_steps.
Qed.

(** X1: whatever a mutator does, and whether it returns or throws, the
    working configuration keeps its name and version, the layouts of the
    variants that are not selected stay as they were, no storage key but
    the configuration's own is written, and the default configuration and
    the selected variant are unchanged. *)
Theorem mutators_keep_the_rest
    (c : Component) (config : CustomizableLayoutConfig) (op : Op)
    (r : result unit) (c' : Component) :
  _layoutState c = Some config ->
  perform op c = (r, c') ->
  defaultLayout c' = defaultLayout c
  /\ _layoutType c' = _layoutType c
  /\ exists config',
       _layoutState c' = Some config'
       /\ name config' = name config
       /\ version config' = version config
       /\ (forall t, t <> _layoutType c -> variant config' t = variant config t)
       /\ (forall k : string, k <> name config -> localStorage c' !! k = localStorage c !! k).
Proof.
  intros Hs Hrun. destruct (framed_perform op c r c' Hrun) as (Hd & Ht & _ & _ & Hrest).
  rewrite Hs in Hrest. auto.
Qed.

Lemma mutators_keep_the_rest_witness :
  let c' := snd (removeColumnLeftPressed (snd (resize (Some 1200%Z) Sample.working))) in
  exists config',
    _layoutState c' = Some config'
    /\ variant config' Tablet = Some (reconnect (Sample.layout [Sample.column "B" ["y"; "x"]]))
    /\ variant config' Mobile = Some (Sample.layout [Sample.column "A" ["x"; "y"]])
    /\ localStorage c' !! "other"%string = Some "kept"%string.
Proof.
  destruct (mutators_keep_the_rest
              (snd (resize (Some 1200%Z) Sample.working)) Sample.two_variants
              RemoveColumnLeft
              (fst (removeColumnLeftPressed (snd (resize (Some 1200%Z) Sample.working))))
              (snd (removeColumnLeftPressed (snd (resize (Some 1200%Z) Sample.working)))))
    as (_ & _ & config' & Hs & _ & _ & Hvar & Hk);
    [vm_compute; reflexivity | vm_compute; reflexivity |].
  exists config'. split; [exact Hs|]. split.
  - vm_compute in Hs. injection Hs as <-. vm_compute. reflexivity.
  - split.
    + rewrite (Hvar Mobile) by discriminate. vm_compute. reflexivity.
    + rewrite (Hk "other"%string) by discriminate. vm_compute. reflexivity.
Defined.

(** X2: when a mutator returns on a component that had a layout (for a
    reset, when the default has a layout for the selected variant), the
    component has a layout, and the storage holds, under the name of the
    working configuration, the text of that configuration as it is now. *)
Theorem mutators_store_the_state
    (c : Component) (l : CustomizableLayout) (op : Op) (c' : Component) :
  activeLayout c = Some l ->
  (op = Reset -> variant (defaultLayout c) (_layoutType c) <> None) ->
  perform op c = (ok tt, c') ->
  exists config l',
    _layoutState c' = Some config
    /\ variant config (_layoutType c') = Some l'
    /\ localStorage c' !! name config = Some (stringify (json_of_config config)).
Proof.
  intros H Hreset Hrun.
  destruct (stores_perform op c tt c' Hrun) as (config & Hs & Hk).
  assert (Hl : exists l', activeLayout c' = Some l').
  { assert (Hop : op <> Reset -> exists l', activeLayout c' = Some l').
    { intros Hop. apply (defines_perform op Hop c tt c' Hrun). eauto. }
    destruct op; try (apply Hop; discriminate).
    destruct (variant (defaultLayout c) (_layoutType c)) as [dl|] eqn:Hd;
      [|exfalso; apply Hreset; reflexivity].
    destruct (resetPressed_returns c l dl H Hd) as (a & c1 & Hok & H1).
    simpl in Hrun. rewrite Hrun in Hok. injection Hok as _ <-. eauto. }
  destruct Hl as [l' Hl]. exists config, l'. split; [exact Hs|]. split; [|exact Hk].
  unfold activeLayout in Hl. rewrite Hs in Hl. exact Hl.
Qed.

Lemma mutators_store_the_state_witness :
  exists config,
    _layoutState (snd (addColumnRightPressed Sample.working)) = Some config
    /\ localStorage (snd (addColumnRightPressed Sample.working)) !! "dashboard"%string
       = Some (stringify (json_of_config config)).
Proof.
  destruct (mutators_store_the_state Sample.working
              (Sample.layout [Sample.column "A" ["x"; "y"]]) AddColumnRight
              (snd (addColumnRightPressed Sample.working)))
    as (config & l' & Hs & _ & Hk);
    [vm_compute; reflexivity | discriminate | vm_compute; reflexivity |].
  assert (Hn : name config = "dashboard"%string).
  { clear Hk. vm_compute in Hs. injection Hs as <-. reflexivity. }
  rewrite Hn in Hk. eauto.
Defined.

(** X3: a mutator that throws a TypeError has written nothing to the
    storage: every read that can meet [undefined] or [null] comes before
    the first write.  What was changed in memory before the throw, such as
    a column taken off by a removal, is not stored. *)
Theorem mutators_throw_before_storing (c : Component) (op : Op) (c' : Component) :
  perform op c = (throw TypeError, c') ->
  localStorage c' = localStorage c.
Proof. intros Hrun. apply (careful_perform op c TypeError c' Hrun). Qed.

Lemma mutators_throw_before_storing_witness :
  let c := snd (ngOnInit (Sample.component (Sample.config 1 [Sample.column "A" ["x"]]) ∅)) in
  fst (removeColumnRightPressed c) = throw TypeError
  /\ activeLayout (snd (removeColumnRightPressed c)) = Some (Sample.layout [])
  /\ localStorage (snd (removeColumnRightPressed c)) = ∅.
Proof.
  split; [vm_compute; reflexivity|]. split; [vm_compute; reflexivity|].
  rewrite (mutators_throw_before_storing
             (snd (ngOnInit (Sample.component (Sample.config 1 [Sample.column "A" ["x"]]) ∅)))
             RemoveColumnRight
             (snd (removeColumnRightPressed
                     (snd (ngOnInit (Sample.component
                                       (Sample.config 1 [Sample.column "A" ["x"]]) ∅))))));
    vm_compute; reflexivity.
Defined.

(** ** A component without a layout *)

Lemma currentLists_undefined c :
  activeLayout c = None -> currentLists c = (throw TypeError, c).
Proof.
  intros H. unfold activeLayout in H. unfold currentLists, bind, currentLayout.
  destruct (_layoutState c) as [config|]; simpl in H; [rewrite H|]; reflexivity.
Qed.

Lemma perform_undefined c op :
  activeLayout c = None -> op <> Reset ->
  exists c', perform op c = (throw TypeError, c')
             /\ _layoutState c' = _layoutState c /\ localStorage c' = localStorage c.
Proof.
  intros H Hop. pose proof (currentLists_undefined c H) as Hls.
  destruct op as [event| | | | |]; simpl; [| | | | |congruence].
  - unfold drop, bind at 1, currentLayout.
    destruct (_layoutState c) as [config|] eqn:Hs; [|eauto].
    destruct (Cdk.same_object _ _); rewrite (bind_throw _ _ _ _ _ Hls); eauto.
  - unfold addColumnLeftPressed, bind at 1, currentLayout.
    destruct (_layoutState c) as [config|] eqn:Hs; [|eauto].
    unfold bind at 1. simpl.
    erewrite bind_throw; [|apply currentLists_undefined; unfold activeLayout in *; simpl;
                           rewrite Hs in *; exact H].
    eexists. split; [reflexivity|]. simpl. auto.
  - unfold addColumnRightPressed. rewrite (bind_throw _ _ _ _ _ Hls). eauto.
  - unfold removeColumnLeftPressed. rewrite (bind_throw _ _ _ _ _ Hls). eauto.
  - unfold removeColumnRightPressed. rewrite (bind_throw _ _ _ _ _ Hls). eauto.
Qed.

(** X4: on a component whose selected variant has no layout (or that was
    never initialized), a drop, adding a column and removing a column
    throw a TypeError, and so does computing the grid columns; the
    configuration and the storage are left as they were. *)
Theorem no_layout_no_change (c : Component) (op : Op) :
  activeLayout c = None ->
  op <> Reset ->
  fst (currentColumns c) = throw TypeError
  /\ exists c', perform op c = (throw TypeError, c')
                /\ _layoutState c' = _layoutState c
                /\ localStorage c' = localStorage c.
Proof.
  intros H Hop. split; [|apply perform_undefined; assumption].
  unfold currentColumns. rewrite (bind_throw _ _ _ _ _ (currentLists_undefined c H)).
  reflexivity.
Qed.

Lemma no_layout_no_change_witness :
  let c := Sample.component Sample.two_variants ∅ in
  fst (currentColumns c) = throw TypeError
  /\ exists c', perform AddColumnLeft c = (throw TypeError, c')
                /\ _layoutState c' = _layoutState c
                /\ localStorage c' = localStorage c.
Proof.
  apply (no_layout_no_change (Sample.component Sample.two_variants ∅) AddColumnLeft);
    [vm_compute; reflexivity | discriminate].
Defined.

(** X5: when nothing is stored, the default has no Tablet layout and the
    window is wider than the tablet breakpoint, [ngOnInit] returns with the
    Tablet variant selected and no layout for it: from there every mutator
    but the reset throws a TypeError. *)
Theorem ngOnInit_wide_without_tablet (c : Component) :
  localStorage c !! name (defaultLayout c) = None ->
  tablet (defaultLayout c) = None ->
  (tabletBreakpoint c < innerWidth c)%Z ->
  exists c',
    ngOnInit c = (ok tt, c')
    /\ _layoutState c' = Some (defaultLayout c)
    /\ _layoutType c' = Tablet
    /\ activeLayout c' = None
    /\ forall op, op <> Reset -> fst (perform op c') = throw TypeError.
Proof.
  intros Hk Ht Hw. unfold ngOnInit.
  assert (Hinit : initializeState c = (ok tt, adopted (defaultLayout c) c)).
  { rewrite initializeState_eq, Hk. reflexivity. }
  rewrite (bind_ok _ _ _ _ _ Hinit). unfold bind, read, resize. simpl.
  unfold layoutTypeOf. destruct (_ <=? _)%Z eqn:E; [bools; lia|].
  eexists. split; [reflexivity|]. simpl. split; [reflexivity|]. split; [reflexivity|].
  assert (Hnone : activeLayout (set_layoutType Tablet (adopted (defaultLayout c) c)) = None).
  { unfold activeLayout. simpl. exact Ht. }
  split; [exact Hnone|]. intros op Hop.
  destruct (perform_undefined _ op Hnone Hop) as (c' & Hrun & _). rewrite Hrun. reflexivity.
Qed.

Lemma ngOnInit_wide_without_tablet_witness :
  let c := Sample.wide (Sample.config 1 [Sample.column "A" ["x"]]) ∅ in
  exists c',
    ngOnInit c = (ok tt, c')
    /\ _layoutState c' = Some (defaultLayout c)
    /\ _layoutType c' = Tablet
    /\ activeLayout c' = None
    /\ forall op, op <> Reset -> fst (perform op c') = throw TypeError.
Proof.
  apply (ngOnInit_wide_without_tablet
           (Sample.wide (Sample.config 1 [Sample.column "A" ["x"]]) ∅));
    [vm_compute; reflexivity | vm_compute; reflexivity | vm_compute; reflexivity].
Defined.

(** ** What reconciliation does to a stored configuration *)

Lemma same_arrangement_refl ls : same_arrangement ls ls.
Proof. induction ls; constructor; auto. Qed.

Lemma same_arrangement_trans ls1 ls2 ls3 :
  same_arrangement ls1 ls2 -> same_arrangement ls2 ls3 -> same_arrangement ls1 ls3.
Proof.
  intros H12. revert ls3. induction H12 as [|L1 L2 ls1 ls2 (Hn & Hw & Hc & Hi) _ IH];
    intros ls3 H23; inversion H23 as [|? L3 ? ls3' (Hn' & Hw' & Hc' & Hi') Hrest]; subst;
    constructor; [|apply IH, Hrest].
  repeat split; try congruence. etransitivity; eassumption.
Qed.

Lemma same_arrangement_names ls ls' :
  same_arrangement ls ls' -> map containerName ls' = map containerName ls.
Proof. induction 1 as [|L L' ls ls' (Hn & _) _ IH]; simpl; congruence. Qed.

Lemma sublist_splice_insert {A} i (x : A) (l : list A) : sublist l (splice_insert i x l).
Proof.
  unfold splice_insert. set (k := Z.to_nat _).
  rewrite <- (take_drop k l) at 1. apply sublist_app; [reflexivity|].
  apply sublist_cons. reflexivity.
Qed.

Lemma same_arrangement_splice_into c i e ls : same_arrangement ls (splice_into c i e ls).
Proof.
  induction ls as [|L ls IH]; simpl; [constructor|].
  destruct (is_container c L).
  - constructor; [|apply same_arrangement_refl].
    simpl. repeat split; auto. apply sublist_splice_insert.
  - constructor; [|exact IH]. repeat split; reflexivity.
Qed.

Lemma forEach_insertMissing_effect grouped names s s' :
  forEach (insertMissing grouped) names s = ok s' ->
  Permutation (componentNames s') (names ++ componentNames s)
  /\ same_arrangement (lists s) (lists s').
Proof.
  revert s. induction names as [|m names IH]; simpl; intros s.
  - intros [= <-]. split; [reflexivity | apply same_arrangement_refl].
  - destruct (insertMissing grouped s m) as [err|s1] eqn:Hstep; simpl; [discriminate|].
    intros Hrest. destruct (IH _ Hrest) as [Hperm Harr].
    destruct (insertMissing_ok _ _ _ _ Hstep) as (c & i & e & l & He & Hl & ->).
    assert (Hstep_perm : Permutation (componentName e :: componentNames s)
                           (componentNames {| lists := splice_into c i e (lists s) |})).
    { unfold componentNames, elements. simpl. rewrite <- map_cons.
      apply Permutation_map. eapply elements_splice_into, Hl. }
    unfold has_name in He. apply String.eqb_eq in He. rewrite He in Hstep_perm. split.
    + etransitivity; [exact Hperm|]. etransitivity; [|symmetry; apply Permutation_middle].
      apply Permutation_app_head. symmetry. exact Hstep_perm.
    + eapply same_arrangement_trans; [|exact Harr]. apply same_arrangement_splice_into.
Qed.

(** One call of [addMissingComponentsToStoredLayout]. *)
Lemma addMissing_effect stored default t stored' :
  addMissingComponentsToStoredLayout stored default t = ok stored' ->
  name stored' = name stored /\ version stored' = version stored
  /\ (forall t', t' <> t -> variant stored' t' = variant stored t')
  /\ match variant stored t with
     | Some sl =>
         exists sl',
           variant stored' t = Some sl'
           /\ same_arrangement (lists sl) (lists sl')
           /\ Permutation (componentNames sl')
                (match variant default t with
                 | Some dl => missingElementNames sl dl
                 | None => []
                 end ++ componentNames sl)
     | None => variant stored' t = None
     end.
Proof.
  unfold addMissingComponentsToStoredLayout.
  destruct (variant stored t) as [sl|] eqn:Hs.
  2:{ intros [= <-]. rewrite Hs. auto. }
  destruct (variant default t) as [dl|] eqn:Hd.
  2:{ intros [= <-]. repeat split; auto. exists sl.
      split; [exact Hs|]. split; [apply same_arrangement_refl | reflexivity]. }
  destruct (forEach _ _ sl) as [err|sl'] eqn:Hloop; simpl; [discriminate|].
  intros [= <-]. destruct (forEach_insertMissing_effect _ _ _ _ Hloop) as [Hperm Harr].
  split; [destruct t; reflexivity|]. split; [destruct t; reflexivity|].
  split; [intros t' Hne; apply variant_set_variant_ne, Hne|].
  exists sl'. rewrite variant_set_variant. auto.
Qed.

(** The three calls: each works on its own variant. *)
Lemma reconcile_effect stored default stored' :
  reconcile stored default = ok stored' ->
  name stored' = name stored /\ version stored' = version stored
  /\ forall t,
       match variant stored t with
       | Some sl =>
           exists sl',
             variant stored' t = Some sl'
             /\ same_arrangement (lists sl) (lists sl')
             /\ Permutation (componentNames sl')
                  (match variant default t with
                   | Some dl => missingElementNames sl dl
                   | None => []
                   end ++ componentNames sl)
       | None => variant stored' t = None
       end.
Proof.
  unfold reconcile.
  destruct (addMissingComponentsToStoredLayout stored default Mobile) as [?|s1] eqn:H1;
    simpl; [discriminate|].
  destruct (addMissingComponentsToStoredLayout s1 default Tablet) as [?|s2] eqn:H2;
    simpl; [discriminate|].
  intros H3.
  apply addMissing_effect in H1 as (Hn1 & Hv1 & Ho1 & He1).
  apply addMissing_effect in H2 as (Hn2 & Hv2 & Ho2 & He2).
  apply addMissing_effect in H3 as (Hn3 & Hv3 & Ho3 & He3).
  split; [congruence|]. split; [congruence|]. intros [].
  - rewrite (Ho3 Mobile), (Ho2 Mobile) by discriminate. exact He1.
  - rewrite (Ho3 Tablet) by discriminate. rewrite (Ho1 Tablet) in He2 by discriminate.
    exact He2.
  - rewrite (Ho2 Desktop), (Ho1 Desktop) in He3 by discriminate. exact He3.
Qed.

Lemma NoDup_List_filter {A} (p : A -> bool) (l : list A) : NoDup l -> NoDup (List.filter p l).
Proof.
  induction 1 as [|x l Hx _ IH]; simpl; [constructor|].
  destruct (p x); [|exact IH]. constructor; [|exact IH].
  intros Hin. apply Hx. apply list_elem_of_In in Hin. apply filter_In in Hin as [Hin _].
  apply list_elem_of_In, Hin.
Qed.

(** X6: where reconciliation returns, each variant that both the stored
    and the default configuration have holds the component names that
    were stored and the names the default has and the stored variant
    lacked, each as often as the default lists it, and no other name. *)
Theorem reconcile_adds_the_missing
    (stored default stored' : CustomizableLayoutConfig) (t : LayoutType)
    (sl dl : CustomizableLayout) :
  reconcile stored default = ok stored' ->
  variant stored t = Some sl ->
  variant default t = Some dl ->
  exists sl',
    variant stored' t = Some sl'
    /\ Permutation (componentNames sl') (missingElementNames sl dl ++ componentNames sl).
Proof.
  intros Hrec Hs Hd. destruct (reconcile_effect _ _ _ Hrec) as (_ & _ & Hvar).
  specialize (Hvar t). rewrite Hs, Hd in Hvar. destruct Hvar as (sl' & Hs' & _ & Hperm).
  eauto.
Qed.

Lemma reconcile_adds_the_missing_witness :
  exists sl',
    variant (Sample.config 1 [Sample.column "A" ["x"; "z"]; Sample.column "B" ["y"]]) Mobile
    = Some sl'
    /\ Permutation (componentNames sl') ["z"; "x"; "y"].
Proof.
  destruct (reconcile_adds_the_missing
              (Sample.config 1 [Sample.column "A" ["x"]; Sample.column "B" ["y"]])
              (Sample.config 1 [Sample.column "A" ["x"; "z"]; Sample.column "B" ["y"]])
              (Sample.config 1 [Sample.column "A" ["x"; "z"]; Sample.column "B" ["y"]])
              Mobile
              (Sample.layout [Sample.column "A" ["x"]; Sample.column "B" ["y"]])
              (Sample.layout [Sample.column "A" ["x"; "z"]; Sample.column "B" ["y"]]))
    as (sl' & Hs' & Hperm);
    [vm_compute; reflexivity | reflexivity | reflexivity |].
  exists sl'. split; [exact Hs'|]. exact Hperm.
Defined.

(** X7: reconciliation moves, removes and renames nothing that was
    stored: the configuration keeps its name and version, a variant that
    was not stored stays absent, and in a stored variant the lists are the
    same in number and order, each with its container name, width and
    connections, and with its former items in their former order. *)
Theorem reconcile_keeps_the_arrangement
    (stored default stored' : CustomizableLayoutConfig) :
  reconcile stored default = ok stored' ->
  name stored' = name stored
  /\ version stored' = version stored
  /\ forall t,
       match variant stored t with
       | Some sl =>
           exists sl', variant stored' t = Some sl'
                       /\ same_arrangement (lists sl) (lists sl')
       | None => variant stored' t = None
       end.
Proof.
  intros Hrec. destruct (reconcile_effect _ _ _ Hrec) as (Hn & Hv & Hvar).
  split; [exact Hn|]. split; [exact Hv|]. intros t. specialize (Hvar t).
  destruct (variant stored t) as [sl|]; [|exact Hvar].
  destruct Hvar as (sl' & Hs' & Harr & _). eauto.
Qed.

Lemma reconcile_keeps_the_arrangement_witness :
  let stored := Sample.config 3 [Sample.column "A" ["y"]; Sample.column "B" ["x"]] in
  let default := Sample.config 2 [Sample.column "A" ["x"; "z"]; Sample.column "B" ["y"]] in
  exists stored',
    reconcile stored default = ok stored'
    /\ version stored' = 3%Z
    /\ variant stored' Mobile
       = Some (Sample.layout [Sample.column "A" ["y"; "z"]; Sample.column "B" ["x"]])
    /\ variant stored' Tablet = None.
Proof.
  intros stored default.
  destruct (reconcile stored default) as [e|stored'] eqn:Hrec; [vm_compute in Hrec; discriminate|].
  exists stored'. split; [reflexivity|].
  destruct (reconcile_keeps_the_arrangement stored default stored' Hrec) as (_ & Hv & Hvar).
  split; [exact Hv|]. split.
  - vm_compute in Hrec. injection Hrec as <-. reflexivity.
  - exact (Hvar Tablet).
Defined.

(** X8: where reconciliation returns, a variant in which neither the
    stored nor the default layout lists a component name twice comes out
    without a name listed twice. *)
Theorem reconcile_keeps_no_duplication
    (stored default stored' : CustomizableLayoutConfig) (t : LayoutType)
    (sl dl : CustomizableLayout) :
  reconcile stored default = ok stored' ->
  variant stored t = Some sl ->
  variant default t = Some dl ->
  no_duplication sl ->
  no_duplication dl ->
  exists sl', variant stored' t = Some sl' /\ no_duplication sl'.
Proof.
  intros Hrec Hs Hd Hnd_s Hnd_d. destruct (reconcile_effect _ _ _ Hrec) as (_ & _ & Hvar).
  specialize (Hvar t). rewrite Hs, Hd in Hvar. destruct Hvar as (sl' & Hs' & _ & Hperm).
  exists sl'. split; [exact Hs'|]. unfold no_duplication in *.
  rewrite Hperm. apply NoDup_app. split; [|split; [|exact Hnd_s]].
  - apply NoDup_List_filter, Hnd_d.
  - intros n Hn Hin. apply list_elem_of_In in Hn, Hin.
    apply missingElementNames_spec in Hn as [_ Hn]. exact (Hn Hin).
Qed.

Lemma reconcile_keeps_no_duplication_witness :
  exists sl',
    variant (Sample.config 1 [Sample.column "A" ["x"; "z"]; Sample.column "B" ["y"]]) Mobile
    = Some sl'
    /\ no_duplication sl'.
Proof.
  apply (reconcile_keeps_no_duplication
           (Sample.config 1 [Sample.column "A" ["x"]; Sample.column "B" ["y"]])
           (Sample.config 1 [Sample.column "A" ["x"; "z"]; Sample.column "B" ["y"]])
           (Sample.config 1 [Sample.column "A" ["x"; "z"]; Sample.column "B" ["y"]])
           Mobile
           (Sample.layout [Sample.column "A" ["x"]; Sample.column "B" ["y"]])
           (Sample.layout [Sample.column "A" ["x"; "z"]; Sample.column "B" ["y"]]));
    [vm_compute; reflexivity | reflexivity | reflexivity
    | apply (@bool_decide_unpack _ (no_duplication_dec _)); vm_compute; reflexivity
    | apply (@bool_decide_unpack _ (no_duplication_dec _)); vm_compute; reflexivity].
Defined.

Lemma filter_unique {A} (key : A -> string) (ls : list A) (L : A) :
  NoDup (map key ls) -> In L ls -> List.filter (with_key key (key L)) ls = [L].
Proof.
  induction ls as [|a ls IH]; simpl; [intros _ []|].
  intros Hnd HL. apply NoDup_cons in Hnd as [Ha Hnd]. unfold with_key at 1.
  destruct HL as [->|HL].
  - rewrite String.eqb_refl. f_equal. apply filter_nil_iff. intros x Hx.
    unfold with_key. apply String.eqb_neq. intros Heq. apply Ha. rewrite <- Heq.
    apply list_elem_of_In, in_map, Hx.
  - destruct (String.eqb (key a) (key L)) eqn:E; [|apply IH; assumption].
    apply String.eqb_eq in E. exfalso. apply Ha. rewrite E.
    apply list_elem_of_In, in_map, HL.
Qed.

Lemma findKey_finds dl n :
  NoDup (containerNames dl) -> In n (componentNames dl) ->
  exists c, Lodash.findKey (Lodash.groupBy containerName (lists dl)) (holds_missing n) = Some c.
Proof.
  intros Hnd Hn. unfold componentNames, elements in Hn.
  apply in_map_iff in Hn as (e & He & Hin). apply in_flat_map in Hin as (L & HL & HeL).
  unfold Lodash.findKey.
  destruct (List.find _ _) as [[k g]|] eqn:Hfind; simpl; [eauto|]. exfalso.
  assert (Hgroup : group_of containerName (containerName L) (lists dl) = Some [L]).
  { unfold group_of. rewrite (filter_unique containerName (lists dl) L Hnd HL). reflexivity. }
  rewrite <- groupBy_get in Hgroup. apply obj_get_In in Hgroup.
  pose proof (proj1 (find_none_iff _ _) Hfind _ Hgroup) as Hfalse. simpl in Hfalse.
  unfold holds_missing in Hfalse. simpl in Hfalse. unfold is_container in Hfalse.
  rewrite String.eqb_refl in Hfalse. apply bool_decide_eq_false_1 in Hfalse. apply Hfalse.
  destruct (List.find (has_name n) (items L)) as [x|] eqn:Hx; [eauto|].
  pose proof (proj1 (find_none_iff _ _) Hx e HeL) as Hne. unfold has_name in Hne.
  rewrite He, String.eqb_refl in Hne. discriminate.
Qed.

Lemma containerNames_splice_into c i e ls :
  map containerName (splice_into c i e ls) = map containerName ls.
Proof. apply same_arrangement_names, same_arrangement_splice_into. Qed.

Lemma insertMissing_succeeds dl s n :
  NoDup (containerNames dl) -> In n (componentNames dl) ->
  (forall cn, In cn (containerNames dl) -> In cn (containerNames s)) ->
  exists s', insertMissing (Lodash.groupBy containerName (lists dl)) s n = ok s'
             /\ containerNames s' = containerNames s.
Proof.
  intros Hnd Hn Hsub. destruct (findKey_finds dl n Hnd Hn) as [c Hc].
  destruct (findKey_reaches_element _ _ _ Hc) as (l0 & rest & e & Hget & He).
  assert (Hin : In c (containerNames s)).
  { apply Hsub. rewrite groupBy_get in Hget. unfold group_of in Hget.
    destruct (List.filter _ (lists dl)) as [|x xs] eqn:Hf; [discriminate|].
    injection Hget as -> ->.
    assert (Hmem : In l0 (List.filter (with_key containerName c) (lists dl)))
      by (rewrite Hf; left; reflexivity).
    apply filter_In in Hmem as [Hmem Hkey]. unfold with_key in Hkey.
    apply String.eqb_eq in Hkey. rewrite <- Hkey. apply in_map, Hmem. }
  destruct (List.find (is_container c) (lists s)) as [l|] eqn:Hl.
  2:{ exfalso. apply in_map_iff in Hin as (L & HLn & HL).
      pose proof (proj1 (find_none_iff _ _) Hl L HL) as Hne. unfold is_container in Hne.
      rewrite HLn, String.eqb_refl in Hne. discriminate. }
  unfold insertMissing. fold (holds_missing n). rewrite Hc, Hget, He, Hl. eexists. split; [reflexivity|].
  unfold containerNames. simpl. apply containerNames_splice_into.
Qed.

Lemma forEach_insertMissing_succeeds dl names s :
  NoDup (containerNames dl) ->
  (forall n, In n names -> In n (componentNames dl)) ->
  (forall cn, In cn (containerNames dl) -> In cn (containerNames s)) ->
  exists s', forEach (insertMissing (Lodash.groupBy containerName (lists dl))) names s = ok s'.
Proof.
  intros Hnd. revert s. induction names as [|n names IH]; simpl; intros s Hnames Hsub; [eauto|].
  destruct (insertMissing_succeeds dl s n Hnd (Hnames n (or_introl eq_refl)) Hsub)
    as (s1 & Hstep & Hsame).
  rewrite Hstep. simpl. apply IH; [auto|]. rewrite Hsame. exact Hsub.
Qed.

Lemma addMissing_succeeds stored default t :
  (forall sl dl, variant stored t = Some sl -> variant default t = Some dl ->
     NoDup (containerNames dl)
     /\ forall cn, In cn (containerNames dl) -> In cn (containerNames sl)) ->
  exists stored', addMissingComponentsToStoredLayout stored default t = ok stored'.
Proof.
  intros H. unfold addMissingComponentsToStoredLayout.
  destruct (variant stored t) as [sl|]; [|eauto].
  destruct (variant default t) as [dl|]; [|eauto].
  destruct (H sl dl eq_refl eq_refl) as [Hnd Hsub].
  destruct (forEach_insertMissing_succeeds dl (missingElementNames sl dl) sl Hnd) as [sl' Hloop];
    [|exact Hsub|].
  - intros n Hn. apply missingElementNames_spec in Hn. tauto.
  - rewrite Hloop. simpl. eauto.
Qed.

(** X9: reconciliation returns when, in every variant that both
    configurations have, the lists of the default have container names of
    their own and each of them names a list of the stored layout. *)
Theorem reconcile_returns (stored default : CustomizableLayoutConfig) :
  (forall t sl dl,
     variant stored t = Some sl -> variant default t = Some dl ->
     NoDup (containerNames dl)
     /\ forall cn, In cn (containerNames dl) -> In cn (containerNames sl)) ->
  exists stored', reconcile stored default = ok stored'.
Proof.
  intros H. unfold reconcile.
  destruct (addMissing_succeeds stored default Mobile (H Mobile)) as [s1 H1].
  rewrite H1. simpl. apply addMissing_effect in H1 as (_ & _ & Ho1 & _).
  destruct (addMissing_succeeds s1 default Tablet) as [s2 H2].
  { rewrite (Ho1 Tablet) by discriminate. apply H. }
  rewrite H2. simpl. apply addMissing_effect in H2 as (_ & _ & Ho2 & _).
  apply addMissing_succeeds. rewrite (Ho2 Desktop), (Ho1 Desktop) by discriminate. apply H.
Qed.

Lemma reconcile_returns_witness :
  exists stored',
    reconcile (Sample.config 1 [Sample.column "B" ["y"]; Sample.column "A" []])
      (Sample.config 1 [Sample.column "A" ["x"; "z"]; Sample.column "B" ["y"]])
    = ok stored'.
Proof.
  apply reconcile_returns. intros [] sl dl; try discriminate.
  intros [= <-] [= <-]. split.
  - apply (@bool_decide_unpack _ (NoDup_dec _)). vm_compute. reflexivity.
  - intros cn Hcn. vm_compute in Hcn. vm_compute. tauto.
Defined.

(** ** Where a dragged item goes *)

Lemma clamp_range v m : (0 <= m)%Z -> (0 <= Cdk.clamp v m <= m)%Z.
Proof. unfold Cdk.clamp. lia. Qed.

Lemma at_index_nat {A} (l : list A) (i : nat) : at_index l (Z.of_nat i) = l !! i.
Proof.
  unfold at_index. destruct (Z.of_nat i <? 0)%Z eqn:E; [bools; lia|]. rewrite Nat2Z.id.
  reflexivity.
Qed.

Lemma splice_remove_at {A} (i : nat) (l : list A) :
  (i <= length l)%nat -> splice_remove (Z.of_nat i) l = take i l ++ skipn (S i) l.
Proof.
  intros Hi. unfold splice_remove. destruct (Z.of_nat i <? 0)%Z eqn:E; [bools; lia|].
  rewrite Z.min_l by lia. rewrite Nat2Z.id. reflexivity.
Qed.

Lemma transferArrayItem_nonempty {A} (l tgt : list A) (pi ci : Z) :
  l <> [] ->
  let from := Z.to_nat (Cdk.clamp pi (Z.of_nat (length l) - 1)) in
  let to := Z.to_nat (Cdk.clamp ci (Z.of_nat (length tgt))) in
  exists x,
    l !! from = Some x
    /\ Cdk.transferArrayItem l tgt pi ci
       = (take from l ++ skipn (S from) l, take to tgt ++ x :: skipn to tgt).
Proof.
  intros Hl from to.
  assert (Hlen : (0 < length l)%nat) by (destruct l; [congruence | simpl; lia]).
  pose proof (clamp_range pi (Z.of_nat (length l) - 1) ltac:(lia)) as Hfrom.
  pose proof (clamp_range ci (Z.of_nat (length tgt)) ltac:(lia)) as Hto.
  assert (Hf : Cdk.clamp pi (Z.of_nat (length l) - 1) = Z.of_nat from)
    by (unfold from; rewrite Z2Nat.id; lia).
  assert (Ht : Cdk.clamp ci (Z.of_nat (length tgt)) = Z.of_nat to)
    by (unfold to; rewrite Z2Nat.id; lia).
  destruct (lookup_lt_is_Some_2 l from ltac:(lia)) as [x Hx]. exists x. split; [exact Hx|].
  unfold Cdk.transferArrayItem. rewrite Hf, Ht, at_index_nat, Hx.
  rewrite splice_remove_at, splice_insert_at by lia. reflexivity.
Qed.

Lemma moveItemInArray_nonempty {A} (l : list A) (pi ci : Z) :
  l <> [] ->
  let from := Z.to_nat (Cdk.clamp pi (Z.of_nat (length l) - 1)) in
  let to := Z.to_nat (Cdk.clamp ci (Z.of_nat (length l) - 1)) in
  let rest := take from l ++ skipn (S from) l in
  exists x,
    l !! from = Some x
    /\ Cdk.moveItemInArray l pi ci = take to rest ++ x :: skipn to rest.
Proof.
  intros Hl from to rest.
  assert (Hlen : (0 < length l)%nat) by (destruct l; [congruence | simpl; lia]).
  pose proof (clamp_range pi (Z.of_nat (length l) - 1) ltac:(lia)) as Hfrom.
  pose proof (clamp_range ci (Z.of_nat (length l) - 1) ltac:(lia)) as Hto.
  assert (Hf : Cdk.clamp pi (Z.of_nat (length l) - 1) = Z.of_nat from)
    by (unfold from; rewrite Z2Nat.id; lia).
  assert (Ht : Cdk.clamp ci (Z.of_nat (length l) - 1) = Z.of_nat to)
    by (unfold to; rewrite Z2Nat.id; lia).
  destruct (lookup_lt_is_Some_2 l from ltac:(lia)) as [x Hx]. exists x. split; [exact Hx|].
  assert (Hrest : length rest = (length l - 1)%nat).
  { unfold rest. rewrite length_app, length_take, length_drop. lia. }
  unfold Cdk.moveItemInArray. rewrite Hf, Ht.
  destruct (Z.of_nat from =? Z.of_nat to)%Z eqn:E.
  - assert (to = from) as -> by (bools; lia). unfold rest.
    rewrite take_app_le, take_take by (rewrite length_take; lia).
    rewrite Nat.min_id, drop_app_ge by (rewrite length_take; lia).
    rewrite length_take, Nat.min_l, Nat.sub_diag by lia. simpl.
    symmetry. apply take_drop_middle, Hx.
  - rewrite at_index_nat, Hx, splice_remove_at by lia. fold rest.
    rewrite splice_insert_at by lia. reflexivity.
Qed.

(** X10: a drop from one list of the layout to another, the source not
    being empty, takes the item at the previous index out of the source and
    puts it at the current index of the target, both indices brought into
    range first; the other lists are as they were. *)
Theorem drop_between_lists
    (c : Component) (l : CustomizableLayout) (event : Cdk.CdkDragDrop)
    (i j : nat) (Li Lj : LayoutList) :
  activeLayout c = Some l ->
  Cdk.same_object (Cdk.previousContainer event) (Cdk.container event) = false ->
  bound l (Cdk.previousContainer event) i Li ->
  bound l (Cdk.container event) j Lj ->
  i <> j ->
  items Li <> [] ->
  let from := Z.to_nat (Cdk.clamp (Cdk.previousIndex event) (Z.of_nat (length (items Li)) - 1)) in
  let to := Z.to_nat (Cdk.clamp (Cdk.currentIndex event) (Z.of_nat (length (items Lj)))) in
  exists c' l' x,
    drop event c = (ok tt, c')
    /\ activeLayout c' = Some l'
    /\ items Li !! from = Some x
    /\ lists l' !! i = Some (with_items Li (take from (items Li) ++ skipn (S from) (items Li)))
    /\ lists l' !! j = Some (with_items Lj (take to (items Lj) ++ x :: skipn to (items Lj)))
    /\ length (lists l') = length (lists l)
    /\ forall k, k <> i -> k <> j -> lists l' !! k = lists l !! k.
Proof.
  intros H Hsame Hi Hj Hne Hitems from to.
  destruct (returns_unit _ _ _ (drop_transfer_returns c l event i Li j Lj H Hsame Hi Hj Hne))
    as (c' & Hrun & H').
  destruct (transferArrayItem_nonempty (items Li) (items Lj) (Cdk.previousIndex event)
              (Cdk.currentIndex event) Hitems) as (x & Hx & Hmoved).
  fold from to in Hx, Hmoved. rewrite Hmoved in H'. simpl in H'.
  destruct Hi as (_ & HLi & _), Hj as (_ & HLj & _).
  eexists c', _, x. split; [exact Hrun|]. split; [exact H'|]. split; [exact Hx|]. simpl.
  split; [|split; [|split]].
  - rewrite list_lookup_insert_ne by congruence. apply list_lookup_insert_eq.
    apply lookup_lt_Some in HLi. exact HLi.
  - apply list_lookup_insert_eq. rewrite length_insert. apply lookup_lt_Some in HLj. exact HLj.
  - rewrite !length_insert. reflexivity.
  - intros k Hki Hkj. rewrite !list_lookup_insert_ne by congruence. reflexivity.
Qed.

Lemma drop_between_lists_witness :
  exists c' l' x,
    drop (Sample.dropped Sample.list_A Sample.list_B 7 (-3)) Sample.board = (ok tt, c')
    /\ activeLayout c' = Some l'
    /\ map Sample.element ["r"; "s"] !! 1%nat = Some x
    /\ lists l' !! 0%nat = Some (Sample.column "A" ["r"])
    /\ lists l' !! 1%nat = Some (with_items (Sample.column "B" ["p"; "q"])
                                   (x :: map Sample.element ["p"; "q"]))
    /\ length (lists l') = 2%nat
    /\ forall k, k <> 0%nat -> k <> 1%nat
                 -> lists l' !! k
                    = [Sample.column "A" ["r"; "s"]; Sample.column "B" ["p"; "q"]] !! k.
Proof.
  apply (drop_between_lists Sample.board
           (Sample.layout [Sample.column "A" ["r"; "s"]; Sample.column "B" ["p"; "q"]])
           (Sample.dropped Sample.list_A Sample.list_B 7 (-3))
           0%nat 1%nat (Sample.column "A" ["r"; "s"]) (Sample.column "B" ["p"; "q"]));
    [vm_compute; reflexivity | reflexivity
    | repeat split; vm_compute; reflexivity | repeat split; vm_compute; reflexivity
    | discriminate | discriminate].
Defined.

(** X11: a drop within a list of the layout that is not empty takes the
    item at the previous index out and puts it back at the current index
    of what remains, both indices brought into range first; the other
    lists are as they were. *)
Theorem drop_within_a_list
    (c : Component) (l : CustomizableLayout) (event : Cdk.CdkDragDrop)
    (i : nat) (L : LayoutList) :
  activeLayout c = Some l ->
  Cdk.same_object (Cdk.previousContainer event) (Cdk.container event) = true ->
  bound l (Cdk.container event) i L ->
  items L <> [] ->
  let from := Z.to_nat (Cdk.clamp (Cdk.previousIndex event) (Z.of_nat (length (items L)) - 1)) in
  let to := Z.to_nat (Cdk.clamp (Cdk.currentIndex event) (Z.of_nat (length (items L)) - 1)) in
  let rest := take from (items L) ++ skipn (S from) (items L) in
  exists c' l' x,
    drop event c = (ok tt, c')
    /\ activeLayout c' = Some l'
    /\ items L !! from = Some x
    /\ lists l' !! i = Some (with_items L (take to rest ++ x :: skipn to rest))
    /\ length (lists l') = length (lists l)
    /\ forall k, k <> i -> lists l' !! k = lists l !! k.
Proof.
  intros H Hsame Hi Hitems from to rest.
  destruct (returns_unit _ _ _ (drop_move_returns c l event i L H Hsame Hi))
    as (c' & Hrun & H').
  destruct (moveItemInArray_nonempty (items L) (Cdk.previousIndex event)
              (Cdk.currentIndex event) Hitems) as (x & Hx & Hmoved).
  fold from to rest in Hx, Hmoved. rewrite Hmoved in H'.
  destruct Hi as (_ & HL & _).
  eexists c', _, x. split; [exact Hrun|]. split; [exact H'|]. split; [exact Hx|]. simpl.
  split; [|split].
  - apply list_lookup_insert_eq. apply lookup_lt_Some in HL. exact HL.
  - rewrite length_insert. reflexivity.
  - intros k Hki. rewrite list_lookup_insert_ne by congruence. reflexivity.
Qed.

Lemma drop_within_a_list_witness :
  exists c' l' x,
    drop (Sample.dropped Sample.list_A Sample.list_A 0 5) Sample.board = (ok tt, c')
    /\ activeLayout c' = Some l'
    /\ map Sample.element ["r"; "s"] !! 0%nat = Some x
    /\ lists l' !! 0%nat = Some (with_items (Sample.column "A" ["r"; "s"])
                                   (map Sample.element ["s"] ++ [x]))
    /\ length (lists l') = 2%nat
    /\ forall k, k <> 0%nat
                 -> lists l' !! k
                    = [Sample.column "A" ["r"; "s"]; Sample.column "B" ["p"; "q"]] !! k.
Proof.
  apply (drop_within_a_list Sample.board
           (Sample.layout [Sample.column "A" ["r"; "s"]; Sample.column "B" ["p"; "q"]])
           (Sample.dropped Sample.list_A Sample.list_A 0 5)
           0%nat (Sample.column "A" ["r"; "s"]));
    [vm_compute; reflexivity | reflexivity
    | repeat split; vm_compute; reflexivity | discriminate].
Defined.

(** ** Drops that name no list, and drops that move nothing *)

Lemma indexOf_unknown x l : ~ In x l -> indexOf x l = (-1)%Z.
Proof.
  intros H. apply indexOf_none in H. unfold indexOf in *.
  destruct (findIndex_range (String.eqb x) l) as [Hi|Hi]; [exact Hi | lia].
Qed.

Lemma indexOf_known x l :
  In x l -> exists i : nat, indexOf x l = Z.of_nat i /\ (i < length l)%nat.
Proof.
  intros H. unfold indexOf.
  destruct (findIndex_range (String.eqb x) l) as [Hi|Hi].
  - exfalso. apply (proj1 (indexOf_none x l)); [unfold indexOf; lia | exact H].
  - exists (Z.to_nat (findIndex (String.eqb x) l)). rewrite Z2Nat.id by lia. split; lia.
Qed.

Lemma assignItems_unknown c l data :
  activeLayout c = Some l ->
  throws (assignItems (-1) data) c TypeError (fun c' => c' = c).
Proof.
  intros H. exists c. unfold assignItems.
  rewrite (bind_ok _ _ _ _ _ (currentLists_eq c l H)). split; reflexivity.
Qed.

Lemma drop_unknown_throws c l event :
  activeLayout c = Some l ->
  ~ In (Cdk.id (Cdk.container event)) (containerNames l)
  \/ (Cdk.same_object (Cdk.previousContainer event) (Cdk.container event) = false
      /\ ~ In (Cdk.id (Cdk.previousContainer event)) (containerNames l)) ->
  throws (drop event) c TypeError (fun _ => True).
Proof.
  intros H Hunknown. unfold drop.
  apply throws_bind_later, (returns_currentLayout c l); [exact H|].
  destruct (Cdk.same_object _ _) eqn:Hsame.
  - destruct Hunknown as [Hcur|[[=] _]].
    apply throws_bind_later, (returns_currentLists c l); [exact H|].
    fold (containerNames l). rewrite (indexOf_unknown _ _ Hcur).
    apply throws_bind_now. destruct (assignItems_unknown c l
      (Cdk.moveItemInArray (Cdk.data (Cdk.container event)) (Cdk.previousIndex event)
         (Cdk.currentIndex event)) H) as (c' & Hrun & _).
    exists c'. auto.
  - apply throws_bind_later, (returns_currentLists c l); [exact H|].
    fold (containerNames l).
    destruct (in_dec String.string_dec (Cdk.id (Cdk.previousContainer event))
                (containerNames l)) as [Hprev|Hprev].
    + destruct Hunknown as [Hcur|[_ Hno]]; [|contradiction].
      destruct (indexOf_known _ _ Hprev) as (i & Hi & Hlt). rewrite Hi.
      unfold containerNames in Hlt. rewrite length_map in Hlt.
      destruct (lookup_lt_is_Some_2 (lists l) i Hlt) as [Li HLi].
      apply throws_bind_later, (returns_assignItems c l i Li); [exact H | exact HLi|].
      intros c1 H1. apply throws_bind_now.
      rewrite (indexOf_unknown _ _ Hcur).
      destruct (assignItems_unknown c1 _
        (snd (Cdk.transferArrayItem (Cdk.data (Cdk.previousContainer event))
                (Cdk.data (Cdk.container event)) (Cdk.previousIndex event)
                (Cdk.currentIndex event))) H1) as (c' & Hrun & _).
      exists c'. auto.
    + rewrite (indexOf_unknown _ _ Hprev). apply throws_bind_now.
      destruct (assignItems_unknown c l
        (fst (Cdk.transferArrayItem (Cdk.data (Cdk.previousContainer event))
                (Cdk.data (Cdk.container event)) (Cdk.previousIndex event)
                (Cdk.currentIndex event))) H) as (c' & Hrun & _).
      exists c'. auto.
Qed.

(** X12: a drop whose target, or whose source when it differs from the
    target, has an id that is no container name of the layout throws a
    TypeError, and nothing is written to the storage. *)
Theorem drop_on_unknown_list_throws
    (c : Component) (l : CustomizableLayout) (event : Cdk.CdkDragDrop) :
  activeLayout c = Some l ->
  ~ In (Cdk.id (Cdk.container event)) (containerNames l)
  \/ (Cdk.same_object (Cdk.previousContainer event) (Cdk.container event) = false
      /\ ~ In (Cdk.id (Cdk.previousContainer event)) (containerNames l)) ->
  exists c', drop event c = (throw TypeError, c') /\ localStorage c' = localStorage c.
Proof.
  intros H Hunknown. destruct (drop_unknown_throws c l event H Hunknown) as (c' & Hrun & _).
  exists c'. split; [exact Hrun|]. apply (careful_perform (Drop event) c TypeError c' Hrun).
Qed.

Lemma drop_on_unknown_list_throws_witness :
  exists c',
    drop (Sample.dropped Sample.list_A
            {| Cdk.id := "C"; Cdk.data := []; Cdk.ref := 2 |} 0 0) Sample.board
    = (throw TypeError, c')
    /\ localStorage c' = localStorage Sample.board.
Proof.
  apply (drop_on_unknown_list_throws Sample.board
           (Sample.layout [Sample.column "A" ["r"; "s"]; Sample.column "B" ["p"; "q"]]));
    [vm_compute; reflexivity|].
  left. vm_compute. intros [H|[H|[]]]; discriminate.
Defined.

Lemma config_ext (config config' : CustomizableLayoutConfig) :
  name config' = name config -> version config' = version config ->
  (forall t, variant config' t = variant config t) -> config' = config.
Proof.
  intros Hn Hv Hvar. pose proof (Hvar Mobile) as Hm. pose proof (Hvar Tablet) as Ht.
  pose proof (Hvar Desktop) as Hd. destruct config, config'. simpl in *. congruence.
Qed.

Lemma at_index_nil {A} k : at_index (@nil A) k = None.
Proof. unfold at_index. destruct (k <? 0)%Z; reflexivity. Qed.

Lemma with_items_same L : with_items L (items L) = L.
Proof. destruct L. reflexivity. Qed.

(** X13: a drop that moves nothing (within a list of the layout, from an
    index to the same index once both are brought into range; or out of an
    empty list of the layout) returns, leaves the configuration as it
    was, and writes it to the storage. *)
Theorem drop_that_moves_nothing
    (c : Component) (config : CustomizableLayoutConfig) (l : CustomizableLayout)
    (event : Cdk.CdkDragDrop) :
  _layoutState c = Some config ->
  variant config (_layoutType c) = Some l ->
  (Cdk.same_object (Cdk.previousContainer event) (Cdk.container event) = true
   /\ exists i L,
        bound l (Cdk.container event) i L
        /\ Cdk.clamp (Cdk.previousIndex event) (Z.of_nat (length (items L)) - 1)
           = Cdk.clamp (Cdk.currentIndex event) (Z.of_nat (length (items L)) - 1))
  \/ (Cdk.same_object (Cdk.previousContainer event) (Cdk.container event) = false
      /\ exists i Li j Lj,
           bound l (Cdk.previousContainer event) i Li
           /\ bound l (Cdk.container event) j Lj
           /\ i <> j /\ items Li = []) ->
  exists c',
    drop event c = (ok tt, c')
    /\ _layoutState c' = Some config
    /\ localStorage c' !! name config = Some (stringify (json_of_config config)).
Proof.
  intros Hs Hv Hcase.
  assert (H : activeLayout c = Some l) by (unfold activeLayout; rewrite Hs; exact Hv).
  assert (Hdrop : exists c', drop event c = (ok tt, c') /\ activeLayout c' = Some l).
  { destruct Hcase as [(Hsame & i & L & Hb & Hclamp)|(Hsame & i & Li & j & Lj & Hbi & Hbj & Hne & He)].
    - destruct (returns_unit _ _ _ (drop_move_returns c l event i L H Hsame Hb))
        as (c' & Hrun & H').
      exists c'. split; [exact Hrun|]. rewrite H'. f_equal.
      unfold Cdk.moveItemInArray. rewrite Hclamp, Z.eqb_refl, with_items_same.
      destruct Hb as (_ & HL & _). rewrite (list_insert_id _ _ _ HL). destruct l; reflexivity.
    - destruct (returns_unit _ _ _
                  (drop_transfer_returns c l event i Li j Lj H Hsame Hbi Hbj Hne))
        as (c' & Hrun & H').
      exists c'. split; [exact Hrun|]. rewrite H'. f_equal.
      unfold Cdk.transferArrayItem. rewrite He, at_index_nil. simpl.
      destruct Hbi as (_ & HLi & _), Hbj as (_ & HLj & _).
      rewrite <- He, !with_items_same, (list_insert_id _ _ _ HLi), (list_insert_id _ _ _ HLj).
      destruct l; reflexivity. }
  destruct Hdrop as (c' & Hrun & H'). exists c'. split; [exact Hrun|].
  destruct (framed_perform (Drop event) c _ c' Hrun) as (_ & Ht & _ & _ & Hrest).
  rewrite Hs in Hrest. destruct Hrest as (config' & Hs' & Hn & Hver & Hvar & _).
  assert (config' = config) as ->.
  { apply config_ext; [exact Hn | exact Hver|]. intros t.
    assert (Hdec : t = _layoutType c \/ t <> _layoutType c)
      by (destruct t, (_layoutType c); first [left; reflexivity | right; discriminate]).
    destruct Hdec as [->|Hne]; [|apply Hvar, Hne].
    unfold activeLayout in H'. rewrite Hs', Ht in H'. simpl in H'. congruence. }
  split; [exact Hs'|].
  destruct (stores_perform (Drop event) c tt c' Hrun) as (config'' & Hs'' & Hk). congruence.
Qed.

Lemma drop_that_moves_nothing_witness :
  exists c',
    drop (Sample.dropped Sample.list_A Sample.list_A 1 9) Sample.board = (ok tt, c')
    /\ _layoutState c'
       = Some (Sample.config 1 [Sample.column "A" ["r"; "s"]; Sample.column "B" ["p"; "q"]])
    /\ localStorage c' !! "dashboard"
       = Some (stringify (json_of_config
                 (Sample.config 1 [Sample.column "A" ["r"; "s"]; Sample.column "B" ["p"; "q"]]))).
Proof.
  apply (drop_that_moves_nothing Sample.board
           (Sample.config 1 [Sample.column "A" ["r"; "s"]; Sample.column "B" ["p"; "q"]])
           (Sample.layout [Sample.column "A" ["r"; "s"]; Sample.column "B" ["p"; "q"]])
           (Sample.dropped Sample.list_A Sample.list_A 1 9));
    [vm_compute; reflexivity | reflexivity|].
  left. split; [reflexivity|].
  exists 0%nat, (Sample.column "A" ["r"; "s"]).
  split; [repeat split; vm_compute; reflexivity | reflexivity].
Defined.

(** ** Columns added and removed *)

Lemma returns_getEmptyList_next c (Q : LayoutList -> Component -> Prop) :
  (forall c', activeLayout c' = activeLayout c -> Q (emptyList (guids c (guidCount c))) c') ->
  returns getEmptyList c Q.
Proof. intros HQ. eexists _, _. split; [reflexivity|]. apply HQ. reflexivity. Qed.

Lemma add_column_both c l :
  activeLayout c = Some l ->
  (exists c', addColumnRightPressed c = (ok tt, c')
              /\ activeLayout c'
                 = Some (reconnect
                           {| lists := lists l ++ [emptyList (guids c (guidCount c))] |}))
  /\ (exists c', addColumnLeftPressed c = (ok tt, c')
                 /\ activeLayout c'
                    = Some (reconnect
                              {| lists := emptyList (guids c (guidCount c)) :: lists l |})).
Proof.
  intros H. split; apply returns_unit.
  - unfold addColumnRightPressed.
    apply returns_bind, (returns_currentLists c l); [exact H|].
    apply returns_bind, returns_getEmptyList_next. intros c1 H1.
    apply returns_bind, returns_set_currentLayout. intros c2 H2 _ _.
    apply (returns_updateLayout c2 _ _ H2). auto.
  - unfold addColumnLeftPressed.
    apply returns_bind, (returns_currentLayout c l); [exact H|].
    apply returns_bind, returns_getEmptyList_next. intros c1 H1. rewrite H in H1.
    apply returns_bind, (returns_currentLists c1 l); [exact H1|].
    apply returns_bind, returns_set_currentLayout. intros c2 H2 _ _.
    apply (returns_updateLayout c2 _ _ H2). auto.
Qed.

(** X14: adding a column puts an empty list, one fraction wide and named
    by the next value of [createGuid], after the last list (right) or
    before the first (left); the lists keep their items, widths and names,
    and each list is then connected to all the others. *)
Theorem add_column (c : Component) (l : CustomizableLayout) :
  activeLayout c = Some l ->
  let new := emptyList (guids c (guidCount c)) in
  (exists c', addColumnRightPressed c = (ok tt, c')
              /\ activeLayout c' = Some (reconnect {| lists := lists l ++ [new] |}))
  /\ (exists c', addColumnLeftPressed c = (ok tt, c')
                 /\ activeLayout c' = Some (reconnect {| lists := new :: lists l |})).
Proof. intros H new. apply add_column_both, H. Qed.

Lemma add_column_witness :
  (exists c', addColumnRightPressed Sample.board = (ok tt, c')
              /\ activeLayout c'
                 = Some (reconnect (Sample.layout [Sample.column "A" ["r"; "s"];
                                                   Sample.column "B" ["p"; "q"];
                                                   Sample.column "column-0" []])))
  /\ (exists c', addColumnLeftPressed Sample.board = (ok tt, c')
                 /\ activeLayout c'
                    = Some (reconnect (Sample.layout [Sample.column "column-0" [];
                                                      Sample.column "A" ["r"; "s"];
                                                      Sample.column "B" ["p"; "q"]]))).
Proof.
  apply (add_column Sample.board
           (Sample.layout [Sample.column "A" ["r"; "s"]; Sample.column "B" ["p"; "q"]])).
  vm_compute. reflexivity.
Defined.

(** X15: removing the left column appends its items, in their order, to
    the items of the second list; removing the right column appends its
    items to those of the list before it; the remaining lists keep their
    order and their items, and each is then connected to all the
    others. *)
Theorem remove_column (c : Component) (l : CustomizableLayout) :
  activeLayout c = Some l ->
  (forall l0 l1 rest,
      lists l = l0 :: l1 :: rest ->
      exists c', removeColumnLeftPressed c = (ok tt, c')
                 /\ activeLayout c'
                    = Some (reconnect
                              {| lists := with_items l1 (items l1 ++ items l0) :: rest |}))
  /\ (forall front l1 l0,
         lists l = front ++ [l1; l0] ->
         exists c', removeColumnRightPressed c = (ok tt, c')
                    /\ activeLayout c'
                       = Some (reconnect
                                 {| lists := front ++ [with_items l1 (items l1 ++ items l0)] |})).
Proof.
  intros H. split.
  - intros l0 l1 rest Hl. apply returns_unit, (removeColumnLeftPressed_returns c l l0 l1 rest H Hl).
  - intros front l1 l0 Hl. apply returns_unit.
    apply (removeColumnRightPressed_returns c l front l1 l0 H).
    rewrite Hl, <- List.app_assoc. reflexivity.
Qed.

Lemma remove_column_witness :
  (exists c', removeColumnLeftPressed Sample.board = (ok tt, c')
              /\ activeLayout c'
                 = Some (reconnect (Sample.layout [Sample.column "B" ["p"; "q"; "r"; "s"]])))
  /\ (exists c', removeColumnRightPressed Sample.board = (ok tt, c')
                 /\ activeLayout c'
                    = Some (reconnect (Sample.layout [Sample.column "A" ["r"; "s"; "p"; "q"]]))).
Proof.
  destruct (remove_column Sample.board
              (Sample.layout [Sample.column "A" ["r"; "s"]; Sample.column "B" ["p"; "q"]]))
    as [Hleft Hright]; [vm_compute; reflexivity|].
  split.
  - apply (Hleft (Sample.column "A" ["r"; "s"]) (Sample.column "B" ["p"; "q"]) []). reflexivity.
  - apply (Hright [] (Sample.column "A" ["r"; "s"]) (Sample.column "B" ["p"; "q"])). reflexivity.
Defined.

Lemma reconnect_same_content ls ls' :
  Forall2 (fun L L' => items L' = items L /\ width L' = width L
                       /\ containerName L' = containerName L) ls ls' ->
  reconnect {| lists := ls' |} = reconnect {| lists := ls |}.
Proof.
  intros Hc. unfold reconnect, connect, containerNames. simpl.
  assert (Hnames : map containerName ls' = map containerName ls).
  { induction Hc as [|L L' ls ls' (_ & _ & Hn) _ IH]; simpl; congruence. }
  rewrite Hnames. f_equal. clear Hnames. generalize (map containerName ls). intros names.
  induction Hc as [|L L' ls ls' (Hi & Hw & Hn) _ IH]; simpl; [reflexivity|].
  rewrite IH. f_equal. unfold with_connectedTo. rewrite Hi, Hw, Hn. reflexivity.
Qed.

Lemma same_content_with_connectedTo (g : LayoutList -> list string) ls :
  Forall2 (fun L L' => items L' = items L /\ width L' = width L
                       /\ containerName L' = containerName L)
    ls (map (fun L => with_connectedTo L (g L)) ls).
Proof. induction ls as [|L ls IH]; simpl; constructor; auto. Qed.

(** X16: on a layout with at least one list, adding a column on a side
    and removing the column of that side gives back the lists with their
    items, widths and names, each connected to all the others. *)
Theorem add_then_remove_column (c : Component) (l : CustomizableLayout) :
  activeLayout c = Some l ->
  lists l <> [] ->
  (exists c1 c2,
      addColumnRightPressed c = (ok tt, c1)
      /\ removeColumnRightPressed c1 = (ok tt, c2)
      /\ activeLayout c2 = Some (reconnect l))
  /\ (exists c1 c2,
         addColumnLeftPressed c = (ok tt, c1)
         /\ removeColumnLeftPressed c1 = (ok tt, c2)
         /\ activeLayout c2 = Some (reconnect l)).
Proof.
  intros H Hne. destruct (add_column_both c l H) as [(c1 & Hr1 & H1) (c1' & Hl1 & H1')].
  split.
  - destruct (exists_last Hne) as (front & l1 & Hl).
    set (names := containerNames {| lists := lists l ++ [emptyList (guids c (guidCount c))] |})
      in *.
    set (f := fun L => with_connectedTo L
                         (List.filter (fun cn => negb (String.eqb cn (containerName L))) names)).
    assert (Hlists : lists (reconnect
                              {| lists := lists l ++ [emptyList (guids c (guidCount c))] |})
                     = (map f front ++ [f l1]) ++ [f (emptyList (guids c (guidCount c)))]).
    { unfold reconnect, connect. simpl. fold names. fold f. rewrite Hl, !map_app. reflexivity. }
    destruct (returns_unit _ _ _
                (removeColumnRightPressed_returns c1 _ (map f front) (f l1)
                   (f (emptyList (guids c (guidCount c)))) H1 Hlists)) as (c2 & Hr2 & H2).
    exists c1, c2. split; [exact Hr1|]. split; [exact Hr2|]. rewrite H2. f_equal.
    replace l with {| lists := front ++ [l1] |} by (destruct l; simpl in *; congruence).
    apply reconnect_same_content. apply Forall2_app.
    + apply (same_content_with_connectedTo
               (fun L => List.filter (fun cn => negb (String.eqb cn (containerName L))) names)).
    + constructor; [|constructor]. simpl. rewrite app_nil_r. auto.
  - destruct (lists l) as [|l1 rest] eqn:Hl; [congruence|].
    set (names := containerNames {| lists := emptyList (guids c (guidCount c)) :: l1 :: rest |})
      in *.
    set (f := fun L => with_connectedTo L
                         (List.filter (fun cn => negb (String.eqb cn (containerName L))) names)).
    destruct (returns_unit _ _ _
                (removeColumnLeftPressed_returns c1' _ (f (emptyList (guids c (guidCount c))))
                   (f l1) (map f rest) H1' eq_refl)) as (c2 & Hl2 & H2).
    exists c1', c2. split; [exact Hl1|]. split; [exact Hl2|]. rewrite H2. f_equal.
    replace l with {| lists := l1 :: rest |} by (destruct l; simpl in *; congruence).
    apply reconnect_same_content. constructor.
    + simpl. rewrite app_nil_r. auto.
    + apply (same_content_with_connectedTo
               (fun L => List.filter (fun cn => negb (String.eqb cn (containerName L))) names)).
Qed.

Lemma add_then_remove_column_witness :
  (exists c1 c2,
      addColumnRightPressed Sample.board = (ok tt, c1)
      /\ removeColumnRightPressed c1 = (ok tt, c2)
      /\ activeLayout c2
         = Some (reconnect (Sample.layout [Sample.column "A" ["r"; "s"];
                                           Sample.column "B" ["p"; "q"]])))
  /\ (exists c1 c2,
         addColumnLeftPressed Sample.board = (ok tt, c1)
         /\ removeColumnLeftPressed c1 = (ok tt, c2)
         /\ activeLayout c2
            = Some (reconnect (Sample.layout [Sample.column "A" ["r"; "s"];
                                              Sample.column "B" ["p"; "q"]]))).
Proof.
  apply (add_then_remove_column Sample.board
           (Sample.layout [Sample.column "A" ["r"; "s"]; Sample.column "B" ["p"; "q"]]));
    [vm_compute; reflexivity | discriminate].
Defined.

(** ** Reset *)

(** X17: a reset replaces the layout by the lists of the default's
    variant, with their items, widths and container names, whatever the
    layout was; the connections it gives them are taken from the container
    names of the layout it replaces, so that a second reset is what leaves
    each list of the default connected to all the others. *)
Theorem reset_restores_default
    (c : Component) (l dl : CustomizableLayout) :
  activeLayout c = Some l ->
  variant (defaultLayout c) (_layoutType c) = Some dl ->
  exists c1 c2,
    resetPressed c = (ok tt, c1)
    /\ activeLayout c1 = Some (connect (containerNames l) dl)
    /\ map items (lists (connect (containerNames l) dl)) = map items (lists dl)
    /\ map width (lists (connect (containerNames l) dl)) = map width (lists dl)
    /\ containerNames (connect (containerNames l) dl) = containerNames dl
    /\ resetPressed c1 = (ok tt, c2)
    /\ activeLayout c2 = Some (reconnect dl)
    /\ connected (reconnect dl).
Proof.
  intros H Hd.
  destruct (returns_unit _ _ _ (resetPressed_returns c l dl H Hd)) as (c1 & Hrun1 & H1).
  destruct (framed_perform Reset c _ c1 Hrun1) as (Hdef & Htype & _).
  assert (Hd1 : variant (defaultLayout c1) (_layoutType c1) = Some dl) by congruence.
  destruct (returns_unit _ _ _ (resetPressed_returns c1 _ dl H1 Hd1)) as (c2 & Hrun2 & H2).
  rewrite containerNames_connect in H2.
  exists c1, c2. split; [exact Hrun1|]. split; [exact H1|].
  split; [|split; [|split; [apply containerNames_connect|]]].
  - unfold connect. simpl. rewrite map_map. reflexivity.
  - unfold connect. simpl. rewrite map_map. reflexivity.
  - split; [exact Hrun2|]. split; [exact H2 | apply connected_reconnect].
Qed.

Lemma reset_restores_default_witness :
  let c := snd (removeColumnRightPressed Sample.board) in
  exists c1 c2,
    resetPressed c = (ok tt, c1)
    /\ activeLayout c1
       = Some (Sample.layout [with_connectedTo (Sample.column "A" ["r"; "s"]) [];
                              with_connectedTo (Sample.column "B" ["p"; "q"]) ["A"]])
    /\ resetPressed c1 = (ok tt, c2)
    /\ activeLayout c2
       = Some (Sample.layout [with_connectedTo (Sample.column "A" ["r"; "s"]) ["B"];
                              with_connectedTo (Sample.column "B" ["p"; "q"]) ["A"]]).
Proof.
  intros c.
  destruct (reset_restores_default c
              (reconnect (Sample.layout [Sample.column "A" ["r"; "s"; "p"; "q"]]))
              (Sample.layout [Sample.column "A" ["r"; "s"]; Sample.column "B" ["p"; "q"]]))
    as (c1 & c2 & Hrun1 & H1 & _ & _ & _ & Hrun2 & H2 & _);
    [vm_compute; reflexivity | vm_compute; reflexivity |].
  exists c1, c2. split; [exact Hrun1|]. split; [exact H1|]. split; [exact Hrun2 | exact H2].
Defined.

(** ** Initialization *)

Lemma forEach_error {A S} (f : S -> A -> result S) l s err :
  (forall s x e, f s x = inl e -> e = TypeError) ->
  forEach f l s = inl err -> err = TypeError.
Proof.
  intros Hf. revert s. induction l as [|x l IH]; simpl; intros s; [discriminate|].
  destruct (f s x) as [e|s1] eqn:Hstep; simpl.
  - intros [= <-]. apply (Hf _ _ _ Hstep).
  - apply IH.
Qed.

Lemma addMissing_error stored default t err :
  addMissingComponentsToStoredLayout stored default t = inl err -> err = TypeError.
Proof.
  unfold addMissingComponentsToStoredLayout.
  destruct (variant stored t) as [sl|]; [|discriminate].
  destruct (variant default t) as [dl|]; [|discriminate].
  destruct (forEach _ _ sl) as [e|sl'] eqn:Hloop; simpl; [|discriminate].
  intros [= <-]. apply (forEach_error _ _ _ _ (insertMissing_throws _) Hloop).
Qed.

Lemma reconcile_error stored default err :
  reconcile stored default = inl err -> err = TypeError.
Proof.
  unfold reconcile.
  destruct (addMissingComponentsToStoredLayout stored default Mobile) as [e|s1] eqn:H1; simpl.
  { intros [= <-]. apply (addMissing_error _ _ _ _ H1). }
  destruct (addMissingComponentsToStoredLayout s1 default Tablet) as [e|s2] eqn:H2; simpl.
  { intros [= <-]. apply (addMissing_error _ _ _ _ H2). }
  apply addMissing_error.
Qed.

Lemma JSON_parse_error x err : JSON_parse x = inl err -> err = SyntaxError.
Proof.
  unfold JSON_parse, parse. destruct (parse_value _ _) as [[v rest]|]; [|congruence].
  destruct (skip_ws rest); congruence.
Qed.

(** X19: [ngOnInit] writes nothing to the storage.  When it throws, the
    component is as it was, with no configuration adopted and no variant
    selected; when it returns, the variant is the one of the window's
    width and the working configuration is not older than the default. *)
Theorem ngOnInit_outcome (c : Component) (r : result unit) (c' : Component) :
  ngOnInit c = (r, c') ->
  localStorage c' = localStorage c
  /\ match r with
     | inl e => c' = c
     | inr _ =>
         _layoutType c' = layoutTypeOf (tabletBreakpoint c) (innerWidth c)
         /\ exists config,
              _layoutState c' = Some config
              /\ (version (defaultLayout c) <= version config)%Z
     end.
Proof.
  unfold ngOnInit, bind. rewrite initializeState_eq.
  destruct (JSON_parse _) as [e|v]; [intros [= <- <-]; auto|].
  assert (Hdefault :
            (ok tt, snd (resize (Some (innerWidth c)) (adopted (defaultLayout c) c))) = (r, c') ->
            localStorage c' = localStorage c
            /\ match r with
               | inl e => c' = c
               | inr _ =>
                   _layoutType c' = layoutTypeOf (tabletBreakpoint c) (innerWidth c)
                   /\ exists config,
                        _layoutState c' = Some config
                        /\ (version (defaultLayout c) <= version config)%Z
               end).
  { intros [= <- <-]. simpl. split; [reflexivity|]. split; [reflexivity|].
    eexists. split; [reflexivity | lia]. }
  destruct (isCustomizableLayoutConfig v) as [stored|]; [|exact Hdefault].
  destruct (version (defaultLayout c) <=? version stored)%Z eqn:Hversion; [|exact Hdefault].
  destruct (reconcile stored (defaultLayout c)) as [e|stored'] eqn:Hrec;
    [intros [= <- <-]; auto|].
  intros [= <- <-]. simpl. split; [reflexivity|]. split; [reflexivity|].
  exists stored'. split; [reflexivity|].
  destruct (reconcile_effect _ _ _ Hrec) as (_ & Hv & _). rewrite Hv. bools. lia.
Qed.

Lemma ngOnInit_outcome_witness :
  let c := Sample.wide Sample.two_variants
             (Sample.stored (Sample.config 3 [Sample.column "A" ["x"]])) in
  localStorage (snd (ngOnInit c)) = localStorage c
  /\ _layoutType (snd (ngOnInit c)) = Tablet
  /\ exists config,
       _layoutState (snd (ngOnInit c)) = Some config /\ (1 <= version config)%Z.
Proof.
  intros c.
  destruct (ngOnInit_outcome c (ok tt) (snd (ngOnInit c))) as (Hs & Ht & Hc);
    [vm_compute; reflexivity|].
  split; [exact Hs|]. split; [exact Ht | exact Hc].
Defined.

(** X20: [initializeState] throws a SyntaxError only for a stored text
    that is not JSON, and a TypeError only for a stored configuration that
    is valid and not older than the default and that reconciliation fails
    on; it throws nothing else, and nothing when the storage has no entry
    under the default's name. *)
Theorem initializeState_errors (c : Component) (e : exn) :
  fst (initializeState c) = throw e ->
  match e with
  | SyntaxError =>
      exists text,
        localStorage c !! name (defaultLayout c) = Some text
        /\ JSON.parse text = throw SyntaxError
  | TypeError =>
      exists text v stored,
        localStorage c !! name (defaultLayout c) = Some text
        /\ JSON.parse text = ok v
        /\ isCustomizableLayoutConfig v = Some stored
        /\ (version (defaultLayout c) <= version stored)%Z
        /\ reconcile stored (defaultLayout c) = throw TypeError
  end.
Proof.
  rewrite initializeState_eq.
  destruct (localStorage c !! name (defaultLayout c)) as [text|] eqn:Hk.
  2:{ intros Hthrow. exfalso. revert Hthrow.
      replace (JSON_parse None) with (@inr exn json JNull) by (vm_compute; reflexivity).
      change (isCustomizableLayoutConfig JNull) with (@None CustomizableLayoutConfig).
      discriminate. }
  change (JSON_parse (Some text)) with (JSON.parse text).
  destruct (JSON.parse text) as [err|v] eqn:Hparse.
  { intros [= <-].
    assert (err = SyntaxError) as ->
      by (apply (JSON_parse_error (Some text)); exact Hparse).
    eauto. }
  destruct (isCustomizableLayoutConfig v) as [stored|] eqn:Hguard; [|discriminate].
  destruct (version (defaultLayout c) <=? version stored)%Z eqn:Hversion; [|discriminate].
  destruct (reconcile stored (defaultLayout c)) as [err|stored'] eqn:Hrec; [|discriminate].
  simpl. intros [= <-]. assert (err = TypeError) as -> by apply (reconcile_error _ _ _ Hrec).
  exists text, v, stored. repeat split; auto. bools. lia.
Qed.

Lemma initializeState_errors_witness :
  let c := Sample.component (Sample.config 1 [Sample.column "A" ["x"]])
             {[ "dashboard" := "{oops" ]} in
  exists text,
    localStorage c !! "dashboard" = Some text /\ JSON.parse text = throw SyntaxError.
Proof.
  apply (initializeState_errors
           (Sample.component (Sample.config 1 [Sample.column "A" ["x"]])
              {[ "dashboard" := "{oops" ]}) SyntaxError).
  vm_compute. reflexivity.
Defined.

(** ** The grid columns after a column is added *)

Lemma currentColumns_eq c l :
  activeLayout c = Some l ->
  currentColumns c
  = (ok (fold_left (fun cur prev => (cur ++ " " ++ prev)%string) (map width (lists l)) ""%string),
     c).
Proof.
  intros H. unfold currentColumns. rewrite (bind_ok _ _ _ _ _ (currentLists_eq c l H)).
  reflexivity.
Qed.

Lemma widths_connect names l : map width (lists (connect names l)) = map width (lists l).
Proof. unfold connect. simpl. rewrite map_map. reflexivity. Qed.

(** X21: adding a column on the right appends one space and [1fr] to the
    text of the grid columns; adding it on the left puts them before the
    text. *)
Theorem columns_after_add_column (c : Component) (l : CustomizableLayout) (cols : string) :
  activeLayout c = Some l ->
  fst (currentColumns c) = ok cols ->
  (exists c', addColumnRightPressed c = (ok tt, c')
              /\ fst (currentColumns c') = ok (cols ++ " 1fr")%string)
  /\ (exists c', addColumnLeftPressed c = (ok tt, c')
                 /\ fst (currentColumns c') = ok (" 1fr" ++ cols)%string).
Proof.
  intros H Hcols. rewrite (currentColumns_eq c l H) in Hcols. simpl in Hcols.
  injection Hcols as <-.
  destruct (add_column_both c l H) as [(c1 & Hr & H1) (c2 & Hl & H2)]. split.
  - exists c1. split; [exact Hr|]. rewrite (currentColumns_eq c1 _ H1). cbn [fst]. f_equal.
    unfold reconnect. rewrite widths_connect. cbn [lists]. rewrite map_app, fold_left_app.
    reflexivity.
  - exists c2. split; [exact Hl|]. rewrite (currentColumns_eq c2 _ H2). cbn [fst]. f_equal.
    unfold reconnect. rewrite widths_connect. cbn [lists map fold_left emptyList width].
    rewrite (fold_left_widths _ ("" ++ " " ++ "1fr")), (fold_left_widths _ "").
    reflexivity.
Qed.

Lemma columns_after_add_column_witness :
  (exists c', addColumnRightPressed Sample.board = (ok tt, c')
              /\ fst (currentColumns c') = ok " 1fr 1fr 1fr")
  /\ (exists c', addColumnLeftPressed Sample.board = (ok tt, c')
                 /\ fst (currentColumns c') = ok " 1fr 1fr 1fr").
Proof.
  apply (columns_after_add_column Sample.board
           (Sample.layout [Sample.column "A" ["r"; "s"]; Sample.column "B" ["p"; "q"]])
           " 1fr 1fr");
    vm_compute; reflexivity.
Defined.
